(** * LocalChat: the streaming-response pipeline of the chat front end

    A shallow embedding of the TypeScript sources

      - [frontend/src/components/Chat.tsx]  ([sanitizeMarkdown], the message
        synchronisation effect, the streaming callbacks, [handleStopStreaming]),
      - [frontend/src/services/api.ts]       ([sendMessage] and its background
        [readStream] loop),

    followed by the properties of the specification that concern them.

    JavaScript strings are sequences of UTF-16 code units; they are modelled as
    lists of [N].  Exceptions are explicit: a computation that may throw
    returns a [Completion]. *)

From Stdlib Require Import String Ascii DecimalString List NArith ZArith Bool Lia.
Import ListNotations.

Set Implicit Arguments.
#[local] Set Warnings "-register-all".

(** ** JavaScript strings *)

Module JsString.

Definition jsstring := list N.

(** A string literal of the source (ASCII only). *)
Definition js (s : string) : jsstring :=
  map N_of_ascii (list_ascii_of_string s).

Fixpoint str_eqb (a b : jsstring) : bool :=
  match a, b with
  | [], [] => true
  | x :: a', y :: b' => N.eqb x y && str_eqb a' b'
  | _, _ => false
  end.

(** [s.startsWith(p)] *)
Fixpoint startsWith (s p : jsstring) : bool :=
  match p, s with
  | [], _ => true
  | y :: p', x :: s' => N.eqb x y && startsWith s' p'
  | _ :: _, [] => false
  end.

(** [s.endsWith(p)] *)
Definition endsWith (s p : jsstring) : bool :=
  startsWith (rev s) (rev p).

(** [s.includes(p)] *)
Fixpoint includes (s p : jsstring) : bool :=
  startsWith s p ||
  match s with
  | [] => false
  | _ :: s' => includes s' p
  end.

(** [s.substring(n)] for [0 <= n]. *)
Definition substring (n : nat) (s : jsstring) : jsstring := skipn n s.

(** [s.split(sep)] for a non-empty separator: the pieces between the
    successive non-overlapping occurrences of [sep], scanning from the left.
    [skip] counts the code units of an occurrence still to be passed over,
    [cur] is the current piece, reversed. *)
Fixpoint split_go (sep : jsstring) (skip : nat) (cur s : jsstring)
  : list jsstring :=
  match s with
  | [] => [rev cur]
  | x :: s' =>
      match skip with
      | S k => split_go sep k cur s'
      | O =>
          if startsWith s sep
          then rev cur :: split_go sep (length sep - 1) [] s'
          else split_go sep 0 (x :: cur) s'
      end
  end.

Definition split (s sep : jsstring) : list jsstring := split_go sep 0 [] s.

(** [a.join(sep)] *)
Fixpoint join (sep : jsstring) (a : list jsstring) : jsstring :=
  match a with
  | [] => []
  | [x] => x
  | x :: a' => x ++ sep ++ join sep a'
  end.

(** White space and line terminators, the code units [trim] strips
    (ECMAScript WhiteSpace and LineTerminator). *)
Definition isWhiteSpace (c : N) : bool :=
  existsb (N.eqb c)
    [9; 10; 11; 12; 13; 32; 160; 5760; 8232; 8233; 8239; 8287; 12288; 65279]%N
  || (N.leb 8192 c && N.leb c 8202).

Fixpoint trimStart (s : jsstring) : jsstring :=
  match s with
  | [] => []
  | x :: s' => if isWhiteSpace x then trimStart s' else s
  end.

Definition trimEnd (s : jsstring) : jsstring := rev (trimStart (rev s)).

(** [s.trim()] *)
Definition trim (s : jsstring) : jsstring := trimEnd (trimStart s).

(** [s.repeat(n)] for a count already known to be a natural number. *)
Fixpoint repeat_str (s : jsstring) (n : nat) : jsstring :=
  match n with
  | O => []
  | S k => s ++ repeat_str s k
  end.

Definition newline : N := 10.
Definition pipe : N := 124.
Definition dash : N := 45.
Definition backtick : N := 96.

End JsString.
Import JsString.

(** ** Completions: normal return, a thrown exception, or fuel exhausted *)

Inductive JsError : Type :=
| TypeError
| RangeError
| SyntaxError
| Error (message : jsstring)
| NetworkError.

Inductive Completion (A : Type) : Type :=
| Normal (a : A)
| Throw (e : JsError)
| OutOfFuel.
Arguments Throw {A} e.
Arguments OutOfFuel {A}.

Definition bind {A B} (c : Completion A) (k : A -> Completion B)
  : Completion B :=
  match c with
  | Normal a => k a
  | Throw e => Throw e
  | OutOfFuel => OutOfFuel
  end.

Notation "x <- c ;; k" := (bind c (fun x => k))
  (at level 61, c at next level, right associativity).

(** [try { return body } catch (error) { return handler }] *)
Definition try_catch {A} (body : Completion A) (handler : A) : Completion A :=
  match body with
  | Normal a => Normal a
  | Throw _ => Normal handler
  | OutOfFuel => OutOfFuel
  end.

(** ** Arrays of strings, indexed by JavaScript numbers *)

Module JsArray.

(** [a[k]]: [None] stands for [undefined]. *)
Definition index {A} (a : list A) (k : Z) : option A :=
  if (k <? 0)%Z then None else nth_error a (Z.to_nat k).

(** A method call on [a[k]] throws a TypeError when [a[k]] is undefined. *)
Definition index_or_throw {A} (a : list A) (k : Z) : Completion A :=
  match index a k with
  | Some x => Normal x
  | None => Throw TypeError
  end.

(** [a.splice(start, 0, x)]: the start index is clamped to the array. *)
Definition splice_insert {A} (a : list A) (start : Z) (x : A) : list A :=
  let len := Z.of_nat (length a) in
  let k := if (start <? 0)%Z then Z.max (len + start) 0 else Z.min start len in
  firstn (Z.to_nat k) a ++ x :: skipn (Z.to_nat k) a.

(** [s.repeat(count)] throws a RangeError on a negative count. *)
Definition repeat (s : jsstring) (count : Z) : Completion jsstring :=
  if (count <? 0)%Z then Throw RangeError
  else Normal (repeat_str s (Z.to_nat count)).

End JsArray.
Import JsArray.

(** ** Regular expressions, as far as [codeBlockRegex] needs them *)

Module RegExp.

Inductive Regex : Type :=
| Lit (s : jsstring)                (* a sequence of code units *)
| NotNewline                        (* any code unit but the line break *)
| AnyUnit                           (* any code unit *)
| Newline
| Seq (a b : Regex)
| Star (greedy : bool) (r : Regex)  (* greedy or lazy repetition *)
| Opt (r : Regex)                   (* greedy option *)
| Group (n : nat) (r : Regex).      (* capturing group number [n] *)

(** The groups that took part in the match, each with the text it captured,
    the last set first. *)
Definition Captures : Type := list (nat * jsstring).

Fixpoint group (n : nat) (caps : Captures) : option jsstring :=
  match caps with
  | [] => None
  | (m, s) :: caps' => if Nat.eqb m n then Some s else group n caps'
  end.

(** A match: what is left of the input after it, and the captures. *)
Definition MatchResult : Type := option (jsstring * Captures).

(** The code units between two positions of the input. *)
Definition consumed (before after : jsstring) : jsstring :=
  firstn (length before - length after) before.

(** The backtracking matcher of ECMAScript: [exec r s caps k] matches [r] at
    the head of [s] and hands what is left to the continuation [k]; when [k]
    fails, the next alternative of [r] is tried: fewer repetitions for a
    greedy quantifier, more for a lazy one. *)
Fixpoint exec (fuel : nat) (r : Regex) (s : jsstring) (caps : Captures)
    (k : jsstring -> Captures -> MatchResult) : MatchResult :=
  match fuel with
  | O => None
  | S f =>
      match r with
      | Lit p => if startsWith s p then k (skipn (length p) s) caps else None
      | NotNewline =>
          match s with
          | x :: s' => if N.eqb x newline then None else k s' caps
          | [] => None
          end
      | AnyUnit =>
          match s with
          | _ :: s' => k s' caps
          | [] => None
          end
      | Newline =>
          match s with
          | x :: s' => if N.eqb x newline then k s' caps else None
          | [] => None
          end
      | Seq a b => exec f a s caps (fun s1 c1 => exec f b s1 c1 k)
      | Star true r' =>
          match exec f r' s caps
                  (fun s1 c1 =>
                     if length s1 <? length s
                     then exec f (Star true r') s1 c1 k
                     else None) with
          | Some res => Some res
          | None => k s caps
          end
      | Star false r' =>
          match k s caps with
          | Some res => Some res
          | None =>
              exec f r' s caps
                (fun s1 c1 =>
                   if length s1 <? length s
                   then exec f (Star false r') s1 c1 k
                   else None)
          end
      | Opt r' =>
          match exec f r' s caps k with
          | Some res => Some res
          | None => k s caps
          end
      | Group n r' =>
          exec f r' s caps (fun s1 c1 => k s1 ((n, consumed s s1) :: c1))
      end
  end.

(** The match of [r] that starts at the head of [s], if there is one. *)
Definition exec_at (r : Regex) (s : jsstring) : MatchResult :=
  exec (16 + 2 * length s) r s [] (fun s1 c1 => Some (s1, c1)).

End RegExp.
Import RegExp.

(** ** Chat.tsx: [sanitizeMarkdown] *)

Module Sanitizer.

(** The local variables of the table pass. *)
Record TableState : Type := mkTableState {
  lines : list jsstring;
  inTable : bool;
  tableStartIndex : Z;
  hasHeader : bool;
  hasDivider : bool
}.

(** [line.replace(/[^\-|]/g, '')] *)
Definition only_dash_pipe (line : jsstring) : jsstring :=
  filter (fun c => N.eqb c dash || N.eqb c pipe) line.

(** [line.startsWith('|') && line.endsWith('|')] *)
Definition isPipeLine (line : jsstring) : bool :=
  startsWith line [pipe] && endsWith line [pipe].

(** The divider synthesised for the header at [tableStartIndex]:
<<
  const headerCells = lines[tableStartIndex].split('|').length - 2
  const divider = '|' + ' --- |'.repeat(headerCells > 0 ? headerCells : 1)
>> *)
Definition headerCells (header : jsstring) : Z :=
  Z.of_nat (length (split header [pipe])) - 2.

Definition make_divider (st : TableState) : Completion jsstring :=
  header <- index_or_throw (lines st) (tableStartIndex st) ;;
  let cells := headerCells header in
  cellsText <- repeat (js " --- |")
                 (if (cells >? 0)%Z then cells else 1%Z) ;;
  Normal (pipe :: cellsText).

(** One iteration of the [for] loop at index [i]; returns the value of [i] at
    the end of the body (the body increments it after a splice) and the new
    state. *)
Definition loop_body (i : Z) (st : TableState) : Completion (Z * TableState) :=
  raw <- index_or_throw (lines st) i ;;
  let line := trim raw in
  if isPipeLine line then
    let st1 :=
      if negb (inTable st)
      then mkTableState (lines st) true i (hasHeader st) (hasDivider st)
      else st in
    let st2 :=
      if inTable st1 && (i =? tableStartIndex st1)%Z
      then mkTableState (lines st1) (inTable st1) (tableStartIndex st1)
             true (hasDivider st1)
      else st1 in
    let st3 :=
      if inTable st2 && (i =? tableStartIndex st2 + 1)%Z
         && str_eqb (only_dash_pipe line) line
      then mkTableState (lines st2) (inTable st2) (tableStartIndex st2)
             (hasHeader st2) true
      else st2 in
    Normal (i, st3)
  else if inTable st && str_eqb line [] then
    if hasHeader st && negb (hasDivider st) then
      divider <- make_divider st ;;
      Normal ((i + 1)%Z,
              mkTableState
                (splice_insert (lines st) (tableStartIndex st + 1) divider)
                false (tableStartIndex st) false false)
    else
      Normal (i, mkTableState (lines st) false (tableStartIndex st) false false)
  else Normal (i, st).

(** [for (let i = 0; i < lines.length; i++) { ... }] *)
Fixpoint table_loop (fuel : nat) (i : Z) (st : TableState)
  : Completion TableState :=
  if (i <? Z.of_nat (length (lines st)))%Z then
    match fuel with
    | O => OutOfFuel
    | S fuel' =>
        r <- loop_body i st ;;
        table_loop fuel' (fst r + 1) (snd r)
    end
  else Normal st.

(** The table pass, entered when [hasTableStart] holds; it returns the new
    value of [content]. *)
Definition repairTables (content : jsstring) : Completion jsstring :=
  let lines0 := split content [newline] in
  st <- table_loop (length lines0) 0
          (mkTableState lines0 false (-1) false false) ;;
  lines1 <-
    (if inTable st && hasHeader st && negb (hasDivider st) then
       divider <- make_divider st ;;
       Normal (splice_insert (lines st) (tableStartIndex st + 1) divider)
     else Normal (lines st)) ;;
  Normal (join [newline] lines1).

Definition hasTableStart (content : jsstring) : bool :=
  includes content [pipe] && includes content (js "---").

(** The code-fence pass,
    [content = content.replace(codeBlockRegex, callback)].
    The pattern is three backticks; group 1, any number of code units other
    than a line break, greedy; group 2, optional, a line break and then any
    code units, as few as possible; group 3, optional, three backticks. *)
Definition fence : jsstring := [backtick; backtick; backtick].

Definition codeBlockRegex : Regex :=
  Seq (Lit fence)
    (Seq (Group 1 (Star true NotNewline))
       (Seq (Opt (Group 2 (Seq Newline (Star false AnyUnit))))
            (Opt (Group 3 (Lit fence))))).

Definition or_empty (o : option jsstring) : jsstring :=
  match o with Some s => s | None => [] end.

(** The callback,
<<
  (match, lang, code, end) => {
    if (!end) { return `\`\`\`${lang || ''}${code || ''}\`\`\`` }
    return match
  }
>> *)
Definition replace_callback (matched : jsstring) (caps : Captures) : jsstring :=
  match group 3 caps with
  | None | Some [] =>
      fence ++ or_empty (group 1 caps) ++ or_empty (group 2 caps) ++ fence
  | Some _ => matched
  end.

(** The global replace: matches are looked for from left to right, the
    search resuming where the last match ended (no match of this pattern is
    empty).  [skip] counts the code units of the current match still to be
    passed over. *)
Fixpoint fixCodeBlocks_go (skip : nat) (s : jsstring) : jsstring :=
  match s with
  | [] => []
  | x :: s' =>
      match skip with
      | S k => fixCodeBlocks_go k s'
      | O =>
          match exec_at codeBlockRegex s with
          | Some (rest, caps) =>
              let matched := consumed s rest in
              replace_callback matched caps
                ++ fixCodeBlocks_go (length matched - 1) s'
          | None => x :: fixCodeBlocks_go 0 s'
          end
      end
  end.

Definition fixCodeBlocks (content : jsstring) : jsstring :=
  fixCodeBlocks_go 0 content.

(** The body of the [try] block.  The table pass is the only part that can
    throw, and it does so before [content] is reassigned, so the [content]
    the [catch] clause returns is the original text. *)
Definition sanitize_try (content : jsstring) : Completion jsstring :=
  content1 <-
    (if hasTableStart content then repairTables content else Normal content) ;;
  Normal (fixCodeBlocks content1).

Definition sanitizeMarkdown_run (content : jsstring) : Completion jsstring :=
  match content with
  | [] => Normal []                       (* if (!content) return '' *)
  | _ => try_catch (sanitize_try content) content
  end.

(** [sanitizeMarkdown] as the function from strings to strings it is; the
    run is shown below to return for every text. *)
Definition sanitizeMarkdown (content : jsstring) : jsstring :=
  match sanitizeMarkdown_run content with
  | Normal s => s
  | _ => content
  end.

End Sanitizer.
Import Sanitizer.

(** ** [JSON.parse] and the string concatenation [prev + parsedData] *)

Module Json.

Inductive JsonValue : Type :=
| JNull
| JBool (b : bool)
| JNumber (literal : jsstring)
| JString (s : jsstring)
| JArray (elements : list JsonValue)
| JObject (members : list (jsstring * JsonValue)).

Definition isJsonSpace (c : N) : bool :=
  N.eqb c 32 || N.eqb c 9 || N.eqb c 10 || N.eqb c 13.

Fixpoint skip_ws (s : jsstring) : jsstring :=
  match s with
  | x :: s' => if isJsonSpace x then skip_ws s' else s
  | [] => []
  end.

Definition isDigit (c : N) : bool := N.leb 48 c && N.leb c 57.

Definition hexValue (c : N) : option N :=
  if isDigit c then Some (c - 48)%N
  else if N.leb 65 c && N.leb c 70 then Some (c - 55)%N
  else if N.leb 97 c && N.leb c 102 then Some (c - 87)%N
  else None.

(** The four hex digits of a [\uXXXX] escape, as one code unit. *)
Definition hex4 (s : jsstring) : option (N * jsstring) :=
  match s with
  | a :: b :: c :: d :: rest =>
      match hexValue a, hexValue b, hexValue c, hexValue d with
      | Some x, Some y, Some z, Some w =>
          Some ((x * 4096 + y * 256 + z * 16 + w)%N, rest)
      | _, _, _, _ => None
      end
  | _ => None
  end.

(** The single-character escapes: quote, backslash, slash, b, f, n, r, t. *)
Definition simpleEscape (c : N) : option N :=
  if N.eqb c 34 then Some 34%N
  else if N.eqb c 92 then Some 92%N
  else if N.eqb c 47 then Some 47%N
  else if N.eqb c 98 then Some 8%N
  else if N.eqb c 102 then Some 12%N
  else if N.eqb c 110 then Some 10%N
  else if N.eqb c 114 then Some 13%N
  else if N.eqb c 116 then Some 9%N
  else None.

(** The characters of a string literal after its opening quote, up to and
    including the closing quote; control characters must be escaped. *)
Fixpoint parse_chars (skip : nat) (s : jsstring) : option (jsstring * jsstring) :=
  match s with
  | [] => None
  | x :: s' =>
      match skip with
      | S k => parse_chars k s'
      | O =>
          if N.eqb x 34 then Some ([], s')
          else if N.eqb x 92 then
            match s' with
            | e :: s'' =>
                if N.eqb e 117 then
                  match hex4 s'', parse_chars 5 s' with
                  | Some (u, _), Some (str, rest) => Some (u :: str, rest)
                  | _, _ => None
                  end
                else
                  match simpleEscape e, parse_chars 1 s' with
                  | Some u, Some (str, rest) => Some (u :: str, rest)
                  | _, _ => None
                  end
            | [] => None
            end
          else if N.ltb x 32 then None
          else
            match parse_chars 0 s' with
            | Some (str, rest) => Some (x :: str, rest)
            | None => None
            end
      end
  end.

Fixpoint span_digits (s : jsstring) : jsstring * jsstring :=
  match s with
  | x :: s' =>
      if isDigit x then let (d, r) := span_digits s' in (x :: d, r)
      else ([], s)
  | [] => ([], [])
  end.

(** A number literal: an optional minus sign, an integer part without a
    superfluous leading zero, an optional fraction, an optional exponent. *)
Definition parse_number (s : jsstring) : option (jsstring * jsstring) :=
  let (sign, s1) :=
    match s with
    | x :: s' => if N.eqb x 45 then ([x], s') else ([], s)
    | [] => ([], s)
    end in
  let (int, s2) := span_digits s1 in
  match int with
  | [] => None
  | d :: more =>
      if N.eqb d 48 && negb (str_eqb more []) then None
      else
        let frac :=
          match s2 with
          | x :: s' =>
              if N.eqb x 46 then
                let (f, r) := span_digits s' in
                match f with
                | [] => None
                | _ => Some (x :: f, r)
                end
              else Some ([], s2)
          | [] => Some ([], s2)
          end in
        match frac with
        | None => None
        | Some (f, s3) =>
            let exp :=
              match s3 with
              | x :: s' =>
                  if N.eqb x 101 || N.eqb x 69 then
                    let (sg, s'') :=
                      match s' with
                      | y :: t =>
                          if N.eqb y 43 || N.eqb y 45 then ([y], t)
                          else ([], s')
                      | [] => ([], s')
                      end in
                    let (e, r) := span_digits s'' in
                    match e with
                    | [] => None
                    | _ => Some (x :: sg ++ e, r)
                    end
                  else Some ([], s3)
              | [] => Some ([], s3)
              end in
            match exp with
            | None => None
            | Some (e, s4) => Some (sign ++ int ++ f ++ e, s4)
            end
        end
  end.

Definition expect (c : N) (s : jsstring) : option jsstring :=
  match s with
  | x :: s' => if N.eqb x c then Some s' else None
  | [] => None
  end.

Definition literal (word : jsstring) (v : JsonValue) (s : jsstring)
  : option (JsonValue * jsstring) :=
  if startsWith s word then Some (v, skipn (length word) s) else None.

(** A value, the elements of an array after its opening bracket, and the
    members of an object after its opening brace. *)
Fixpoint parse_value (fuel : nat) (s : jsstring)
  : option (JsonValue * jsstring) :=
  match fuel with
  | O => None
  | S f =>
      match skip_ws s with
      | [] => None
      | c :: rest =>
          if N.eqb c 34 then
            match parse_chars 0 rest with
            | Some (str, r) => Some (JString str, r)
            | None => None
            end
          else if N.eqb c 91 then
            match skip_ws rest with
            | x :: r =>
                if N.eqb x 93 then Some (JArray [], r)
                else
                  match parse_elements f rest with
                  | Some (l, r') => Some (JArray l, r')
                  | None => None
                  end
            | [] => None
            end
          else if N.eqb c 123 then
            match skip_ws rest with
            | x :: r =>
                if N.eqb x 125 then Some (JObject [], r)
                else
                  match parse_members f rest with
                  | Some (l, r') => Some (JObject l, r')
                  | None => None
                  end
            | [] => None
            end
          else if N.eqb c 110 then literal (js "null") JNull (c :: rest)
          else if N.eqb c 116 then literal (js "true") (JBool true) (c :: rest)
          else if N.eqb c 102 then literal (js "false") (JBool false) (c :: rest)
          else
            match parse_number (c :: rest) with
            | Some (lit, r) => Some (JNumber lit, r)
            | None => None
            end
      end
  end
with parse_elements (fuel : nat) (s : jsstring)
  : option (list JsonValue * jsstring) :=
  match fuel with
  | O => None
  | S f =>
      match parse_value f s with
      | Some (v, r) =>
          match skip_ws r with
          | x :: r' =>
              if N.eqb x 93 then Some ([v], r')
              else if N.eqb x 44 then
                match parse_elements f r' with
                | Some (l, r'') => Some (v :: l, r'')
                | None => None
                end
              else None
          | [] => None
          end
      | None => None
      end
  end
with parse_members (fuel : nat) (s : jsstring)
  : option (list (jsstring * JsonValue) * jsstring) :=
  match fuel with
  | O => None
  | S f =>
      match expect 34 (skip_ws s) with
      | Some s1 =>
          match parse_chars 0 s1 with
          | Some (key, s2) =>
              match expect 58 (skip_ws s2) with
              | Some s3 =>
                  match parse_value f s3 with
                  | Some (v, r) =>
                      match skip_ws r with
                      | x :: r' =>
                          if N.eqb x 125 then Some ([(key, v)], r')
                          else if N.eqb x 44 then
                            match parse_members f r' with
                            | Some (l, r'') => Some ((key, v) :: l, r'')
                            | None => None
                            end
                          else None
                      | [] => None
                      end
                  | None => None
                  end
              | None => None
              end
          | None => None
          end
      | None => None
      end
  end.

(** [JSON.parse(text)]: one value with white space around it, or a
    SyntaxError.  A level of fuel is spent on entering a value and after a
    consumed comma, so twice the length of the text is enough. *)
Definition JSON_parse (text : jsstring) : Completion JsonValue :=
  match parse_value (2 * length text + 4) text with
  | Some (v, rest) =>
      match skip_ws rest with
      | [] => Normal v
      | _ => Throw SyntaxError
      end
  | None => Throw SyntaxError
  end.

Section Coercion.

(** The decimal rendering JavaScript gives the double a number literal
    denotes ([Number::toString]); floating point is outside this model. *)
Variable NumberToString : jsstring -> jsstring.

Definition hasKey (key : jsstring) (members : list (jsstring * JsonValue))
  : bool :=
  existsb (fun m => str_eqb (fst m) key) members.

(** [ToString(v)] for a value [JSON.parse] returned.  An array is joined
    with commas, [null] elements giving the empty string.  An object gives
    ["[object Object]"], unless it has a member named [toString]: that own
    property is not callable, and the conversion throws a TypeError. *)
Fixpoint ToString (v : JsonValue) : Completion jsstring :=
  match v with
  | JNull => Normal (js "null")
  | JBool true => Normal (js "true")
  | JBool false => Normal (js "false")
  | JNumber lit => Normal (NumberToString lit)
  | JString s => Normal s
  | JArray l =>
      (fix elems (l : list JsonValue) : Completion jsstring :=
         match l with
         | [] => Normal []
         | e :: l' =>
             first <- match e with
                      | JNull => Normal []
                      | _ => ToString e
                      end ;;
             match l' with
             | [] => Normal first
             | _ => others <- elems l' ;; Normal (first ++ js "," ++ others)
             end
         end) l
  | JObject members =>
      if hasKey (js "toString") members then Throw TypeError
      else Normal (js "[object Object]")
  end.

(** [prev + v] for a string [prev]. *)
Definition string_plus (prev : jsstring) (v : JsonValue)
  : Completion jsstring :=
  s <- ToString v ;; Normal (prev ++ s).

End Coercion.

End Json.
Import Json.

(** ** types.ts *)

Inductive Role : Type := user | assistant.

(** [created_at] holds the instant [new Date()] read, in milliseconds; the
    source stores its ISO rendering. *)
Record Message : Type := mkMessage {
  id : Z;
  chat_id : Z;
  role : Role;
  content : jsstring;
  created_at : Z
}.

Record MessageFormData : Type := mkMessageFormData {
  form_role : Role;
  form_content : jsstring
}.

Record MessageEvent : Type := mkMessageEvent { data : jsstring }.

(** What [onChunk] is called with.  types.ts declares the callback on a
    [MessageEvent], and the handler of Chat.tsx reads [event.data]; the
    reader of api.ts calls it with the payload itself, a string. *)
Inductive ChunkArgument : Type :=
| Text (payload : jsstring)
| Event (event : MessageEvent).

(** The callbacks act on the state [S] of whoever passed them. *)
Record StreamingOptions (S : Type) : Type := mkStreamingOptions {
  streaming : bool;
  onChunk : option (ChunkArgument -> S -> S);
  onComplete : option (S -> S);
  onError : option (JsError -> S -> S)
}.

(** ** services/api.ts: [sendMessage] *)

Module Api.

(** What the reader of a response body delivers: the decoded text of the
    successive reads, then either the end of the input or a failed read. *)
Inductive Ending : Type := EndOfInput | ReadFailure (e : JsError).

Record Body : Type := mkBody { chunks : list jsstring; ending : Ending }.

Record Response : Type := mkResponse {
  status : Z;
  body : option Body
}.

(** [response.ok]: the status is in the range 200 to 299. *)
Definition ok (response : Response) : bool :=
  (200 <=? status response)%Z && (status response <=? 299)%Z.

(** The server behind [axios] and [fetch]. *)
Record Server : Type := mkServer {
  post : Z -> MessageFormData -> Completion Message;
  fetch : Z -> MessageFormData -> Completion Response
}.

Definition decimal (n : Z) : jsstring :=
  js (NilZero.string_of_int (Z.to_int n)).

Section Reader.

Variable S : Type.
Variable options : StreamingOptions S.

(** One line of a chunk:
<<
  if (line.startsWith('data: ')) {
    const data = line.substring(6);
    if (options?.onChunk && data) { options.onChunk(data); }
  }
>>
    The callback is given the string [data] itself. *)
Definition deliver_line (s : S) (line : jsstring) : S :=
  if startsWith line (js "data: ") then
    let payload := substring 6 line in
    match onChunk options, payload with
    | Some callback, _ :: _ => callback (Text payload) s
    | _, _ => s
    end
  else s.

(** [for (const line of chunk.split('\n\n')) ...] *)
Definition process_chunk (s : S) (chunk : jsstring) : S :=
  fold_left deliver_line (split chunk [newline; newline]) s.

Definition call_onError (e : JsError) (s : S) : S :=
  match onError options with
  | Some callback => callback e s
  | None => s
  end.

Definition call_onComplete (s : S) : S :=
  match onComplete options with
  | Some callback => callback s
  | None => s
  end.

(** The [while (true)] loop of [readStream] inside its [try]; a failed read
    leaves the loop through the [catch] clause. *)
Fixpoint read_loop (chunks : list jsstring) (ending : Ending) (s : S) : S :=
  match chunks with
  | chunk :: more => read_loop more ending (process_chunk s chunk)
  | [] =>
      match ending with
      | EndOfInput => s
      | ReadFailure e => call_onError e s
      end
  end.

(** [readStream]: [try { loop } catch { onError } finally { onComplete }].
    The callbacks are taken not to throw, as those of the chat page do not. *)
Definition readStream (b : Body) (s : S) : S :=
  call_onComplete (read_loop (chunks b) (ending b) s).

(** What one resumption of the suspended [readStream] does: it continues
    after [await reader.read()] with the next read, and runs to the next
    [await], or to its end. *)
Definition resume (b : Body) (s : S) : option Body * S :=
  match chunks b with
  | chunk :: more => (Some (mkBody more (ending b)), process_chunk s chunk)
  | [] => (None, readStream b s)
  end.

End Reader.

(** A [readStream] call suspended at [await reader.read()]. *)
Record ReaderTask (S : Type) : Type := mkReaderTask {
  task_options : StreamingOptions S;
  task_body : Body
}.

Definition placeholderMessage (now chatId : Z) : Message :=
  mkMessage (-1) chatId assistant [] now.

(** [sendMessage(chatId, message, options)], with the value its promise
    settles to and the [readStream] call it leaves running in the background,
    if any.  [readStream()] is called without [await]: it runs up to its first
    [await reader.read()] and is suspended there, nothing read, when
    [sendMessage] returns. *)
Definition sendMessage (S : Type) (server : Server) (now : Z) (chatId : Z)
    (message : MessageFormData) (options : option (StreamingOptions S))
  : Completion Message * option (ReaderTask S) :=
  match options with
  | Some o =>
      if negb (streaming o) then (post server chatId message, None)
      else
        match fetch server chatId message with
        | Normal response =>
            if negb (ok response) then
              (Throw (Error (js "Server error: " ++ decimal (status response))),
               None)
            else
              match body response with
              | None => (Throw (Error (js "No response body received")), None)
              | Some b =>
                  (Normal (placeholderMessage now chatId),
                   Some (mkReaderTask o b))
              end
        | Throw e => (Throw e, None)
        | OutOfFuel => (OutOfFuel, None)
        end
  | None => (post server chatId message, None)
  end.

(** The page between two events: the suspended readers, each with the chat it
    was started for, oldest first. *)
Definition InFlight (S : Type) : Type := list (Z * ReaderTask S).

(** A call of [sendMessage] on a page that has readers in flight. *)
Definition call_sendMessage (S : Type) (server : Server) (now chatId : Z)
    (message : MessageFormData) (options : option (StreamingOptions S))
    (inflight : InFlight S) : Completion Message * InFlight S :=
  match sendMessage server now chatId message options with
  | (result, Some task) => (result, inflight ++ [(chatId, task)])
  | (result, None) => (result, inflight)
  end.

Definition activeFor (S : Type) (chatId : Z) (inflight : InFlight S) : nat :=
  length (filter (fun t => Z.eqb (fst t) chatId) inflight).

End Api.
Import Api.

(** ** components/Chat.tsx: the state of the component and its handlers *)

Module ChatComponent.

(** The effects a handler requests besides its state updates:
    [refetchMessages()], [cancelStreamingResponse()], and the pair
    [setInterval(refetchMessages, period)],
    [setTimeout(clearInterval, stopAfter)]. *)
Inductive Effect : Type :=
| RefetchMessages
| CancelStreamingResponse
| RefetchEvery (period stopAfter : Z).

Record ChatState : Type := mkChatState {
  isTyping : bool;
  streamingEnabled : bool;
  streamingMessage : jsstring;
  localMessages : list Message;
  effects : list Effect
}.

Definition setIsTyping (b : bool) (st : ChatState) : ChatState :=
  mkChatState b (streamingEnabled st) (streamingMessage st)
    (localMessages st) (effects st).

Definition setStreamingMessage (m : jsstring) (st : ChatState) : ChatState :=
  mkChatState (isTyping st) (streamingEnabled st) m
    (localMessages st) (effects st).

Definition setLocalMessages (l : list Message) (st : ChatState) : ChatState :=
  mkChatState (isTyping st) (streamingEnabled st) (streamingMessage st)
    l (effects st).

(** An effect requested by a handler is recorded, in order. *)
Definition request (e : Effect) (st : ChatState) : ChatState :=
  mkChatState (isTyping st) (streamingEnabled st) (streamingMessage st)
    (localMessages st) (effects st ++ [e]).

(** [refetchMessages()], of the messages query. *)
Definition refetchMessages (st : ChatState) : ChatState :=
  request RefetchMessages st.

(** Modelled from the spec: [cancelStreamingResponse] is imported from
    [services/api] but is not in the [api.ts] at hand.  By the specification,
    cancelling aborts the transport connection and does not erase the
    fragments already delivered: the call is recorded as an effect and leaves
    the state of the component alone. *)
Definition cancelStreamingResponse (st : ChatState) : ChatState :=
  request CancelStreamingResponse st.

(** The body of the effect on [messages]:
<<
  if (messages && messages.length > 0) { setLocalMessages(messages) }
>>
    When the effect runs is said by [refetchSettled] below. *)
Definition syncLocalMessages (messages : list Message) (st : ChatState)
  : ChatState :=
  if (0 <? Z.of_nat (length messages))%Z then setLocalMessages messages st
  else st.

(** Equality of two lists of messages, member by member, as the query
    compares a result with the data it holds. *)
Definition role_eqb (a b : Role) : bool :=
  match a, b with
  | user, user | assistant, assistant => true
  | _, _ => false
  end.

Definition message_eqb (a b : Message) : bool :=
  Z.eqb (id a) (id b) && Z.eqb (chat_id a) (chat_id b)
  && role_eqb (role a) (role b) && str_eqb (content a) (content b)
  && Z.eqb (created_at a) (created_at b).

Fixpoint messages_eqb (a b : list Message) : bool :=
  match a, b with
  | [], [] => true
  | x :: a', y :: b' => message_eqb x y && messages_eqb a' b'
  | _, _ => false
  end.

(** A refetch of the messages query settles with [result]; [held] is the
    [data] the query held before, undefined before its first result.  The
    effect above has [messages] as its dependency and runs when [messages]
    is another array than at the last render.  With the structural sharing
    [useQuery] has by default, a result equal to the data held leaves [data]
    the array it was, and the effect does not run; any other result becomes
    the [data], and the effect runs on it.  The pair is the data the query
    holds afterwards and the state of the component. *)
Definition refetchSettled (result : list Message)
    (held : option (list Message)) (st : ChatState)
  : option (list Message) * ChatState :=
  match held with
  | Some previous =>
      if messages_eqb previous result then (held, st)
      else (Some result, syncLocalMessages result st)
  | None => (Some result, syncLocalMessages result st)
  end.

(** [finalMessage && finalMessage.trim() !== ''] *)
Definition hasText (finalMessage : jsstring) : bool :=
  negb (str_eqb finalMessage []) && negb (str_eqb (trim finalMessage) []).

(** [setLocalMessages(prev => [...prev, aiMessage])] for the assistant
    message made from [finalMessage]. *)
Definition addAssistantMessage (newId now chatId : Z) (finalMessage : jsstring)
    (st : ChatState) : ChatState :=
  if hasText finalMessage then
    setLocalMessages
      (localMessages st ++
       [mkMessage newId chatId assistant (sanitizeMarkdown finalMessage) now])
      st
  else st.

(** [handleStopStreaming]; [dateNow] is what [Date.now()] reads, [now] what
    [new Date()] reads, and [chatId] the chat of the page.  The handler is
    made anew at each render, so the [streamingMessage] it reads is the
    current draft. *)
Definition handleStopStreaming (dateNow now chatId : Z) (st : ChatState)
  : ChatState :=
  let finalMessage := streamingMessage st in
  let st1 := cancelStreamingResponse st in
  let st2 := setIsTyping false st1 in
  let st3 := addAssistantMessage dateNow now chatId finalMessage st2 in
  request (RefetchEvery 1000 5000) st3.

(** What the page shows below the messages while the assistant answers:
<<
  {isTyping && ( ... {streamingEnabled && streamingMessage
                       ? sanitizeMarkdown(streamingMessage) : dots} ... )}
>> *)
Inductive Bubble : Type :=
| DraftBubble (text : jsstring)
| TypingDots.

Definition provisionalEntries (st : ChatState) : list Bubble :=
  if isTyping st then
    [if streamingEnabled st && negb (str_eqb (streamingMessage st) [])
     then DraftBubble (sanitizeMarkdown (streamingMessage st))
     else TypingDots]
  else [].

Section Callbacks.

Variable NumberToString : jsstring -> jsstring.

(** [event.data] for what the handler is given: a string has no such
    property, and the value read is undefined. *)
Definition eventData (argument : ChunkArgument) : option jsstring :=
  match argument with
  | Event event => Some (data event)
  | Text _ => None
  end.

(** The string [JSON.parse] and [+] make of a [data] that may be
    undefined. *)
Definition dataText (data : option jsstring) : jsstring :=
  match data with
  | Some payload => payload
  | None => js "undefined"
  end.

(** [streamingOptions.onChunk].  [Throw] is the case where the queued update
    [prev => prev + parsedData] throws when React applies it. *)
Definition handleChunk (argument : ChunkArgument) (st : ChatState)
  : Completion ChatState :=
  let data := eventData argument in
  if match data with
     | Some payload => str_eqb payload (js "[DONE]")
     | None => false
     end
  then Normal (refetchMessages (setIsTyping false st))
  else
    match JSON_parse (dataText data) with
    | Normal parsedData =>
        draft <- string_plus NumberToString (streamingMessage st) parsedData ;;
        Normal (setStreamingMessage draft st)
    | Throw _ =>
        Normal (setStreamingMessage (streamingMessage st ++ dataText data) st)
    | OutOfFuel => OutOfFuel
    end.

(** [streamingOptions.onComplete].  [finalMessage] is the [streamingMessage]
    of the render in which the send started: the callback closes over it.
    [dateNow] is what [Date.now()] reads and [now] what [new Date()] reads. *)
Definition handleComplete (finalMessage : jsstring) (dateNow now chatId : Z)
    (st : ChatState) : ChatState :=
  let st1 := addAssistantMessage (dateNow + 1) now chatId finalMessage st in
  refetchMessages (setIsTyping false st1).

(** [streamingOptions.onError] *)
Definition handleError (e : JsError) (st : ChatState) : ChatState :=
  refetchMessages (setIsTyping false st).

(** The callbacks as the reader runs them; once an update has thrown, the
    component is gone and later calls change nothing. *)
Definition streamingOptions (finalMessage : jsstring)
    (dateNow now chatId : Z) : StreamingOptions (Completion ChatState) :=
  mkStreamingOptions true
    (Some (fun argument c => st <- c ;; handleChunk argument st))
    (Some (fun c => st <- c ;;
                    Normal (handleComplete finalMessage dateNow now chatId st)))
    (Some (fun e c => st <- c ;; Normal (handleError e st))).

End Callbacks.

End ChatComponent.
Import ChatComponent.

(** ** utils/errorHandler.ts *)

Module ErrorHandler.

(** [error.response] of an axios error; [axios_data] is the body as axios
    hands it over, the parsed JSON when the body parses and the text itself
    otherwise, [None] when there is none. *)
Record AxiosResponse : Type := mkAxiosResponse {
  axios_data : option JsonValue;
  axios_status : Z;
  axios_statusText : jsstring
}.

(** What a [catch] clause or a rejected promise hands to the handlers: an
    axios error (for which [axios.isAxiosError] holds; it is an [Error] too),
    another [Error], or any other value. *)
Inductive Caught : Type :=
| AxiosError (message : jsstring) (response : option AxiosResponse)
             (request : bool)
| ErrorObject (message : jsstring)
| OtherValue.

(** [data.key] on an object [JSON.parse] built: of two members of the same
    name the later one is the property. *)
Fixpoint getProperty (key : jsstring) (members : list (jsstring * JsonValue))
  : option JsonValue :=
  match members with
  | [] => None
  | (k, v) :: rest =>
      match getProperty key rest with
      | Some v' => Some v'
      | None => if str_eqb k key then Some v else None
      end
  end.

(** [v.key] for the keys the handlers read ([message], [code],
    [request_id]): undefined on anything but an object. *)
Definition property (key : jsstring) (v : JsonValue) : option JsonValue :=
  match v with
  | JObject members => getProperty key members
  | _ => None
  end.

(** [key in v]: a TypeError when [v] is not an object. *)
Definition in_operator (key : jsstring) (v : JsonValue) : Completion bool :=
  match v with
  | JObject members => Normal (hasKey key members)
  | JArray _ => Normal false
  | _ => Throw TypeError
  end.

Section Messages.

Variable NumberToString : jsstring -> jsstring.

(** Whether the double a number literal denotes is zero. *)
Variable NumberIsZero : jsstring -> bool.

Definition truthy (v : JsonValue) : bool :=
  match v with
  | JNull => false
  | JBool b => b
  | JNumber lit => negb (NumberIsZero lit)
  | JString s => negb (str_eqb s [])
  | JArray _ | JObject _ => true
  end.

(** [`${x}`] for a property that may be undefined. *)
Definition template (x : option JsonValue) : Completion jsstring :=
  match x with
  | Some v => ToString NumberToString v
  | None => Normal (js "undefined")
  end.

(** [axiosError.response?.data && 'error' in axiosError.response.data]:
    the data when the test holds. *)
Definition apiErrorData (response : option AxiosResponse)
  : Completion (option JsonValue) :=
  match response with
  | Some r =>
      match axios_data r with
      | Some d =>
          if truthy d then
            has <- in_operator (js "error") d ;;
            Normal (if has then Some d else None)
          else Normal None
      | None => Normal None
      end
  | None => Normal None
  end.

Definition getErrorMessage (error : Caught) : Completion jsstring :=
  match error with
  | AxiosError message response request =>
      structured <- apiErrorData response ;;
      match structured with
      | Some errorData =>
          requestIdInfo <-
            match property (js "request_id") errorData with
            | Some rid =>
                if truthy rid then
                  s <- ToString NumberToString rid ;;
                  Normal (js " (Request ID: " ++ s ++ js ")")
                else Normal []
            | None => Normal []
            end ;;
          text <- template (property (js "message") errorData) ;;
          Normal (text ++ requestIdInfo)
      | None =>
          match response with
          | Some r =>
              Normal (js "Request failed with status "
                        ++ decimal (axios_status r) ++ js ": "
                        ++ axios_statusText r)
          | None =>
              if request then
                Normal (js "Network error: Unable to connect to the server. Please check your internet connection.")
              else Normal message
          end
      end
  | ErrorObject message => Normal message
  | OtherValue => Normal (js "An unknown error occurred")
  end.

End Messages.

(** [axiosError.response?.data?.code === errorCode] *)
Definition isApiErrorCode (error : Caught) (errorCode : jsstring) : bool :=
  match error with
  | AxiosError _ (Some r) _ =>
      match axios_data r with
      | Some d =>
          match property (js "code") d with
          | Some (JString c) => str_eqb c errorCode
          | _ => false
          end
      | None => false
      end
  | _ => false
  end.

Definition isModelApiError (error : Caught) : bool :=
  isApiErrorCode error (js "MODEL_API_ERROR").

Definition isDatabaseError (error : Caught) : bool :=
  isApiErrorCode error (js "DATABASE_ERROR").

(** [axiosError.response?.data?.request_id] *)
Definition getRequestId (error : Caught) : option JsonValue :=
  match error with
  | AxiosError _ (Some r) _ =>
      match axios_data r with
      | Some d => property (js "request_id") d
      | None => None
      end
  | _ => None
  end.

(** What [sendMessage] throws with [new Error(text)], as the handlers see it.
    The other errors of this model carry no message and are left out. *)
Definition caught (e : JsError) : option Caught :=
  match e with
  | Error message => Some (ErrorObject message)
  | _ => None
  end.

End ErrorHandler.
Import ErrorHandler.

(** ** components/ChatHistory.tsx: [formatDistanceToNow] *)

Module ChatHistory.

(** The numbers of [formatDistanceToNow]: an integer, or NaN, the time of an
    invalid date.  NaN spreads through the arithmetic, and every comparison
    with it is false.  On integers the arithmetic here is exact, while the
    code computes in doubles: the two agree as long as the difference of the
    two times is below 2^53 in absolute value, where the subtraction is
    exact and [Math.floor(x / d)] is the floor of the quotient.  From 2^53
    on the subtraction of the code rounds; what is proved of a count of
    units carries the bound. *)
Definition Num : Type := option Z.

Definition num_sub (a b : Num) : Num :=
  match a, b with
  | Some x, Some y => Some (x - y)%Z
  | _, _ => None
  end.

(** [Math.floor(a / d)] *)
Definition num_floor_div (a : Num) (d : Z) : Num :=
  match a with
  | Some x => Some (x / d)%Z
  | None => None
  end.

Definition num_gt (a : Num) (k : Z) : bool :=
  match a with
  | Some x => (x >? k)%Z
  | None => false
  end.

Definition num_toString (a : Num) : jsstring :=
  match a with
  | Some x => decimal x
  | None => js "NaN"
  end.

Definition plural (n : Num) : jsstring := if num_gt n 1 then js "s" else [].

(** [now] is the time [new Date()] reads, [date] the time of the date
    given. *)
Definition formatDistanceToNow (now : Z) (date : Num) : jsstring :=
  let diffMs := num_sub (Some now) date in
  let diffSec := num_floor_div diffMs 1000 in
  let diffMin := num_floor_div diffSec 60 in
  let diffHour := num_floor_div diffMin 60 in
  let diffDay := num_floor_div diffHour 24 in
  if num_gt diffDay 0 then
    num_toString diffDay ++ js " day" ++ plural diffDay ++ js " ago"
  else if num_gt diffHour 0 then
    num_toString diffHour ++ js " hour" ++ plural diffHour ++ js " ago"
  else if num_gt diffMin 0 then
    num_toString diffMin ++ js " minute" ++ plural diffMin ++ js " ago"
  else js "just now".

(** [formatDate]:
<<
  try { const date = new Date(dateString); return formatDistanceToNow(date) }
  catch (e) { return 'Unknown date' }
>>
    [parseDate] is the time [new Date(dateString)] has: the constructor does
    not throw on a text that is no date, it gives an invalid date. *)
Definition formatDate (parseDate : jsstring -> Num) (now : Z)
    (dateString : jsstring) : Completion jsstring :=
  try_catch (Normal (formatDistanceToNow now (parseDate dateString)))
    (js "Unknown date").

End ChatHistory.
Import ChatHistory.

(** ** components/MessageInput.tsx and the sending side of Chat.tsx *)

Module ChatPage.

(** [handleKeyDown] of the message input: whether it calls [onSubmit].
<<
  if ((e.ctrlKey || e.metaKey) && e.key === 'Enter') {
    e.preventDefault()
    if (!disabled && value.trim()) { onSubmit(e) }
  }
>> *)
Definition handleKeyDown (ctrlKey metaKey : bool) (key : jsstring)
    (disabled : bool) (value : jsstring) : bool :=
  (ctrlKey || metaKey) && str_eqb key (js "Enter")
  && negb disabled && negb (str_eqb (trim value) []).

(** The page: the component state of the streaming side, the text of the
    input, the Markdown switch, and the number of calls of
    [queryClient.invalidateQueries] for the messages. *)
Record Page : Type := mkPage {
  component : ChatState;
  input : jsstring;
  markdownEnabled : bool;
  invalidated : nat
}.

(** The clock, at the places where a send reads it: [Date.now()] and
    [new Date()] for the optimistic user message, [new Date()] for the
    placeholder of [sendMessage], and [Date.now()] and [new Date()] when
    [onComplete] runs. *)
Record Clock : Type := mkClock {
  userDateNow : Z;
  userNow : Z;
  sendNow : Z;
  completeDateNow : Z;
  completeNow : Z
}.

Section Sending.

Variable NumberToString : jsstring -> jsstring.

(** [String.prototype.toLowerCase]; its Unicode tables are outside this
    model. *)
Variable toLowerCase : jsstring -> jsstring.

Variable server : Server.

(** [profile.url], [profile.model_name], and [Number(chatId)]. *)
Variables (profile_url profile_model_name : jsstring) (chatId : Z).

Definition isOllamaApi : bool :=
  includes (toLowerCase profile_url) (js "ollama")
  || endsWith profile_url (js "/api/generate").

(** [mutationFn]: the optimistic user message, then [sendMessage], streaming
    or not.  The callbacks close over the [streamingMessage] of the render in
    which the send starts. *)
Definition mutationFn (clock : Clock) (message : MessageFormData)
    (st : ChatState)
  : (Completion Message * option (ReaderTask (Completion ChatState)))
    * ChatState :=
  let userMessage :=
    mkMessage (userDateNow clock) chatId user (form_content message)
      (userNow clock) in
  let st1 := setLocalMessages (localMessages st ++ [userMessage]) st in
  if streamingEnabled st && isOllamaApi then
    let st2 := setStreamingMessage [] st1 in
    (sendMessage server (sendNow clock) chatId message
       (Some (streamingOptions NumberToString (streamingMessage st)
                (completeDateNow clock) (completeNow clock) chatId)),
     st2)
  else
    (sendMessage server (sendNow clock) chatId message None, st1).

(** [sendMessageMutation.mutate(message)]: [onMutate], [mutationFn], then
    [onSuccess] or [onError].  The page comes with the reader left in the
    background, if any. *)
Definition mutate (clock : Clock) (message : MessageFormData) (p : Page)
  : Page * option (ReaderTask (Completion ChatState)) :=
  let st0 := setIsTyping true (component p) in
  let '((result, task), st1) := mutationFn clock message st0 in
  match result with
  | Normal _ =>
      if streamingEnabled st1 then
        (mkPage st1 [] (markdownEnabled p) (invalidated p), task)
      else
        (mkPage (setIsTyping false st1) [] (markdownEnabled p)
           (S (invalidated p)), task)
  | Throw _ =>
      (mkPage (setIsTyping false st1) (input p) (markdownEnabled p)
         (invalidated p), task)
  | OutOfFuel => (p, None)
  end.

Definition codeHint : jsstring :=
  [newline; newline]
    ++ js "Please format your response using Markdown with proper code blocks including language identifiers for syntax highlighting.".

Definition llamaHint : jsstring :=
  [newline; newline]
    ++ js "Please format your response using Markdown with proper headings, lists, and code blocks with syntax highlighting where appropriate.".

Definition plainHint : jsstring :=
  [newline; newline] ++ js "Please use Markdown formatting in your response.".

(** The hint [handleSendMessage] adds for the model of the profile. *)
Definition hint : jsstring :=
  let model := toLowerCase profile_model_name in
  let isGemma := includes model (js "gemma") in
  let isLlama := includes model (js "llama") in
  let isCodeModel :=
    includes model (js "code") || includes model (js "starcoder") in
  if isCodeModel then codeHint
  else if isGemma || isLlama then llamaHint
  else plainHint.

(** [messageContent] at the end of [handleSendMessage], for an input that is
    not blank. *)
Definition messageContent (markdown : bool) (text : jsstring) : jsstring :=
  let trimmed := trim text in
  if markdown
     && negb (includes (toLowerCase trimmed) (js "markdown"))
     && negb (includes (toLowerCase trimmed) (js "format"))
  then trimmed ++ hint
  else trimmed.

(** [handleSendMessage] *)
Definition handleSendMessage (clock : Clock) (p : Page)
  : Page * option (ReaderTask (Completion ChatState)) :=
  if str_eqb (trim (input p)) [] then (p, None)
  else
    mutate clock
      (mkMessageFormData user (messageContent (markdownEnabled p) (input p)))
      p.

(** A key pressed in the message input, which the page gives
    [disabled = isTyping || sendMessageMutation.isPending]. *)
Definition keyDown (ctrlKey metaKey : bool) (key : jsstring)
    (isPending : bool) (clock : Clock) (p : Page)
  : Page * option (ReaderTask (Completion ChatState)) :=
  if handleKeyDown ctrlKey metaKey key
       (isTyping (component p) || isPending) (input p)
  then handleSendMessage clock p
  else (p, None).

End Sending.

(** The page with its history panel. *)
Record View : Type := mkView {
  page : Page;
  showChatHistory : bool
}.

Definition setStreamingEnabled (b : bool) (st : ChatState) : ChatState :=
  mkChatState (isTyping st) b (streamingMessage st) (localMessages st)
    (effects st).

(** The shortcuts of the window; [isTypingInInput] says whether the focus is
    in an input or a text area.
<<
  if (isTypingInInput) return;
  switch (e.key) {
    case 'h': setShowChatHistory(prev => !prev); break;
    case 's': setStreamingEnabled(prev => !prev); break;
    case 'm': setMarkdownEnabled(prev => !prev); break;
    case 'r': refetchMessages(); break;
    case 'Escape': if (showChatHistory) { setShowChatHistory(false); } break;
  }
>> *)
Definition handleShortcut (isTypingInInput : bool) (key : jsstring) (v : View)
  : View :=
  let p := page v in
  if isTypingInInput then v
  else if str_eqb key (js "h") then mkView p (negb (showChatHistory v))
  else if str_eqb key (js "s") then
    mkView
      (mkPage
         (setStreamingEnabled (negb (streamingEnabled (component p)))
            (component p))
         (input p) (markdownEnabled p) (invalidated p))
      (showChatHistory v)
  else if str_eqb key (js "m") then
    mkView
      (mkPage (component p) (input p) (negb (markdownEnabled p))
         (invalidated p))
      (showChatHistory v)
  else if str_eqb key (js "r") then
    mkView
      (mkPage (refetchMessages (component p)) (input p) (markdownEnabled p)
         (invalidated p))
      (showChatHistory v)
  else if str_eqb key (js "Escape") then
    if showChatHistory v then mkView p false else v
  else v.

End ChatPage.
Import ChatPage.

(** * Notions used to state the properties *)

Unset Implicit Arguments.

(** ** The table pass *)

(** The divider [make_divider] builds for a header line. *)
Definition dividerFor (header : jsstring) : jsstring :=
  pipe :: repeat_str (js " --- |")
            (Z.to_nat (if (headerCells header >? 0)%Z
                       then headerCells header else 1%Z)).

Definition clean (line : jsstring) : Prop := ~ In backtick line.

(** What the loop maintains, for a number [n] of leading lines that are
    behind the loop index: the index of a table's header is an index of the
    array, and a table in progress starts at or after line [n]. *)
Record loop_inv (n : nat) (st : TableState) : Prop := mkLoopInv {
  inv_header :
    hasHeader st = true ->
    (0 <= tableStartIndex st < Z.of_nat (length (lines st)))%Z;
  inv_start : inTable st = true -> (Z.of_nat n <= tableStartIndex st)%Z;
  inv_prefix : n <= length (lines st)
}.

Definition initialTableState (lines0 : list jsstring) : TableState :=
  mkTableState lines0 false (-1) false false.

(** The lines the table pass leaves, as [repairTables] computes them before
    joining. *)
Definition finish_tables (st : TableState) : Completion (list jsstring) :=
  if inTable st && hasHeader st && negb (hasDivider st) then
    divider <- make_divider st ;;
    Normal (splice_insert (lines st) (tableStartIndex st + 1) divider)
  else Normal (lines st).

(** A row the loop takes for a divider: a table row made of dashes and pipes
    only. *)
Definition dividerLike (line : jsstring) : bool :=
  isPipeLine line && str_eqb (only_dash_pipe line) line.

(** The number of pipes of a line. *)
Definition pipes (line : jsstring) : nat := count_occ N.eq_dec line pipe.

(** The table pass in the words of the specification.  A line that,
    trimmed, starts and ends with a pipe and stands outside a table is a
    header: a table starts there and runs to the next blank line, or to the
    end of the text.
    A header whose next line is no separator row, a row of dashes and pipes
    only, gets the separator made for it right after it, and nothing else is
    changed.  [inTable] says whether the lines stand inside a table. *)
Fixpoint repairFrom (inTable : bool) (ls : list jsstring) : list jsstring :=
  match ls with
  | [] => []
  | l :: rest =>
      if inTable then l :: repairFrom (negb (str_eqb (trim l) [])) rest
      else if isPipeLine (trim l) then
        l :: (if dividerLike (trim (hd [] rest)) then []
              else [dividerFor l])
          ++ repairFrom true rest
      else l :: repairFrom false rest
  end.

(** Whether a table is open after the lines [ls]. *)
Fixpoint tableOpenAfter (inTable : bool) (ls : list jsstring) : bool :=
  match ls with
  | [] => inTable
  | l :: rest =>
      tableOpenAfter
        (if inTable then negb (str_eqb (trim l) []) else isPipeLine (trim l))
        rest
  end.

(** ** What [codeBlockRegex] matches *)

Fixpoint span_line (s : jsstring) : jsstring * jsstring :=
  match s with
  | [] => ([], [])
  | x :: s' =>
      if N.eqb x newline then ([], s)
      else let (l, r) := span_line s' in (x :: l, r)
  end.

Record FenceMatch : Type := mkFenceMatch {
  lang : jsstring;
  code : option jsstring;
  fence_end : option jsstring
}.

(** The groups of the match at a position where [after] follows three
    backticks: [lang] is the rest of the line; [code] is the line break
    alone, the lazy star taking nothing since what follows it, the optional
    group 3, matches anywhere; [end] is a fence only when one stands right
    after that line break. *)
Definition match_after_fence (after : jsstring) : FenceMatch :=
  let (l, rest) := span_line after in
  match rest with
  | x :: rest' =>
      mkFenceMatch l (Some [x])
        (if startsWith rest' fence then Some fence else None)
  | [] => mkFenceMatch l None None
  end.

Definition matched_text (m : FenceMatch) : jsstring :=
  fence ++ lang m ++ or_empty (code m) ++ or_empty (fence_end m).

Definition capture (n : nat) (o : option jsstring) : Captures :=
  match o with Some s => [(n, s)] | None => [] end.

Definition captures_of (m : FenceMatch) : Captures :=
  capture 3 (fence_end m) ++ capture 2 (code m) ++ [(1, lang m)].

(** ** The signals of the reader *)

(** The payloads the reader passes to [onChunk] for one chunk: those of the
    lines that start with ["data: "], the empty ones left out. *)
Definition payloadOfLine (line : jsstring) : list jsstring :=
  if startsWith line (js "data: ") then
    match substring 6 line with
    | [] => []
    | payload => [payload]
    end
  else [].

Definition payloadsOfChunk (chunk : jsstring) : list jsstring :=
  flat_map payloadOfLine (split chunk [newline; newline]).

Definition payloads (chunks : list jsstring) : list jsstring :=
  flat_map payloadsOfChunk chunks.

(** The call of [onChunk] for a payload. *)
Definition deliver (S : Type) (callback : ChunkArgument -> S -> S) (s : S)
    (payload : jsstring) : S :=
  callback (Text payload) s.

(** The callbacks seen from outside: the signals of a stream, in the order
    the reader gives them. *)
Inductive Signal : Type :=
| Chunk (payload : jsstring)
| Failed (e : JsError)
| Completed.

Definition recordChunk (argument : ChunkArgument) (log : list Signal)
  : list Signal :=
  log ++ [Chunk match argument with
                | Text payload => payload
                | Event event => data event
                end].

Definition recorder : StreamingOptions (list Signal) :=
  mkStreamingOptions true
    (Some recordChunk)
    (Some (fun log => log ++ [Completed]))
    (Some (fun e log => log ++ [Failed e])).

Definition signals (b : Body) : list Signal := readStream recorder b [].

(** ** Fragments *)

Definition sentinel : jsstring := js "[DONE]".

Section Fragments.

Variable NumberToString : jsstring -> jsstring.

Definition chunkCallback (argument : ChunkArgument)
    (c : Completion ChatState) : Completion ChatState :=
  st <- c ;; handleChunk NumberToString argument st.

(** The handler given, one after the other, events whose data are the
    payloads [ps]; once an update has thrown, later events change nothing. *)
Definition handleEvents (ps : list jsstring) (st : ChatState)
  : Completion ChatState :=
  fold_left
    (fun c p => st' <- c ;; handleChunk NumberToString (Event (mkMessageEvent p)) st')
    ps (Normal st).

End Fragments.

(** ** What a handler does to the draft *)

(** The outcome [r] of a handler on [st]: it returns, the draft has [text]
    added at its end, and the rest of the state is as it was. *)
Definition appends (text : jsstring) (st : ChatState)
    (r : Completion ChatState) : Prop :=
  exists st',
    r = Normal st'
    /\ streamingMessage st' = streamingMessage st ++ text
    /\ isTyping st' = isTyping st
    /\ streamingEnabled st' = streamingEnabled st
    /\ localMessages st' = localMessages st
    /\ effects st' = effects st.

(** The text the draft gains when the handler is given the payloads [ps] as
    strings: [undefined], once for each. *)
Definition undefinedFor (ps : list jsstring) : jsstring :=
  concat (map (fun _ : jsstring => js "undefined") ps).

(** ** Examples *)

(** The header of the specification's example, and two texts that have it
    followed by a blank line: one with a rule of three dashes further down,
    one without dashes. *)
Definition headerAB : jsstring := js "| A | B |".
Definition dividerAB : jsstring := js "| --- | --- |".
Definition tableWithRule : jsstring :=
  headerAB ++ [newline; newline] ++ js "---".
Definition tableWithoutDashes : jsstring :=
  headerAB ++ [newline; newline] ++ js "Next paragraph".

(** A complete table: header, divider row, blank line. *)
Definition completeTable : jsstring :=
  headerAB ++ [newline] ++ dividerAB ++ [newline; newline].

(** A server that answers every streaming request with the same body, and a
    request. *)
Definition helloBody : Body :=
  mkBody [js "data: Hel" ++ [newline; newline];
          js "data: lo wor" ++ [newline; newline] ++ js "data: ld"
             ++ [newline; newline]]
         EndOfInput.

Definition streamingServer : Server :=
  mkServer (fun _ _ => Throw NetworkError)
           (fun _ _ => Normal (mkResponse 200 (Some helloBody))).

Definition hello : MessageFormData := mkMessageFormData user (js "Hi").

Definition persisted1 : Message := mkMessage 1 7 user (js "Hi") 10.
Definition optimistic2 : Message := mkMessage 5000 7 user (js "More") 5000.
Definition local3 : Message := mkMessage 6001 7 assistant (js "Sure") 6000.

Definition quoted (s : jsstring) : jsstring := [34%N] ++ s ++ [34%N].

(** The second message of the chat as the server has stored it, while the
    answer to it is not stored yet. *)
Definition persisted2 : Message := mkMessage 2 7 user (js "More") 5000.

(** A JSON object with one member, named [toString]. *)
Definition toStringObject : jsstring :=
  js "{" ++ quoted (js "toString") ++ js ": 1}".

Definition typing : ChatState := mkChatState true true [] [] [].

(** The state of the page after the fragments ["Hel"], ["lo wor"] and ["ld"]
    have been delivered to the chunk handler. *)
Definition afterHelloWorld : Completion ChatState :=
  st1 <- handleChunk (fun lit => lit) (Event (mkMessageEvent (js "Hel")))
           typing ;;
  st2 <- handleChunk (fun lit => lit) (Event (mkMessageEvent (js "lo wor")))
           st1 ;;
  handleChunk (fun lit => lit) (Event (mkMessageEvent (quoted (js "ld")))) st2.

Definition helloWorldDraft : ChatState :=
  mkChatState true true (js "Hello world") [] [].

Definition helloDoneBody : Body :=
  mkBody [js "data: " ++ quoted (js "Hel") ++ [newline; newline]
             ++ js "data: lo wor" ++ [newline; newline];
          js "data: " ++ quoted (js "ld") ++ [newline; newline]
             ++ js "data: [DONE]" ++ [newline; newline]]
         EndOfInput.

(** ** Sending *)

(** The entry [mutationFn] shows at once for what the user sent. *)
Definition optimisticMessage (clock : Clock) (chatId : Z) (text : jsstring)
  : Message :=
  mkMessage (userDateNow clock) chatId user text (userNow clock).

(** The entry [onComplete] adds, made from the draft it closed over. *)
Definition completionEntry (dateNow now chatId : Z) (draft : jsstring)
  : list Message :=
  if hasText draft then
    [mkMessage (dateNow + 1) chatId assistant (sanitizeMarkdown draft) now]
  else [].

(** [toLowerCase] on texts of ASCII code units. *)
Definition lowerAscii (s : jsstring) : jsstring :=
  map (fun c => if (N.leb 65 c && N.leb c 90)%bool then (c + 32)%N else c) s.

(** A profile of a local Ollama server, a clock, and pages with a draft left
    from an earlier answer and a text in the input. *)
Definition ollamaUrl : jsstring := js "http://localhost:11434/api/generate".

Definition clock0 : Clock := mkClock 5000 5001 5002 9000 9001.

Definition pageWith (typingNow : bool) (draft text : jsstring) : Page :=
  mkPage (mkChatState typingNow true draft [persisted1] []) text true 0.

(** A server that rejects every request, and one that answers a plain send. *)
Definition failingServer : Server :=
  mkServer (fun _ _ => Throw NetworkError) (fun _ _ => Throw NetworkError).

Definition plainServer : Server :=
  mkServer (fun _ _ => Normal local3) (fun _ _ => Throw NetworkError).

(** A code unit that stands for itself in a JSON string literal: no quote,
    no backslash, no control character. *)
Definition plainUnit (c : N) : bool :=
  negb (N.eqb c 34) && negb (N.eqb c 92) && negb (N.ltb c 32).

(** One server-sent event: the field name, the payload, and the blank line
    that ends it. *)
Definition eventOf (payload : jsstring) : jsstring :=
  js "data: " ++ payload ++ [newline; newline].

(** ** Text that is only added to *)

(** [subseq l l']: [l'] is [l] with elements inserted. *)
Inductive subseq (A : Type) : list A -> list A -> Prop :=
| subseq_nil : subseq A [] []
| subseq_skip (x : A) (l l' : list A) : subseq A l l' -> subseq A l (x :: l')
| subseq_take (x : A) (l l' : list A) :
    subseq A l l' -> subseq A (x :: l) (x :: l').

(** * Properties *)

(** ** Arrays *)

Lemma index_in_range (A : Type) (a : list A) (k : Z) :
  (0 <= k < Z.of_nat (length a))%Z -> exists x, index a k = Some x.
Proof.
  intros [Hlo Hhi]. unfold index.
  destruct (k <? 0)%Z eqn:E; [apply Z.ltb_lt in E; lia|].
  destruct (nth_error a (Z.to_nat k)) eqn:N; [eauto|].
  apply nth_error_None in N. lia.
Qed.

Lemma index_app_middle (A : Type) (l1 l2 : list A) (x : A) :
  index (l1 ++ x :: l2) (Z.of_nat (length l1)) = Some x.
Proof.
  unfold index.
  destruct (Z.of_nat (length l1) <? 0)%Z eqn:E; [apply Z.ltb_lt in E; lia|].
  rewrite Nat2Z.id, nth_error_app2, Nat.sub_diag by lia. reflexivity.
Qed.

Lemma splice_insert_length (A : Type) (a : list A) (k : Z) (x : A) :
  length (splice_insert a k x) = S (length a).
Proof.
  unfold splice_insert.
  rewrite length_app. simpl. rewrite Nat.add_succ_r.
  rewrite <- length_app, firstn_skipn. reflexivity.
Qed.

Lemma splice_insert_firstn (A : Type) (a : list A) (k : Z) (x : A) (n : nat) :
  (Z.of_nat n <= k)%Z -> n <= length a ->
  firstn n (splice_insert a k x) = firstn n a.
Proof.
  intros Hk Hn. unfold splice_insert.
  destruct (k <? 0)%Z eqn:E; [apply Z.ltb_lt in E; lia|].
  set (m := Z.to_nat (Z.min k (Z.of_nat (length a)))).
  assert (Hm : n <= m) by (unfold m; lia).
  assert (Hl : m <= length a) by (unfold m; lia).
  rewrite firstn_app, length_firstn, Nat.min_l by lia.
  replace (n - m) with 0 by lia. simpl. rewrite app_nil_r.
  rewrite firstn_firstn, Nat.min_l by lia. reflexivity.
Qed.

Lemma splice_insert_app (A : Type) (l1 l2 : list A) (x : A) :
  splice_insert (l1 ++ l2) (Z.of_nat (length l1)) x = l1 ++ x :: l2.
Proof.
  unfold splice_insert.
  destruct (Z.of_nat (length l1) <? 0)%Z eqn:E; [apply Z.ltb_lt in E; lia|].
  rewrite length_app, Z.min_l, Nat2Z.id by lia.
  rewrite firstn_app, firstn_all, Nat.sub_diag. simpl. rewrite app_nil_r.
  rewrite skipn_app, skipn_all, Nat.sub_diag. reflexivity.
Qed.

(** ** Strings *)

Lemma str_eqb_eq (a b : jsstring) : str_eqb a b = true <-> a = b.
Proof.
  revert b. induction a as [|x a IH]; intros [|y b]; simpl; split;
    try discriminate; try reflexivity.
  - intros H. apply andb_prop in H as [H1 H2].
    apply N.eqb_eq in H1. apply IH in H2. congruence.
  - intros H. inversion H; subst. rewrite N.eqb_refl. simpl. now apply IH.
Qed.

Lemma str_eqb_refl (a : jsstring) : str_eqb a a = true.
Proof. now apply str_eqb_eq. Qed.

Lemma startsWith_nil (s : jsstring) : startsWith s [] = true.
Proof. destruct s; reflexivity. Qed.

(** ** The table pass of [sanitizeMarkdown] *)

Section TablePass.

Lemma dividerFor_clean (header : jsstring) : clean (dividerFor header).
Proof.
  unfold clean, dividerFor.
  generalize (Z.to_nat (if (headerCells header >? 0)%Z
                        then headerCells header else 1%Z)) as n.
  intros n [H|H]; [discriminate|].
  induction n as [|n IH]; simpl in H; [exact H|].
  repeat (destruct H as [H|H]; [discriminate|]). auto.
Qed.

Lemma make_divider_at (st : TableState) (header : jsstring) :
  index (lines st) (tableStartIndex st) = Some header ->
  make_divider st = Normal (dividerFor header).
Proof.
  intros H. unfold make_divider, index_or_throw. rewrite H. simpl.
  unfold repeat, dividerFor.
  destruct (headerCells header >? 0)%Z eqn:E.
  - apply Z.gtb_lt in E.
    destruct (headerCells header <? 0)%Z eqn:F; [apply Z.ltb_lt in F; lia|].
    reflexivity.
  - reflexivity.
Qed.

Lemma loop_body_inv (n : nat) (i : Z) (st : TableState) :
  loop_inv n st ->
  (Z.of_nat n <= i < Z.of_nat (length (lines st)))%Z ->
  exists i' st',
    loop_body i st = Normal (i', st') /\
    loop_inv n st' /\
    firstn n (lines st') = firstn n (lines st) /\
    (Z.of_nat (length (lines st')) - i' = Z.of_nat (length (lines st)) - i)%Z /\
    (i <= i')%Z /\
    (Forall clean (lines st) -> Forall clean (lines st')).
Proof.
  intros [Hh Hs Hp] Hi.
  destruct (index_in_range _ (lines st) i) as [raw Hraw]; [lia|].
  unfold loop_body, index_or_throw. rewrite Hraw. simpl.
  destruct st as [l it ts hh hd]; simpl in *.
  destruct (isPipeLine (trim raw)).
  - (* a table row *)
    destruct it; simpl.
    + destruct (i =? ts)%Z eqn:E1; simpl;
        destruct (i =? ts + 1)%Z eqn:E2; simpl;
        try destruct (str_eqb (only_dash_pipe (trim raw)) (trim raw)); simpl;
        do 2 eexists; (split; [reflexivity|]); simpl;
        (split; [constructor; simpl; intros; auto;
                 try (apply Z.eqb_eq in E1; lia)|]);
        repeat split; auto; lia.
    + rewrite Z.eqb_refl. simpl.
      replace (i =? i + 1)%Z with false by (symmetry; apply Z.eqb_neq; lia).
      simpl. do 2 eexists. split; [reflexivity|]. simpl.
      split; [constructor; simpl; intros; lia|].
      repeat split; auto; lia.
  - destruct (it && str_eqb (trim raw) []) eqn:E.
    + (* the blank line that ends a table *)
      apply andb_prop in E as [-> _].
      destruct (hh && negb hd) eqn:F.
      * apply andb_prop in F as [-> _].
        specialize (Hh eq_refl). specialize (Hs eq_refl).
        destruct (index_in_range _ l ts) as [header Hhd]; [lia|].
        rewrite (make_divider_at (mkTableState l true ts true hd) header Hhd).
        simpl. do 2 eexists. split; [reflexivity|]. simpl.
        rewrite splice_insert_length.
        split; [constructor; simpl; intros; try discriminate;
                rewrite splice_insert_length; lia|].
        split; [apply splice_insert_firstn; lia|].
        split; [lia|]. split; [lia|].
        intros Hc. unfold splice_insert.
        rewrite <- (firstn_skipn
                      (Z.to_nat
                         (if (ts + 1 <? 0)%Z
                          then Z.max (Z.of_nat (length l) + (ts + 1)) 0
                          else Z.min (ts + 1) (Z.of_nat (length l)))) l) in Hc.
        apply Forall_app in Hc as [Hc1 Hc2].
        apply Forall_app. split; [exact Hc1|].
        constructor; [apply dividerFor_clean | exact Hc2].
      * do 2 eexists. split; [reflexivity|]. simpl.
        split; [constructor; simpl; intros; try discriminate; lia|].
        repeat split; auto; lia.
    + do 2 eexists. split; [reflexivity|]. simpl.
      split; [constructor; simpl; intros; auto|].
      repeat split; auto; lia.
Qed.

Lemma table_loop_inv (n : nat) (fuel : nat) :
  forall (i : Z) (st : TableState),
    loop_inv n st ->
    (Z.of_nat n <= i)%Z ->
    (Z.of_nat (length (lines st)) - i <= Z.of_nat fuel)%Z ->
    exists st',
      table_loop fuel i st = Normal st' /\
      loop_inv n st' /\
      firstn n (lines st') = firstn n (lines st) /\
      (Forall clean (lines st) -> Forall clean (lines st')).
Proof.
  induction fuel as [|fuel IH]; intros i st Hinv Hi Hfuel.
  - exists st. simpl.
    destruct (i <? Z.of_nat (length (lines st)))%Z eqn:E;
      [apply Z.ltb_lt in E; lia|]. auto.
  - simpl. destruct (i <? Z.of_nat (length (lines st)))%Z eqn:E.
    + apply Z.ltb_lt in E.
      destruct (loop_body_inv n i st Hinv) as
          (i' & st1 & Hb & Hinv1 & Hpre1 & Hlen1 & Hle1 & Hc1); [lia|].
      rewrite Hb. simpl.
      destruct (IH (i' + 1)%Z st1 Hinv1) as (st' & Hl & Hinv' & Hpre' & Hc');
        [lia | lia |].
      exists st'. split; [exact Hl|]. split; [exact Hinv'|].
      split; [congruence | auto].
    + exists st. auto.
Qed.

End TablePass.

Section TablePassRun.

Lemma repairTables_unfold (content : jsstring) :
  repairTables content =
  (st <- table_loop (length (split content [newline])) 0
           (initialTableState (split content [newline])) ;;
   lines1 <- finish_tables st ;;
   Normal (join [newline] lines1)).
Proof. reflexivity. Qed.

Lemma finish_tables_inv (n : nat) (st : TableState) :
  loop_inv n st ->
  exists lines1,
    finish_tables st = Normal lines1 /\
    firstn n lines1 = firstn n (lines st) /\
    (Forall clean (lines st) -> Forall clean lines1).
Proof.
  intros [Hh Hs Hp]. unfold finish_tables.
  destruct (inTable st && hasHeader st && negb (hasDivider st)) eqn:E.
  - apply andb_prop in E as [E _]. apply andb_prop in E as [E1 E2].
    specialize (Hh E2). specialize (Hs E1).
    destruct (index_in_range _ (lines st) (tableStartIndex st)) as [hd Hhd];
      [lia|].
    rewrite (make_divider_at st hd Hhd). simpl.
    eexists. split; [reflexivity|].
    split; [apply splice_insert_firstn; lia|].
    intros Hc. unfold splice_insert.
    match goal with
    | |- Forall _ (firstn ?k _ ++ _) =>
        rewrite <- (firstn_skipn k (lines st)) in Hc
    end.
    apply Forall_app in Hc as [Hc1 Hc2].
    apply Forall_app. split; [exact Hc1|].
    constructor; [apply dividerFor_clean | exact Hc2].
  - eexists. split; [reflexivity|]. auto.
Qed.

(** The table pass always returns: the loop is given enough fuel and no
    array access of it is out of range. *)
Lemma repairTables_returns (content : jsstring) :
  exists s, repairTables content = Normal s.
Proof.
  rewrite repairTables_unfold.
  destruct (table_loop_inv 0 (length (split content [newline])) 0
              (initialTableState (split content [newline])))
    as (st & Hl & Hinv & _).
  - constructor; simpl; intros; try discriminate; lia.
  - lia.
  - simpl. lia.
  - rewrite Hl. simpl.
    destruct (finish_tables_inv 0 st Hinv) as (lines1 & Hf & _).
    rewrite Hf. simpl. eauto.
Qed.

Lemma sanitize_try_returns (content : jsstring) :
  exists s, sanitize_try content = Normal s.
Proof.
  unfold sanitize_try.
  destruct (hasTableStart content).
  - destruct (repairTables_returns content) as [s Hs]. rewrite Hs.
    simpl. eauto.
  - simpl. eauto.
Qed.

End TablePassRun.

(** C9.  For every input string [sanitizeMarkdown] returns a string: the
    guarded body never throws (and it does not run out of fuel), so the run
    returns normally, with the value [sanitizeMarkdown] denotes; and the
    [catch] clause, were the body to throw, returns the text it was given. *)
Theorem sanitizeMarkdown_returns (content : jsstring) :
  sanitizeMarkdown_run content = Normal (sanitizeMarkdown content)
  /\ (exists s, sanitize_try content = Normal s)
  /\ (forall e : JsError,
        try_catch (A:=jsstring) (Throw e) content = Normal content).
Proof.
  split; [|split].
  - unfold sanitizeMarkdown, sanitizeMarkdown_run.
    destruct content as [|c content]; [reflexivity|].
    destruct (sanitize_try_returns (c :: content)) as [s Hs].
    rewrite Hs. reflexivity.
  - apply sanitize_try_returns.
  - reflexivity.
Qed.

(** ** A header, its rows, and the blank line after them *)

Section HeaderRepair.

Lemma table_loop_step (fuel : nat) (i : Z) (st : TableState) :
  (i < Z.of_nat (length (lines st)))%Z ->
  table_loop (S fuel) i st =
  (r <- loop_body i st ;; table_loop fuel (fst r + 1) (snd r)).
Proof.
  intros H. simpl. apply Z.ltb_lt in H. rewrite H. reflexivity.
Qed.

Lemma loop_body_outside (i : Z) (st : TableState) (raw : jsstring) :
  index (lines st) i = Some raw ->
  inTable st = false ->
  isPipeLine (trim raw) = false ->
  loop_body i st = Normal (i, st).
Proof.
  intros Hraw Hin Hp. unfold loop_body, index_or_throw.
  rewrite Hraw. simpl. rewrite Hp, Hin. reflexivity.
Qed.

Lemma loop_body_header (i ts : Z) (l : list jsstring) (raw : jsstring) :
  index l i = Some raw ->
  isPipeLine (trim raw) = true ->
  loop_body i (mkTableState l false ts false false) =
  Normal (i, mkTableState l true i true false).
Proof.
  intros Hraw Hp. unfold loop_body, index_or_throw. simpl.
  rewrite Hraw. simpl. rewrite Hp. simpl. rewrite Z.eqb_refl. simpl.
  replace (i =? i + 1)%Z with false by (symmetry; apply Z.eqb_neq; lia).
  reflexivity.
Qed.

Lemma loop_body_row (i k : Z) (l : list jsstring) (raw : jsstring) :
  index l i = Some raw ->
  (k < i)%Z ->
  str_eqb (trim raw) [] = false ->
  (i = k + 1 -> dividerLike (trim raw) = false)%Z ->
  loop_body i (mkTableState l true k true false) =
  Normal (i, mkTableState l true k true false).
Proof.
  intros Hraw Hk Hb Hd. unfold loop_body, index_or_throw. simpl.
  rewrite Hraw. simpl.
  destruct (isPipeLine (trim raw)) eqn:Hp; simpl.
  - replace (i =? k)%Z with false by (symmetry; apply Z.eqb_neq; lia).
    simpl. destruct (i =? k + 1)%Z eqn:E; simpl; [|reflexivity].
    apply Z.eqb_eq in E. specialize (Hd E). unfold dividerLike in Hd.
    rewrite Hp in Hd. simpl in Hd. rewrite Hd. reflexivity.
  - rewrite Hb. reflexivity.
Qed.

Lemma loop_body_blank (i k : Z) (l : list jsstring) (raw header : jsstring) :
  index l i = Some raw ->
  trim raw = [] ->
  index l k = Some header ->
  loop_body i (mkTableState l true k true false) =
  Normal ((i + 1)%Z,
          mkTableState (splice_insert l (k + 1) (dividerFor header))
            false k false false).
Proof.
  intros Hraw Hb Hh. unfold loop_body, index_or_throw. simpl.
  rewrite Hraw. simpl. rewrite Hb. simpl.
  rewrite (make_divider_at (mkTableState l true k true false) header Hh).
  reflexivity.
Qed.

(** Lines at which the body of the loop changes nothing are passed over. *)
Lemma table_loop_inert (st : TableState) (mid : list jsstring) :
  forall (l0 tail : list jsstring) (fuel : nat),
    lines st = l0 ++ mid ++ tail ->
    (forall j line,
        nth_error mid j = Some line ->
        loop_body (Z.of_nat (length l0 + j)) st =
        Normal (Z.of_nat (length l0 + j), st)) ->
    table_loop (length mid + fuel) (Z.of_nat (length l0)) st =
    table_loop fuel (Z.of_nat (length l0 + length mid)) st.
Proof.
  induction mid as [|m mid IH]; intros l0 tail fuel Hl Hj.
  - simpl. rewrite Nat.add_0_r. reflexivity.
  - change (length (m :: mid) + fuel) with (S (length mid + fuel)).
    rewrite table_loop_step
      by (rewrite Hl, !length_app; simpl; lia).
    specialize (Hj 0 m eq_refl) as H0. rewrite Nat.add_0_r in H0.
    rewrite H0. simpl bind. simpl fst. simpl snd.
    replace (Z.of_nat (length l0) + 1)%Z
      with (Z.of_nat (length (l0 ++ [m])))
      by (rewrite length_app; simpl; lia).
    rewrite (IH (l0 ++ [m]) tail fuel).
    + f_equal. rewrite length_app. simpl. lia.
    + rewrite Hl, <- app_assoc. reflexivity.
    + intros j line Hn. rewrite length_app. simpl.
      replace (length l0 + 1 + j) with (length l0 + S j) by lia.
      apply (Hj (S j) line). exact Hn.
Qed.

End HeaderRepair.

Section Cleanliness.

Lemma split_go_clean (sep : jsstring) (s : jsstring) :
  forall (skip : nat) (cur : jsstring),
    clean cur -> clean s -> Forall clean (split_go sep skip cur s).
Proof.
  unfold clean. induction s as [|x s IH]; intros skip cur Hc Hs;
    cbn [split_go].
  - constructor; [|constructor]. intros H. apply in_rev in H. auto.
  - assert (Hs' : ~ In backtick s) by (intros H; apply Hs; now right).
    destruct skip as [|k]; [|apply IH; auto].
    destruct (startsWith (x :: s) sep).
    + constructor.
      * intros H. apply in_rev in H. auto.
      * apply IH; auto.
    + apply IH; auto. intros [H|H]; [apply Hs; now left | auto].
Qed.

Lemma split_clean (content sep : jsstring) :
  clean content -> Forall clean (split content sep).
Proof. intros H. apply split_go_clean; [intros [] | exact H]. Qed.

Lemma join_clean (l : list jsstring) :
  Forall clean l -> clean (join [newline] l).
Proof.
  unfold clean. induction l as [|x l IH]; intros H; simpl; [auto|].
  inversion H as [|? ? Hx Hl]; subst.
  destruct l as [|y l]; [exact Hx|].
  intros Hin. apply in_app_or in Hin as [Hin|Hin]; [auto|].
  simpl in Hin. destruct Hin as [Hin|Hin]; [discriminate|].
  apply IH in Hin; auto.
Qed.

Lemma codeBlockRegex_no_match (s : jsstring) :
  startsWith s fence = false -> exec_at codeBlockRegex s = None.
Proof.
  intros H. unfold exec_at, codeBlockRegex. cbn [Nat.add exec].
  rewrite H. reflexivity.
Qed.

Lemma fixCodeBlocks_clean (s : jsstring) : clean s -> fixCodeBlocks s = s.
Proof.
  unfold fixCodeBlocks, clean. induction s as [|x s IH]; intros H; [reflexivity|].
  cbn [fixCodeBlocks_go]. rewrite codeBlockRegex_no_match.
  - rewrite IH; [reflexivity|]. intros Hin. apply H. now right.
  - cbn [startsWith fence]. destruct (N.eqb_spec x backtick) as [->|Hx].
    + exfalso. apply H. now left.
    + reflexivity.
Qed.

End Cleanliness.

(** ** What [codeBlockRegex] matches *)

Section FencePattern.

Lemma span_line_app (s : jsstring) :
  fst (span_line s) ++ snd (span_line s) = s.
Proof.
  induction s as [|x s IH]; [reflexivity|]. simpl.
  destruct (N.eqb x newline); [reflexivity|].
  destruct (span_line s) as [l r]. simpl in *. now rewrite IH.
Qed.

Lemma span_line_rest (s : jsstring) :
  match snd (span_line s) with
  | [] => True
  | x :: _ => x = newline
  end.
Proof.
  induction s as [|x s IH]; [exact I|]. simpl.
  destruct (N.eqb_spec x newline) as [->|H]; [reflexivity|].
  destruct (span_line s) as [l r]. exact IH.
Qed.

Lemma consumed_app (a b : jsstring) : consumed (a ++ b) b = a.
Proof.
  unfold consumed. rewrite length_app.
  replace (length a + length b - length b) with (length a) by lia.
  rewrite firstn_app, firstn_all, Nat.sub_diag. simpl. apply app_nil_r.
Qed.

Lemma startsWith_firstn (s p : jsstring) :
  startsWith s p = true -> firstn (length p) s = p.
Proof.
  revert s. induction p as [|y p IH]; intros s H; [reflexivity|].
  destruct s as [|x s]; [discriminate|]. simpl in *.
  apply andb_prop in H as [H1 H2]. apply N.eqb_eq in H1. subst.
  now rewrite IH.
Qed.

(** One step of the matcher, by the shape of the pattern. *)
Section ExecSteps.

Variables (f : nat) (s : jsstring) (caps : Captures)
          (k : jsstring -> Captures -> MatchResult).

Lemma exec_Lit (p : jsstring) :
  exec (S f) (Lit p) s caps k =
  if startsWith s p then k (skipn (length p) s) caps else None.
Proof. reflexivity. Qed.

Lemma exec_NotNewline :
  exec (S f) NotNewline s caps k =
  match s with
  | x :: s' => if N.eqb x newline then None else k s' caps
  | [] => None
  end.
Proof. reflexivity. Qed.

Lemma exec_Newline :
  exec (S f) Newline s caps k =
  match s with
  | x :: s' => if N.eqb x newline then k s' caps else None
  | [] => None
  end.
Proof. reflexivity. Qed.

Lemma exec_Seq (a b : Regex) :
  exec (S f) (Seq a b) s caps k =
  exec f a s caps (fun s1 c1 => exec f b s1 c1 k).
Proof. reflexivity. Qed.

Lemma exec_star_greedy (r : Regex) :
  exec (S f) (Star true r) s caps k =
  match exec f r s caps
          (fun s1 c1 =>
             if length s1 <? length s then exec f (Star true r) s1 c1 k
             else None) with
  | Some res => Some res
  | None => k s caps
  end.
Proof. reflexivity. Qed.

Lemma exec_star_lazy (r : Regex) :
  exec (S f) (Star false r) s caps k =
  match k s caps with
  | Some res => Some res
  | None =>
      exec f r s caps
        (fun s1 c1 =>
           if length s1 <? length s then exec f (Star false r) s1 c1 k
           else None)
  end.
Proof. reflexivity. Qed.

Lemma exec_Opt (r : Regex) :
  exec (S f) (Opt r) s caps k =
  match exec f r s caps k with
  | Some res => Some res
  | None => k s caps
  end.
Proof. reflexivity. Qed.

Lemma exec_Group (n : nat) (r : Regex) :
  exec (S f) (Group n r) s caps k =
  exec f r s caps (fun s1 c1 => k s1 ((n, consumed s s1) :: c1)).
Proof. reflexivity. Qed.

End ExecSteps.

(** A greedy run of [NotNewline] before a continuation that cannot fail
    takes the rest of the line. *)
Lemma star_greedy_line (s : jsstring) :
  forall (fuel : nat) (caps : Captures)
         (k : jsstring -> Captures -> MatchResult),
    2 * length s + 2 <= fuel ->
    (forall s' c, k s' c <> None) ->
    exec fuel (Star true NotNewline) s caps k = k (snd (span_line s)) caps.
Proof.
  induction s as [|x s IH]; intros fuel caps k Hf Hk.
  - destruct fuel as [|[|f]]; simpl in Hf; try lia. reflexivity.
  - destruct fuel as [|[|f]]; simpl in Hf; try lia.
    rewrite exec_star_greedy, exec_NotNewline. cbn [span_line].
    destruct (N.eqb x newline); [reflexivity|].
    replace (length s <? length (x :: s)) with true
      by (symmetry; apply Nat.ltb_lt; simpl; lia).
    rewrite IH by (auto; lia).
    destruct (span_line s) as [l r]. simpl.
    destruct (k r caps) eqn:E; [reflexivity|]. now apply Hk in E.
Qed.

(** The tail of the pattern, the two optional groups, matches at any
    position. *)
Lemma exec_tail (f : nat) (s : jsstring) (caps : Captures) :
  exec (S (S (S (S (S (S f))))))
    (Seq (Opt (Group 2 (Seq Newline (Star false AnyUnit))))
         (Opt (Group 3 (Lit fence))))
    s caps (fun s1 c1 => Some (s1, c1)) =
  match s with
  | x :: s' =>
      if N.eqb x newline then
        if startsWith s' fence
        then Some (skipn 3 s', (3, fence) :: (2, [x]) :: caps)
        else Some (s', (2, [x]) :: caps)
      else
        if startsWith s fence then Some (skipn 3 s, (3, fence) :: caps)
        else Some (s, caps)
  | [] => Some ([], caps)
  end.
Proof.
  rewrite exec_Seq, exec_Opt, exec_Group, exec_Seq, exec_Newline.
  assert (Hend : forall g t c,
             exec (S (S (S g))) (Opt (Group 3 (Lit fence))) t c
               (fun s1 c1 => Some (s1, c1)) =
             if startsWith t fence then Some (skipn 3 t, (3, fence) :: c)
             else Some (t, c)).
  { intros g t c. rewrite exec_Opt, exec_Group, exec_Lit.
    destruct (startsWith t fence) eqn:E; [|reflexivity].
    unfold consumed. rewrite length_skipn.
    assert (3 <= length t).
    { destruct t as [|? [|? [|? ?]]]; simpl in *;
        rewrite ?andb_false_r in E; try discriminate; lia. }
    replace (length t - (length t - length fence)) with (length fence)
      by (simpl; lia).
    rewrite (startsWith_firstn _ _ E). reflexivity. }
  destruct s as [|x s'].
  - apply (Hend _ [] caps).
  - destruct (N.eqb x newline).
    + rewrite exec_star_lazy. cbv beta.
      replace (consumed (x :: s') s') with [x].
      2:{ unfold consumed. simpl length.
          replace (S (length s') - length s') with 1 by lia. reflexivity. }
      rewrite Hend. destruct (startsWith s' fence); reflexivity.
    + apply (Hend _ (x :: s') caps).
Qed.

(** At three backticks the pattern matches, with the groups of
    [match_after_fence]. *)
Lemma codeBlockRegex_exec (after : jsstring) :
  exec_at codeBlockRegex (fence ++ after) =
  Some (skipn (length (matched_text (match_after_fence after))) (fence ++ after),
        captures_of (match_after_fence after)).
Proof.
  unfold exec_at, codeBlockRegex. cbn [Nat.add].
  rewrite exec_Seq, exec_Lit.
  change (startsWith (fence ++ after) fence) with (startsWith after []).
  rewrite startsWith_nil.
  change (skipn (length fence) (fence ++ after)) with after.
  rewrite exec_Seq, exec_Group.
  rewrite star_greedy_line.
  - pose proof (span_line_app after) as Happ.
    pose proof (span_line_rest after) as Hrest.
    unfold match_after_fence, matched_text, captures_of.
    destruct (span_line after) as [l rest]. simpl in Happ, Hrest.
    subst after. rewrite consumed_app, exec_tail.
    change (fence ++ l ++ rest)
      with (backtick :: backtick :: backtick :: l ++ rest).
    destruct rest as [|x rest'].
    + simpl. rewrite !app_nil_r. rewrite skipn_all. reflexivity.
    + subst x. cbn [snd]. rewrite N.eqb_refl.
      destruct (startsWith rest' fence) eqn:E; simpl.
      * rewrite !length_app. simpl.
        rewrite skipn_app, skipn_all2 by lia.
        replace (length l + 4 - length l) with 4 by lia.
        simpl. reflexivity.
      * rewrite !length_app. simpl.
        rewrite skipn_app, skipn_all2 by lia.
        replace (length l + 1 - length l) with 1 by lia.
        simpl. reflexivity.
  - rewrite length_app. simpl. lia.
  - intros s' c. rewrite exec_tail.
    destruct s' as [|x s'']; [discriminate|].
    destruct (N.eqb x newline); destruct (startsWith _ fence); discriminate.
Qed.

(** Whatever follows, the text put in place of a match is the opening
    fence, the rest of its line, the line break if there is one, and a
    fence. *)
Lemma fence_replacement (after rest : jsstring) (caps : Captures) :
  exec_at codeBlockRegex (fence ++ after) = Some (rest, caps) ->
  replace_callback (consumed (fence ++ after) rest) caps =
  fence ++ lang (match_after_fence after)
        ++ or_empty (code (match_after_fence after)) ++ fence.
Proof.
  rewrite codeBlockRegex_exec. intros H. inversion H; subst. clear H.
  pose proof (span_line_app after) as Happ.
  unfold replace_callback, captures_of, matched_text, match_after_fence.
  destruct (span_line after) as [l r]. simpl in Happ. subst after.
  destruct r as [|x r]; [reflexivity|].
  destruct (startsWith r fence) eqn:E; [|reflexivity].
  assert (Hr : r = fence ++ skipn 3 r).
  { rewrite <- (firstn_skipn 3 r) at 1. f_equal.
    apply (startsWith_firstn _ _ E). }
  clear E. revert Hr. generalize (skipn 3 r). intros r' ->.
  cbn [fence_end lang code or_empty capture group Nat.eqb app].
  unfold fence at 1. cbv iota.
  replace (skipn (length (l ++ x :: fence)) (l ++ x :: fence ++ r')) with r'.
  - replace (fence ++ l ++ x :: fence ++ r')
      with ((fence ++ l ++ x :: fence) ++ r')
      by (now rewrite <- !app_assoc).
    apply consumed_app.
  - replace (l ++ x :: fence ++ r') with ((l ++ x :: fence) ++ r')
      by (rewrite <- app_assoc; reflexivity).
    rewrite skipn_app, skipn_all, Nat.sub_diag. reflexivity.
Qed.

End FencePattern.

Section HeaderRepairRun.

Lemma index_app_nth (l0 mid tail : list jsstring) (j : nat) (line : jsstring) :
  nth_error mid j = Some line ->
  index (l0 ++ mid ++ tail) (Z.of_nat (length l0 + j)) = Some line.
Proof.
  intros H. unfold index.
  destruct (Z.of_nat (length l0 + j) <? 0)%Z eqn:E; [apply Z.ltb_lt in E; lia|].
  rewrite Nat2Z.id, nth_error_app2 by lia.
  replace (length l0 + j - length l0) with j by lia.
  rewrite nth_error_app1; [exact H|].
  apply nth_error_Some. congruence.
Qed.

End HeaderRepairRun.

Section DividerCells.

Lemma split_go_single_length (c : N) (s : jsstring) :
  forall cur, length (split_go [c] 0 cur s) = S (count_occ N.eq_dec s c).
Proof.
  induction s as [|x s IH]; intros cur; [reflexivity|].
  cbn [split_go startsWith]. destruct (N.eqb_spec x c) as [->|Hx].
  - cbn [andb length Nat.sub count_occ]. rewrite startsWith_nil.
    cbn [length]. rewrite IH.
    destruct (N.eq_dec c c); [reflexivity|congruence].
  - cbn [andb length count_occ]. rewrite IH.
    destruct (N.eq_dec x c); [congruence|reflexivity].
Qed.

(** One [" --- |"] cell for each pipe of the header but the first, and one
    cell at least. *)
Lemma dividerFor_cells (header : jsstring) :
  dividerFor header =
  pipe :: repeat_str (js " --- |") (Nat.max 1 (pipes header - 1)).
Proof.
  unfold dividerFor, headerCells, split, pipes.
  rewrite split_go_single_length.
  set (n := count_occ N.eq_dec header pipe).
  destruct (Z.gtb_spec (Z.of_nat (S n) - 2) 0); do 2 f_equal; lia.
Qed.

Lemma includes_single_false (c : N) (s : jsstring) :
  includes s [c] = false -> ~ In c s.
Proof.
  induction s as [|x s IH]; cbn [includes startsWith]; intros H; [intros []|].
  apply orb_false_elim in H as [H1 H2].
  rewrite startsWith_nil, andb_true_r in H1. apply N.eqb_neq in H1.
  intros [Hin|Hin]; [congruence | now apply IH].
Qed.

End DividerCells.

(** ** The table pass, for every text *)

Section TablePassSpec.

Lemma table_loop_done (fuel : nat) (st : TableState) :
  table_loop fuel (Z.of_nat (length (lines st))) st = Normal st.
Proof.
  destruct fuel; simpl; rewrite Z.ltb_irrefl; reflexivity.
Qed.

Lemma isPipeLine_not_blank (line : jsstring) :
  isPipeLine line = true -> str_eqb line [] = false.
Proof. destruct line; [discriminate | reflexivity]. Qed.

(** One turn of the loop inside a table whose header is at [k]. *)
Lemma loop_body_in_table (i k : Z) (l : list jsstring) (raw : jsstring)
    (dv : bool) :
  index l i = Some raw ->
  (k < i)%Z ->
  loop_body i (mkTableState l true k true dv) =
  if isPipeLine (trim raw) then
    Normal (i, mkTableState l true k true
                 (if (i =? k + 1)%Z
                     && str_eqb (only_dash_pipe (trim raw)) (trim raw)
                  then true else dv))
  else if str_eqb (trim raw) [] then
    if negb dv then
      divider <- make_divider (mkTableState l true k true dv) ;;
      Normal ((i + 1)%Z,
              mkTableState (splice_insert l (k + 1) divider) false k false
                false)
    else Normal (i, mkTableState l false k false false)
  else Normal (i, mkTableState l true k true dv).
Proof.
  intros Hraw Hk. unfold loop_body, index_or_throw. cbn [lines].
  rewrite Hraw. cbn [bind inTable hasHeader hasDivider tableStartIndex lines
                     negb andb].
  replace (i =? k)%Z with false by (symmetry; apply Z.eqb_neq; lia).
  destruct (isPipeLine (trim raw)); [|reflexivity].
  cbn [inTable hasHeader hasDivider tableStartIndex lines andb].
  destruct ((i =? k + 1)%Z && str_eqb (only_dash_pipe (trim raw)) (trim raw));
    reflexivity.
Qed.

Lemma hd_app_cons (b : list jsstring) (l : jsstring) (todo : list jsstring) :
  hd [] (b ++ l :: todo) = hd [] (b ++ [l]).
Proof. destruct b; reflexivity. Qed.

Lemma hd_app_snoc (b : list jsstring) (l : jsstring) (todo : list jsstring) :
  hd [] ((b ++ [l]) ++ todo) = hd [] (b ++ [l]).
Proof. destruct b; reflexivity. Qed.

Lemma dividerLike_not_pipe (line : jsstring) :
  isPipeLine line = false -> dividerLike line = false.
Proof. intros H. unfold dividerLike. rewrite H. reflexivity. Qed.

(** The loop and the step after it, from a line outside a table and from a
    line inside one: [done] and [R ++ h :: b] are the lines behind the
    index, [todo] the lines still to come. *)
Lemma table_loop_spec (todo : list jsstring) :
  (forall (done : list jsstring) (ts : Z) (fuel : nat),
      length todo <= fuel ->
      (st <- table_loop fuel (Z.of_nat (length done))
               (mkTableState (done ++ todo) false ts false false) ;;
       finish_tables st)
      = Normal (done ++ repairFrom false todo))
  /\ (forall (R : list jsstring) (h : jsstring) (b : list jsstring)
             (fuel : nat),
         length todo <= fuel ->
         (st <- table_loop fuel (Z.of_nat (length (R ++ h :: b)))
                  (mkTableState (R ++ h :: b ++ todo) true
                     (Z.of_nat (length R)) true
                     (dividerLike (trim (hd [] b)))) ;;
          finish_tables st)
         = Normal (R ++ h
                     :: (if dividerLike (trim (hd [] (b ++ todo))) then []
                         else [dividerFor h])
                     ++ b ++ repairFrom true todo)).
Proof.
  induction todo as [|l todo [IHout IHin]].
  - split.
    + intros done ts fuel _.
      replace (Z.of_nat (length done))
        with (Z.of_nat (length (lines (mkTableState (done ++ []) false ts
                                         false false))))
        by (cbn [lines]; rewrite app_nil_r; reflexivity).
      rewrite table_loop_done. reflexivity.
    + intros R h b fuel _.
      replace (Z.of_nat (length (R ++ h :: b)))
        with (Z.of_nat (length (lines (mkTableState (R ++ h :: b ++ []) true
                                         (Z.of_nat (length R)) true
                                         (dividerLike (trim (hd [] b)))))))
        by (cbn [lines]; rewrite app_nil_r; reflexivity).
      rewrite table_loop_done. cbn [bind]. unfold finish_tables.
      cbn [inTable hasHeader hasDivider andb lines tableStartIndex].
      rewrite !app_nil_r.
      destruct (dividerLike (trim (hd [] b))); cbn [negb app].
      * reflexivity.
      * rewrite (make_divider_at _ h) by (cbn; apply index_app_middle).
        cbn [bind]. f_equal.
        replace (R ++ h :: b) with ((R ++ [h]) ++ b)
          by (rewrite <- app_assoc; reflexivity).
        replace (Z.of_nat (length R) + 1)%Z
          with (Z.of_nat (length (R ++ [h])))
          by (rewrite length_app; simpl; lia).
        rewrite splice_insert_app, <- app_assoc. reflexivity.
  - split.
    + intros done ts [|fuel] Hf; [simpl in Hf; lia|].
      simpl in Hf. apply le_S_n in Hf.
      rewrite table_loop_step
        by (cbn [lines]; rewrite length_app; simpl; lia).
      assert (Hraw : index (done ++ l :: todo) (Z.of_nat (length done))
                     = Some l) by apply index_app_middle.
      cbn [repairFrom]. destruct (isPipeLine (trim l)) eqn:Hp.
      * rewrite (loop_body_header _ ts _ l Hraw Hp). cbn [bind fst snd].
        pose proof (IHin done l [] fuel Hf) as H.
        cbn [app hd] in H.
        replace (Z.of_nat (length done) + 1)%Z
          with (Z.of_nat (length (done ++ [l])))
          by (rewrite length_app; simpl; lia).
        change (dividerLike (trim [])) with false in H.
        rewrite H. reflexivity.
      * rewrite (loop_body_outside (Z.of_nat (length done))
                   (mkTableState (done ++ l :: todo) false ts false false) l
                   Hraw eq_refl Hp).
        cbn [bind fst snd].
        replace (Z.of_nat (length done) + 1)%Z
          with (Z.of_nat (length (done ++ [l])))
          by (rewrite length_app; simpl; lia).
        replace (done ++ l :: todo) with ((done ++ [l]) ++ todo)
          by (rewrite <- app_assoc; reflexivity).
        rewrite (IHout (done ++ [l]) ts fuel Hf), <- app_assoc. reflexivity.
    + intros R h b [|fuel] Hf; [simpl in Hf; lia|].
      simpl in Hf. apply le_S_n in Hf.
      set (i := Z.of_nat (length (R ++ h :: b))).
      set (L := R ++ h :: b ++ l :: todo).
      assert (HL : L = (R ++ h :: b) ++ l :: todo)
        by (unfold L; rewrite <- app_assoc; reflexivity).
      assert (Hraw : index L i = Some l)
        by (rewrite HL; apply index_app_middle).
      assert (Hk : (Z.of_nat (length R) < i)%Z)
        by (unfold i; rewrite length_app; simpl; lia).
      rewrite table_loop_step
        by (cbn [lines]; rewrite HL, length_app; unfold i; simpl; lia).
      rewrite (loop_body_in_table i _ L l _ Hraw Hk).
      assert (Hnext : (i + 1)%Z = Z.of_nat (length (R ++ h :: b ++ [l]))).
      { unfold i. rewrite !length_app. simpl. rewrite length_app. simpl. lia. }
      assert (HL' : L = R ++ h :: (b ++ [l]) ++ todo)
        by (unfold L; rewrite <- app_assoc; reflexivity).
      rewrite (hd_app_cons b l todo). cbn [repairFrom].
      destruct (isPipeLine (trim l)) eqn:Hp.
      * (* a row *)
        rewrite (isPipeLine_not_blank _ Hp). cbn [negb bind fst snd].
        rewrite Hnext, HL'.
        assert (Hdv : (if (i =? Z.of_nat (length R) + 1)%Z
                          && str_eqb (only_dash_pipe (trim l)) (trim l)
                       then true else dividerLike (trim (hd [] b)))
                      = dividerLike (trim (hd [] (b ++ [l])))).
        { destruct b as [|d b'].
          - replace (i =? Z.of_nat (length R) + 1)%Z with true
              by (symmetry; apply Z.eqb_eq; unfold i; rewrite length_app;
                  simpl; lia).
            cbn [hd app andb]. unfold dividerLike at 2. rewrite Hp.
            cbn [andb].
            change (dividerLike (trim [])) with false.
            destruct (str_eqb (only_dash_pipe (trim l)) (trim l)); reflexivity.
          - replace (i =? Z.of_nat (length R) + 1)%Z with false
              by (symmetry; apply Z.eqb_neq; unfold i; rewrite length_app;
                  simpl; lia).
            reflexivity. }
        rewrite Hdv.
        replace (R ++ h :: b ++ [l]) with (R ++ h :: (b ++ [l])) by reflexivity.
        rewrite (IHin R h (b ++ [l]) fuel Hf), hd_app_snoc.
        rewrite <- !app_assoc. reflexivity.
      * destruct (str_eqb (trim l) []) eqn:Hb.
        -- (* the blank line that ends the table *)
           assert (Hdv : dividerLike (trim (hd [] (b ++ [l])))
                         = dividerLike (trim (hd [] b))).
           { destruct b as [|d b']; [|reflexivity]. cbn [hd app].
             change (dividerLike (trim [])) with false.
             apply dividerLike_not_pipe. exact Hp. }
           rewrite Hdv. cbn [negb].
           destruct (dividerLike (trim (hd [] b))); cbn [negb].
           ++ cbn [bind fst snd]. rewrite Hnext.
              replace L with ((R ++ h :: b ++ [l]) ++ todo)
                by (unfold L; rewrite <- !app_assoc; simpl;
                    rewrite <- app_assoc; reflexivity).
              rewrite (IHout (R ++ h :: b ++ [l]) _ fuel Hf).
              cbn [app]. rewrite <- !app_assoc. simpl.
              rewrite <- app_assoc. reflexivity.
           ++ rewrite (make_divider_at _ h)
                by (cbn; unfold L; apply index_app_middle).
              cbn [bind fst snd].
              assert (Hspl : splice_insert L (Z.of_nat (length R) + 1)
                               (dividerFor h)
                             = (R ++ h :: dividerFor h :: b ++ [l]) ++ todo).
              { unfold L.
                replace (R ++ h :: b ++ l :: todo)
                  with ((R ++ [h]) ++ b ++ l :: todo)
                  by (rewrite <- app_assoc; reflexivity).
                replace (Z.of_nat (length R) + 1)%Z
                  with (Z.of_nat (length (R ++ [h])))
                  by (rewrite length_app; simpl; lia).
                rewrite splice_insert_app, <- !app_assoc. simpl.
                rewrite <- app_assoc. reflexivity. }
              rewrite Hspl.
              replace (i + 1 + 1)%Z
                with (Z.of_nat (length (R ++ h :: dividerFor h :: b ++ [l])))
                by (unfold i; rewrite !length_app; simpl; rewrite length_app;
                    simpl; lia).
              rewrite (IHout (R ++ h :: dividerFor h :: b ++ [l]) _ fuel Hf).
              cbn [app]. rewrite <- !app_assoc. simpl.
              rewrite <- app_assoc. reflexivity.
        -- (* a line of the table that is no row *)
           cbn [negb bind fst snd]. rewrite Hnext, HL'.
           assert (Hdv : dividerLike (trim (hd [] b))
                         = dividerLike (trim (hd [] (b ++ [l])))).
           { destruct b as [|d b']; [|reflexivity]. cbn [hd app].
             change (dividerLike (trim [])) with false.
             symmetry. apply dividerLike_not_pipe. exact Hp. }
           rewrite Hdv.
           replace (R ++ h :: b ++ [l]) with (R ++ h :: (b ++ [l]))
             by reflexivity.
           rewrite (IHin R h (b ++ [l]) fuel Hf), hd_app_snoc.
           rewrite <- !app_assoc. reflexivity.
Qed.

Lemma repairTables_spec (content : jsstring) :
  repairTables content
  = Normal (join [newline] (repairFrom false (split content [newline]))).
Proof.
  rewrite repairTables_unfold.
  pose proof (proj1 (table_loop_spec (split content [newline])) [] (-1)%Z
                (length (split content [newline])) (le_n _)) as H.
  cbn [app length] in H. unfold initialTableState.
  change (Z.of_nat 0) with 0%Z in H.
  destruct (table_loop _ 0 _) as [st| |]; try discriminate.
  cbn [bind] in H |- *. rewrite H. reflexivity.
Qed.

Lemma repairFrom_clean (ls : list jsstring) :
  forall inTable, Forall clean ls -> Forall clean (repairFrom inTable ls).
Proof.
  induction ls as [|l ls IH]; intros inTable H; [constructor|].
  inversion H as [|? ? Hl Hls]; subst. cbn [repairFrom].
  destruct inTable; [constructor; auto|].
  destruct (isPipeLine (trim l)); [|constructor; auto].
  constructor; [exact Hl|].
  destruct (dividerLike (trim (hd [] ls))); cbn [app]; auto.
  constructor; [apply dividerFor_clean | auto].
Qed.

(** A header after lines that leave no table open. *)
Lemma repairFrom_header (pre : list jsstring) :
  forall (inTable : bool) (h : jsstring) (rest : list jsstring),
    tableOpenAfter inTable pre = false ->
    isPipeLine (trim h) = true ->
    repairFrom inTable (pre ++ h :: rest)
    = repairFrom inTable pre
        ++ h :: (if dividerLike (trim (hd [] rest)) then []
                 else [dividerFor h])
        ++ repairFrom true rest.
Proof.
  induction pre as [|l pre IH]; intros inTable h rest Ho Hh.
  - cbn in Ho. subst inTable. cbn [app repairFrom]. rewrite Hh. reflexivity.
  - cbn [tableOpenAfter] in Ho. cbn [app repairFrom].
    destruct inTable.
    + rewrite (IH _ h rest Ho Hh). reflexivity.
    + destruct (isPipeLine (trim l)) eqn:Hp.
      * rewrite (IH _ h rest Ho Hh).
        destruct pre as [|l' pre']; [discriminate|].
        cbn [app hd]. rewrite <- !app_assoc. reflexivity.
      * rewrite (IH _ h rest Ho Hh). reflexivity.
Qed.

End TablePassSpec.

(** C3 (amended).  The table pass runs only on text that contains both a
    pipe and three dashes in a row; other text goes to the code-fence pass
    as it is.  On text that has both, every header, a line that, trimmed,
    starts and ends with a pipe and stands outside a table, whose next line
    is no separator row gets right after it a pipe followed by one
    [" --- |"] cell for each pipe of the header but the first, and by one
    cell at least; a table runs from its header to the next blank line or to
    the end of the text, and nothing else is changed.  The code-fence pass
    then runs over the result, and changes nothing when the text has no
    backtick. *)
Theorem sanitizeMarkdown_inserts_divider (content : jsstring) :
  sanitizeMarkdown content
  = fixCodeBlocks
      (if hasTableStart content
       then join [newline] (repairFrom false (split content [newline]))
       else content)
  /\ (includes content [backtick] = false ->
      sanitizeMarkdown content
      = if hasTableStart content
        then join [newline] (repairFrom false (split content [newline]))
        else content)
  /\ (forall (pre : list jsstring) (h : jsstring) (rest : list jsstring),
        split content [newline] = pre ++ h :: rest ->
        tableOpenAfter false pre = false ->
        isPipeLine (trim h) = true ->
        repairFrom false (split content [newline])
        = repairFrom false pre
            ++ h
            :: (if dividerLike (trim (hd [] rest)) then []
                else [pipe :: repeat_str (js " --- |")
                                (Nat.max 1 (pipes h - 1))])
            ++ repairFrom true rest).
Proof.
  assert (Hsan : sanitizeMarkdown content
                 = fixCodeBlocks
                     (if hasTableStart content
                      then join [newline]
                             (repairFrom false (split content [newline]))
                      else content)).
  { unfold sanitizeMarkdown, sanitizeMarkdown_run.
    destruct content as [|c content]; [reflexivity|].
    unfold sanitize_try.
    destruct (hasTableStart (c :: content)); [|reflexivity].
    rewrite repairTables_spec. reflexivity. }
  split; [exact Hsan|]. split.
  - intros Hbt. apply includes_single_false in Hbt. rewrite Hsan.
    apply fixCodeBlocks_clean.
    destruct (hasTableStart content); [|exact Hbt].
    apply join_clean, repairFrom_clean, split_clean. exact Hbt.
  - intros pre h rest Hsplit Ho Hh.
    rewrite Hsplit, <- dividerFor_cells.
    apply repairFrom_header; assumption.
Qed.

Lemma sanitizeMarkdown_inserts_divider_witness :
  sanitizeMarkdown tableWithRule
  = join [newline] (repairFrom false (split tableWithRule [newline]))
  /\ repairFrom false (split tableWithRule [newline])
     = [headerAB; dividerAB; []; js "---"].
Proof.
  split.
  - exact (proj1 (proj2 (sanitizeMarkdown_inserts_divider tableWithRule))
             eq_refl).
  - exact (proj2 (proj2 (sanitizeMarkdown_inserts_divider tableWithRule))
             [] headerAB [[]; js "---"] eq_refl eq_refl eq_refl).
Defined.

Example sanitizeMarkdown_tableWithRule :
  sanitizeMarkdown tableWithRule =
  headerAB ++ [newline] ++ dividerAB ++ [newline; newline] ++ js "---".
Proof. vm_compute. reflexivity. Qed.

(** C3, as stated, fails: the header ["| A | B |"] followed by a blank line,
    in a text without three dashes in a row, is returned as it is; no
    separator row is inserted. *)
Lemma header_without_dashes_not_repaired :
  split tableWithoutDashes [newline] = [headerAB; []; js "Next paragraph"]
  /\ isPipeLine (trim headerAB) = true
  /\ sanitizeMarkdown tableWithoutDashes = tableWithoutDashes
  /\ includes (sanitizeMarkdown tableWithoutDashes) dividerAB = false.
Proof. vm_compute. repeat split; reflexivity. Qed.

(** C8.  [sanitizeMarkdown] is not idempotent.  On a complete table, header,
    divider row and blank line, it inserts a divider row, and inserts one
    more each time it is applied again: the test for a divider row accepts
    rows of dashes and pipes only, so neither a row written with spaces nor
    the row the function itself inserts passes it.  A lone fence grows
    likewise. *)
Theorem sanitizeMarkdown_not_idempotent :
  sanitizeMarkdown completeTable =
    headerAB ++ [newline] ++ dividerAB ++ [newline] ++ dividerAB
             ++ [newline; newline]
  /\ sanitizeMarkdown (sanitizeMarkdown completeTable) =
    headerAB ++ [newline] ++ dividerAB ++ [newline] ++ dividerAB
             ++ [newline] ++ dividerAB ++ [newline; newline]
  /\ sanitizeMarkdown (sanitizeMarkdown completeTable)
     <> sanitizeMarkdown completeTable
  /\ sanitizeMarkdown (sanitizeMarkdown tableWithRule)
     <> sanitizeMarkdown tableWithRule
  /\ sanitizeMarkdown (sanitizeMarkdown fence) <> sanitizeMarkdown fence.
Proof.
  vm_compute. repeat split; try reflexivity; discriminate.
Qed.

(** ** The reader of [sendMessage] *)

Section ReaderProperties.

Variable S : Type.
Variable options : StreamingOptions S.
Variable callback : ChunkArgument -> S -> S.
Hypothesis has_onChunk : onChunk options = Some callback.

Lemma deliver_line_payload (s : S) (line : jsstring) :
  deliver_line options s line = fold_left (deliver S callback) (payloadOfLine line) s.
Proof.
  unfold deliver_line, payloadOfLine. rewrite has_onChunk.
  destruct (startsWith line (js "data: ")); [|reflexivity].
  destruct (substring 6 line); reflexivity.
Qed.

Lemma fold_deliver_lines (ls : list jsstring) :
  forall s,
    fold_left (deliver_line options) ls s =
    fold_left (deliver S callback) (flat_map payloadOfLine ls) s.
Proof.
  induction ls as [|l ls IH]; intros s; [reflexivity|].
  simpl. rewrite fold_left_app, <- deliver_line_payload. apply IH.
Qed.

Lemma process_chunk_payloads (s : S) (chunk : jsstring) :
  process_chunk options s chunk = fold_left (deliver S callback) (payloadsOfChunk chunk) s.
Proof. apply fold_deliver_lines. Qed.

Lemma read_loop_payloads (chunks : list jsstring) (e : Ending) :
  forall s,
    read_loop options chunks e s =
    read_loop options [] e (fold_left (deliver S callback) (payloads chunks) s).
Proof.
  induction chunks as [|c chunks IH]; intros s; [reflexivity|].
  cbn [read_loop]. rewrite IH, process_chunk_payloads.
  unfold payloads. cbn [flat_map]. rewrite fold_left_app. reflexivity.
Qed.

End ReaderProperties.

(** Resuming a suspended reader until it ends is [readStream]. *)
Lemma resume_readStream (St : Type) (o : StreamingOptions St) (b : Body)
    (s : St) :
  readStream o b s =
  match resume o b s with
  | (Some b', s') => readStream o b' s'
  | (None, s') => s'
  end.
Proof.
  unfold resume, readStream. destruct b as [[|c cs] e]; reflexivity.
Qed.

Lemma fold_record (ps : list jsstring) :
  forall log,
    fold_left (deliver (list Signal) recordChunk) ps log
    = log ++ map Chunk ps.
Proof.
  induction ps as [|p ps IH]; intros log; simpl.
  - now rewrite app_nil_r.
  - rewrite IH. unfold deliver, recordChunk. now rewrite <- app_assoc.
Qed.

Lemma signals_of_stream (b : Body) :
  signals b =
  map Chunk (payloads (chunks b))
  ++ match ending b with
     | EndOfInput => []
     | ReadFailure e => [Failed e]
     end
  ++ [Completed].
Proof.
  unfold signals, readStream.
  rewrite (read_loop_payloads _ recorder _ eq_refl).
  rewrite fold_record. simpl.
  destruct (ending b); unfold call_onComplete, call_onError; simpl;
    rewrite <- ?app_assoc; reflexivity.
Qed.

(** C4 (amended).  For every stream the reader calls [onChunk] with the
    payloads of the chunks it read, in order, then [onError] when a read
    failed, and then, in both cases, [onComplete], once and last. *)
Theorem readStream_signals (b : Body) :
  signals b =
  map Chunk (payloads (chunks b))
  ++ match ending b with
     | EndOfInput => []
     | ReadFailure e => [Failed e]
     end
  ++ [Completed].
Proof. apply signals_of_stream. Qed.

(** C4, as stated, fails: after a read that fails in mid-stream the reader
    signals the error and then completion. *)
Lemma completion_follows_read_failure :
  let b := mkBody [js "data: Hel" ++ [newline; newline]]
                  (ReadFailure NetworkError) in
  signals b = [Chunk (js "Hel"); Failed NetworkError; Completed]
  /\ last (signals b) (Failed NetworkError) = Completed.
Proof. vm_compute. split; reflexivity. Qed.

(** ** [sendMessage] *)

(** C10.  In streaming mode, when the request succeeds with a body,
    [sendMessage] settles at once with the placeholder, whose id is -1, role
    [assistant] and content empty, whatever the body holds; the reader it
    leaves in the background has the whole body still to read. *)
Theorem sendMessage_resolves_with_placeholder
    (St : Type) (server : Server) (now chatId : Z) (message : MessageFormData)
    (o : StreamingOptions St) (response : Response) (b : Body) :
  streaming o = true ->
  fetch server chatId message = Normal response ->
  (200 <= status response <= 299)%Z ->
  body response = Some b ->
  sendMessage server now chatId message (Some o) =
    (Normal (placeholderMessage now chatId), Some (mkReaderTask o b))
  /\ id (placeholderMessage now chatId) = (-1)%Z
  /\ role (placeholderMessage now chatId) = assistant
  /\ content (placeholderMessage now chatId) = [].
Proof.
  intros Hs Hf Hok Hb. unfold sendMessage.
  assert (Hok' : ok response = true)
    by (unfold ok; apply andb_true_intro; split; apply Z.leb_le; lia).
  rewrite Hs, Hf, Hok', Hb. simpl. auto.
Qed.

Lemma sendMessage_resolves_with_placeholder_witness :
  sendMessage streamingServer 1000 7 hello (Some recorder) =
    (Normal (placeholderMessage 1000 7), Some (mkReaderTask recorder helloBody))
  /\ id (placeholderMessage 1000 7) = (-1)%Z
  /\ role (placeholderMessage 1000 7) = assistant
  /\ content (placeholderMessage 1000 7) = [].
Proof.
  apply (sendMessage_resolves_with_placeholder (list Signal) streamingServer
           1000 7 hello recorder (mkResponse 200 (Some helloBody))
           helloBody); try reflexivity.
  simpl. lia.
Defined.

(** C1 (amended).  [sendMessage] keeps no record of the streams it started:
    whatever readers are in flight, for this chat or another, a streaming
    send whose request succeeds settles with the placeholder and adds one
    more reader for the chat.  The page has one draft, and shows at most one
    provisional assistant entry in any state. *)
Theorem sendMessage_ignores_streams_in_flight
    (St : Type) (server : Server) (now chatId : Z) (message : MessageFormData)
    (o : StreamingOptions St) (response : Response) (b : Body)
    (inflight : InFlight St) :
  streaming o = true ->
  fetch server chatId message = Normal response ->
  ok response = true ->
  body response = Some b ->
  call_sendMessage server now chatId message (Some o) inflight =
    (Normal (placeholderMessage now chatId),
     inflight ++ [(chatId, mkReaderTask o b)])
  /\ activeFor chatId (inflight ++ [(chatId, mkReaderTask o b)]) =
     S (activeFor chatId inflight)
  /\ (forall st : ChatState, length (provisionalEntries st) <= 1).
Proof.
  intros Hs Hf Hok Hb. unfold call_sendMessage, sendMessage.
  rewrite Hs, Hf, Hok, Hb. simpl. split; [reflexivity|]. split.
  - unfold activeFor. rewrite filter_app, length_app. simpl.
    rewrite Z.eqb_refl. simpl. lia.
  - intros st. unfold provisionalEntries. destruct (isTyping st); simpl; lia.
Qed.

Lemma sendMessage_ignores_streams_in_flight_witness :
  call_sendMessage streamingServer 2000 7 hello (Some recorder)
    [(7%Z, mkReaderTask recorder helloBody)] =
    (Normal (placeholderMessage 2000 7),
     [(7%Z, mkReaderTask recorder helloBody)]
       ++ [(7%Z, mkReaderTask recorder helloBody)])
  /\ activeFor 7 ([(7%Z, mkReaderTask recorder helloBody)]
                    ++ [(7%Z, mkReaderTask recorder helloBody)]) =
     S (activeFor 7 [(7%Z, mkReaderTask recorder helloBody)])
  /\ (forall st : ChatState, length (provisionalEntries st) <= 1).
Proof.
  apply (sendMessage_ignores_streams_in_flight (list Signal) streamingServer
           2000 7 hello recorder (mkResponse 200 (Some helloBody))
           helloBody); reflexivity.
Defined.

(** C1, as stated, fails: with the reader of a first send for chat 7 in
    flight, nothing of its body read, a second send for chat 7 does not fail;
    it settles with the placeholder, and two readers are in flight for the
    chat. *)
Lemma second_streaming_send_is_accepted :
  let first := call_sendMessage streamingServer 1000 7 hello
                 (Some recorder) [] in
  let second := call_sendMessage streamingServer 2000 7 hello
                  (Some recorder) (snd first) in
  snd first = [(7%Z, mkReaderTask recorder helloBody)]
  /\ activeFor 7 (snd first) = 1
  /\ fst second = Normal (placeholderMessage 2000 7)
  /\ (forall e, fst second <> Throw e)
  /\ activeFor 7 (snd second) = 2.
Proof.
  vm_compute. repeat split; try reflexivity. intros e H. discriminate.
Qed.

(** ** The handlers of the chat component *)

Section Refetch.

Lemma role_eqb_eq (a b : Role) : role_eqb a b = true <-> a = b.
Proof. destruct a, b; simpl; split; intros H; try reflexivity; discriminate. Qed.

Lemma message_eqb_eq (a b : Message) : message_eqb a b = true <-> a = b.
Proof.
  unfold message_eqb. split.
  - intros H. repeat (apply andb_prop in H as [H ?]).
    destruct a, b; simpl in *.
    f_equal; try (apply Z.eqb_eq; assumption).
    + apply role_eqb_eq. assumption.
    + apply str_eqb_eq. assumption.
  - intros ->. rewrite !Z.eqb_refl, str_eqb_refl.
    destruct (role b); reflexivity.
Qed.

Lemma messages_eqb_eq (a b : list Message) : messages_eqb a b = true <-> a = b.
Proof.
  revert b. induction a as [|x a IH]; intros [|y b]; simpl;
    try (split; [discriminate | discriminate]); [tauto|].
  split.
  - intros H. apply andb_prop in H as [Hx Ha].
    apply message_eqb_eq in Hx. apply IH in Ha. congruence.
  - intros H. inversion H; subst.
    apply andb_true_intro. split; [apply message_eqb_eq | apply IH]; reflexivity.
Qed.

End Refetch.

(** C2 (amended).  A refetch whose result is empty, or equal to the list the
    query held already, leaves the local view as it is; any other result
    replaces the local view, whatever its length, the rest of the state
    being kept.  In both cases the query then holds the result. *)
Theorem refetchSettled_spec (result : list Message)
    (held : option (list Message)) (st : ChatState) :
  let st' := snd (refetchSettled result held st) in
  (result = [] \/ held = Some result -> st' = st)
  /\ (result <> [] -> held <> Some result ->
      localMessages st' = result
      /\ isTyping st' = isTyping st
      /\ streamingEnabled st' = streamingEnabled st
      /\ streamingMessage st' = streamingMessage st
      /\ effects st' = effects st)
  /\ fst (refetchSettled result held st) = Some result.
Proof.
  unfold refetchSettled.
  destruct held as [previous|].
  - destruct (messages_eqb previous result) eqn:E.
    + apply messages_eqb_eq in E. subst previous. cbn.
      split; [auto|]. split; [|reflexivity].
      intros _ H. destruct H. reflexivity.
    + assert (Hne : Some previous <> Some result).
      { intros H. inversion H; subst.
        rewrite (proj2 (messages_eqb_eq result result) eq_refl) in E.
        discriminate. }
      cbn. split; [|split; [|reflexivity]].
      * intros [->|H]; [reflexivity | contradiction].
      * intros Hr _. destruct result; [contradiction|].
        cbn. repeat split.
  - cbn. split; [|split; [|reflexivity]].
    + intros [->|H]; [reflexivity | discriminate].
    + intros Hr _. destruct result; [contradiction|]. cbn. repeat split.
Qed.

Lemma refetchSettled_spec_witness :
  let st := mkChatState false true [] [persisted1; optimistic2; local3] [] in
  (snd (refetchSettled [persisted1] (Some [persisted1]) st) = st)
  /\ localMessages
       (snd (refetchSettled [persisted1; persisted2] (Some [persisted1]) st))
     = [persisted1; persisted2].
Proof.
  split.
  - apply (proj1 (refetchSettled_spec [persisted1] (Some [persisted1])
                    (mkChatState false true []
                       [persisted1; optimistic2; local3] []))).
    right. reflexivity.
  - apply (proj1 (proj2 (refetchSettled_spec [persisted1; persisted2]
                           (Some [persisted1])
                           (mkChatState false true []
                              [persisted1; optimistic2; local3] []))));
      discriminate.
Defined.

(** C2, as stated, fails: the query holds the one stored message, the local
    view shows three, and a refetch brings the two messages stored by then;
    the two replace the three. *)
Lemma shorter_refetch_replaces_local_view :
  let st := mkChatState false true [] [persisted1; optimistic2; local3] [] in
  let st' := snd (refetchSettled [persisted1; persisted2] (Some [persisted1]) st) in
  length [persisted1; persisted2] < length (localMessages st)
  /\ localMessages st' = [persisted1; persisted2]
  /\ localMessages st' <> localMessages st.
Proof.
  cbn. repeat split; [lia | discriminate].
Qed.

Section Conversion.

Variable NumberToString : jsstring -> jsstring.

(** The conversion to a string returns a string or throws a TypeError. *)
Lemma ToString_result :
  forall v : JsonValue,
    (exists s, ToString NumberToString v = Normal s)
    \/ ToString NumberToString v = Throw TypeError.
Proof.
  fix IH 1. intros [|[|]|lit|s|l|members]; cbn [ToString];
    try (left; eexists; reflexivity).
  - induction l as [|e l IHl]; [left; eexists; reflexivity|].
    assert (He : (exists s, match e with
                            | JNull => Normal []
                            | _ => ToString NumberToString e
                            end = Normal s)
                 \/ match e with
                    | JNull => Normal []
                    | _ => ToString NumberToString e
                    end = Throw TypeError).
    { destruct (IH e) as [[s Hs]|Hs]; destruct e;
        try (left; eexists; reflexivity);
        try (left; eexists; exact Hs); right; exact Hs. }
    destruct He as [[s Hs]|Hs]; rewrite Hs; cbn [bind]; [|right; reflexivity].
    destruct l as [|e' l']; [left; eexists; reflexivity|].
    destruct IHl as [[s' Hs']|Hs']; rewrite Hs'; cbn [bind];
      [left; eexists; reflexivity | right; reflexivity].
  - destruct (hasKey (js "toString") members);
      [right; reflexivity | left; eexists; reflexivity].
Qed.

Lemma handleChunk_event (payload : jsstring) (st : ChatState) :
  str_eqb payload sentinel = false ->
  handleChunk NumberToString (Event (mkMessageEvent payload)) st =
  match JSON_parse payload with
  | Normal v =>
      draft <- string_plus NumberToString (streamingMessage st) v ;;
      Normal (setStreamingMessage draft st)
  | Throw _ => Normal (setStreamingMessage (streamingMessage st ++ payload) st)
  | OutOfFuel => OutOfFuel
  end.
Proof.
  intros Hs. unfold handleChunk. cbn [eventData data dataText].
  unfold sentinel in Hs. rewrite Hs. reflexivity.
Qed.

Lemma setStreamingMessage_appends (text : jsstring) (st : ChatState) :
  appends text st
    (Normal (setStreamingMessage (streamingMessage st ++ text) st)).
Proof. eexists. split; [reflexivity|]. cbn. repeat split. Qed.

End Conversion.

(** C6 (amended).  The handler given an event whose data is a payload other
    than the sentinel: a payload [JSON.parse] rejects is added to the draft
    as it is; a payload that is a JSON string is added decoded; any other
    JSON value is added as the string JavaScript converts it to, unless that
    conversion throws, and then the update throws a TypeError and nothing is
    added.  No parse error leaves the handler. *)
Theorem handleChunk_json_fallback
    (NumberToString : jsstring -> jsstring) (payload : jsstring)
    (st : ChatState) :
  str_eqb payload sentinel = false ->
  let r := handleChunk NumberToString (Event (mkMessageEvent payload)) st in
  (forall e, JSON_parse payload = Throw e -> appends payload st r)
  /\ (forall s, JSON_parse payload = Normal (JString s) -> appends s st r)
  /\ (forall v s, JSON_parse payload = Normal v ->
      ToString NumberToString v = Normal s -> appends s st r)
  /\ (forall v e, JSON_parse payload = Normal v ->
      ToString NumberToString v = Throw e -> r = Throw TypeError)
  /\ (appends payload st r
      \/ (exists s, appends s st r)
      \/ r = Throw TypeError)
  /\ r <> Throw SyntaxError.
Proof.
  intros Hs r. unfold r. rewrite (handleChunk_event NumberToString payload st Hs).
  unfold JSON_parse.
  destruct (parse_value (2 * length payload + 4) payload) as [[v rest]|];
    [destruct (skip_ws rest)|].
  - (* a JSON value *)
    unfold string_plus.
    destruct (ToString_result NumberToString v) as [[s Hv]|Hv]; rewrite Hv;
      cbn [bind].
    + repeat split; try discriminate.
      * intros s' H. inversion H; subst. cbn in Hv. inversion Hv; subst.
        apply setStreamingMessage_appends.
      * intros v' s' H Hv'. inversion H; subst. rewrite Hv in Hv'.
        inversion Hv'; subst. apply setStreamingMessage_appends.
      * intros v' e H Hv'. inversion H; subst. rewrite Hv in Hv'.
        discriminate.
      * right. left. exists s. apply setStreamingMessage_appends.
    + repeat split; try discriminate.
      * intros s' H. inversion H; subst. discriminate.
      * intros v' s' H Hv'. inversion H; subst. rewrite Hv in Hv'.
        discriminate.
      * right. right. reflexivity.
  - repeat split; try discriminate.
    + intros e _. apply setStreamingMessage_appends.
    + left. apply setStreamingMessage_appends.
  - repeat split; try discriminate.
    + intros e _. apply setStreamingMessage_appends.
    + left. apply setStreamingMessage_appends.
Qed.

Lemma handleChunk_json_fallback_witness :
  appends (js "hello") typing
    (handleChunk (fun lit => lit) (Event (mkMessageEvent (js "hello"))) typing)
  /\ appends (js "hello") typing
       (handleChunk (fun lit => lit)
          (Event (mkMessageEvent (quoted (js "hello")))) typing).
Proof.
  split.
  - apply (proj1 (handleChunk_json_fallback (fun lit => lit) (js "hello")
                    typing eq_refl) SyntaxError).
    reflexivity.
  - apply (proj1 (proj2 (handleChunk_json_fallback (fun lit => lit)
                           (quoted (js "hello")) typing eq_refl))).
    reflexivity.
Defined.

(** C6, as stated, fails: an object with a member named [toString] is valid
    JSON and is not the sentinel, and on it the handler adds nothing: the
    update throws a TypeError. *)
Lemma toString_member_makes_update_throw :
  str_eqb toStringObject sentinel = false
  /\ JSON_parse toStringObject
     = Normal (JObject [(js "toString", JNumber (js "1"))])
  /\ handleChunk (fun lit => lit) (Event (mkMessageEvent toStringObject))
       typing
     = Throw TypeError
  /\ ~ (exists s, appends s typing
                    (handleChunk (fun lit => lit)
                       (Event (mkMessageEvent toStringObject)) typing)).
Proof.
  split; [reflexivity|]. split; [reflexivity|]. split; [reflexivity|].
  intros (s & st' & H & _). discriminate.
Qed.

(** C7 (amended).  When the draft has a character that is not white space,
    [handleStopStreaming] appends to the local view an assistant message
    whose content is the sanitized draft, and leaves the draft as it is. *)
Theorem handleStopStreaming_salvages_draft
    (dateNow now chatId : Z) (st : ChatState) :
  hasText (streamingMessage st) = true ->
  localMessages (handleStopStreaming dateNow now chatId st) =
    localMessages st ++
    [mkMessage dateNow chatId assistant
       (sanitizeMarkdown (streamingMessage st)) now]
  /\ streamingMessage (handleStopStreaming dateNow now chatId st) =
     streamingMessage st
  /\ isTyping (handleStopStreaming dateNow now chatId st) = false.
Proof.
  intros H. unfold handleStopStreaming, addAssistantMessage. simpl.
  rewrite H. simpl. auto.
Qed.

Example afterHelloWorld_draft : afterHelloWorld = Normal helloWorldDraft.
Proof. vm_compute. reflexivity. Qed.

Lemma handleStopStreaming_salvages_draft_witness :
  localMessages (handleStopStreaming 9000 9001 7 helloWorldDraft) =
    [mkMessage 9000 7 assistant (js "Hello world") 9001].
Proof.
  destruct (handleStopStreaming_salvages_draft 9000 9001 7 helloWorldDraft
              eq_refl) as [H _].
  rewrite H. reflexivity.
Defined.

(** C7, as stated, fails: a draft that is not empty but holds white space
    only is not kept; no assistant entry is made from it. *)
Lemma blank_draft_is_dropped :
  let st := mkChatState true true (js " ") [] [] in
  streamingMessage st <> []
  /\ localMessages (handleStopStreaming 9000 9001 7 st) = localMessages st
  /\ localMessages (handleStopStreaming 9000 9001 7 st) = [].
Proof.
  simpl. repeat split. discriminate.
Qed.

(** ** The reader with the callbacks of the chat page *)

Section PageCallbacks.

Variable NumberToString : jsstring -> jsstring.

(** Given a string, the handler reads no [data]: the sentinel test fails,
    [JSON.parse] rejects [undefined], and the fallback adds it as text. *)
Lemma handleChunk_text (payload : jsstring) (st : ChatState) :
  handleChunk NumberToString (Text payload) st =
  Normal (setStreamingMessage (streamingMessage st ++ js "undefined") st).
Proof. reflexivity. Qed.

Lemma drain_text (ps : list jsstring) :
  forall st : ChatState,
    fold_left (deliver (Completion ChatState) (chunkCallback NumberToString))
      ps (Normal st)
    = Normal (setStreamingMessage (streamingMessage st ++ undefinedFor ps) st).
Proof.
  induction ps as [|p ps IH]; intros st.
  - destruct st. cbn. rewrite app_nil_r. reflexivity.
  - cbn [fold_left]. unfold deliver at 2. unfold chunkCallback at 2.
    cbn [bind]. rewrite handleChunk_text, IH.
    unfold setStreamingMessage, undefinedFor. cbn.
    rewrite <- app_assoc. reflexivity.
Qed.

(** The run of a whole stream, whatever it holds and whatever ends it. *)
Lemma readStream_callbacks_run (finalMessage : jsstring)
    (dateNow now chatId : Z) (b : Body) (st : ChatState) :
  exists st',
    readStream (streamingOptions NumberToString finalMessage dateNow now chatId)
      b (Normal st) = Normal st'
    /\ streamingMessage st'
       = streamingMessage st ++ undefinedFor (payloads (chunks b))
    /\ isTyping st' = false
    /\ streamingEnabled st' = streamingEnabled st
    /\ localMessages st' =
       localMessages st ++ completionEntry dateNow now chatId finalMessage
    /\ effects st' =
       effects st
         ++ match ending b with
            | EndOfInput => []
            | ReadFailure _ => [RefetchMessages]
            end
         ++ [RefetchMessages].
Proof.
  unfold readStream.
  rewrite (read_loop_payloads (Completion ChatState)
             (streamingOptions NumberToString finalMessage dateNow now chatId)
             (chunkCallback NumberToString) eq_refl).
  rewrite drain_text. unfold completionEntry.
  destruct (ending b); unfold call_onComplete, call_onError; cbn;
    (eexists; split; [reflexivity|]);
    unfold handleComplete, handleError, addAssistantMessage;
    destruct (hasText finalMessage); cbn;
    rewrite ?app_nil_r, <- ?app_assoc; repeat split.
Qed.

End PageCallbacks.

(** C5.  The sentinel is never recognised.  The reader gives every payload
    to [onChunk] as a string, the sentinel like the others, and the handler of
    the page reads the [data] of what it is given, which a string does not
    have: for every stream the draft gains the text [undefined] once for
    each payload and no fragment of the stream, and the sentinel is never
    recognised: the only refetch requested when the input ends is the one of
    the completion.  On a stream of three fragments and the sentinel the
    draft is [undefined] four times. *)
Theorem sentinel_is_never_recognised
    (NumberToString : jsstring -> jsstring) (finalMessage : jsstring)
    (dateNow now chatId : Z) (b : Body) (st : ChatState) :
  (exists st',
     readStream
       (streamingOptions NumberToString finalMessage dateNow now chatId)
       b (Normal st) = Normal st'
     /\ streamingMessage st'
        = streamingMessage st ++ undefinedFor (payloads (chunks b))
     /\ effects st' =
        effects st
          ++ match ending b with
             | EndOfInput => []
             | ReadFailure _ => [RefetchMessages]
             end
          ++ [RefetchMessages])
  /\ payloads (chunks helloDoneBody)
     = [quoted (js "Hel"); js "lo wor"; quoted (js "ld"); sentinel]
  /\ signals helloDoneBody
     = [Chunk (quoted (js "Hel")); Chunk (js "lo wor");
        Chunk (quoted (js "ld")); Chunk sentinel; Completed]
  /\ readStream (streamingOptions (fun lit => lit) [] 9000 9001 7)
       helloDoneBody (Normal typing)
     = Normal (mkChatState false true
                 (js "undefinedundefinedundefinedundefined") []
                 [RefetchMessages]).
Proof.
  split; [|repeat split].
  destruct (readStream_callbacks_run NumberToString finalMessage dateNow now
              chatId b st) as (st' & Hr & Hm & _ & _ & _ & He).
  exists st'. auto.
Qed.

(** ** [sanitizeMarkdown] only adds *)

Section Subsequences.

Variable A : Type.

Lemma subseq_refl (l : list A) : subseq A l l.
Proof. induction l; [apply subseq_nil | apply subseq_take; auto]. Qed.

Lemma subseq_nil_l (l : list A) : subseq A [] l.
Proof. induction l; [apply subseq_nil | apply subseq_skip; auto]. Qed.

Lemma subseq_app (a a' b b' : list A) :
  subseq A a a' -> subseq A b b' -> subseq A (a ++ b) (a' ++ b').
Proof.
  intros Ha Hb. induction Ha; simpl;
    [exact Hb | apply subseq_skip; auto | apply subseq_take; auto].
Qed.

Lemma subseq_trans (a b c : list A) :
  subseq A a b -> subseq A b c -> subseq A a c.
Proof.
  intros Hab Hbc. revert a Hab.
  induction Hbc as [|x b c Hbc IH|x b c Hbc IH]; intros a Hab.
  - exact Hab.
  - apply subseq_skip. auto.
  - inversion Hab; subst.
    + apply subseq_skip. auto.
    + apply subseq_take. auto.
Qed.

Lemma subseq_length (a b : list A) : subseq A a b -> length a <= length b.
Proof. induction 1; simpl; lia. Qed.

Lemma subseq_app_r (a b : list A) : subseq A a (a ++ b).
Proof.
  rewrite <- (app_nil_r a) at 1. apply subseq_app;
    [apply subseq_refl | apply subseq_nil_l].
Qed.

Lemma subseq_app_l (a b : list A) : subseq A b (a ++ b).
Proof.
  change b with ([] ++ b) at 1. apply subseq_app;
    [apply subseq_nil_l | apply subseq_refl].
Qed.

Lemma subseq_splice (a : list A) (k : Z) (x : A) :
  subseq A a (splice_insert a k x).
Proof.
  unfold splice_insert.
  match goal with
  | |- subseq A _ (firstn ?n _ ++ _) =>
      rewrite <- (firstn_skipn n a) at 1
  end.
  apply subseq_app; [apply subseq_refl|].
  apply subseq_skip. apply subseq_refl.
Qed.

End Subsequences.

Section OnlyAdds.

Lemma split_go_nonempty (sep : jsstring) (s : jsstring) :
  forall skip cur, split_go sep skip cur s <> [].
Proof.
  induction s as [|x s IH]; intros skip cur; cbn [split_go]; [discriminate|].
  destruct skip; [|apply IH].
  destruct (startsWith (x :: s) sep); [discriminate | apply IH].
Qed.

Lemma join_cons (sep x : jsstring) (l : list jsstring) :
  l <> [] -> join sep (x :: l) = x ++ sep ++ join sep l.
Proof. destruct l; [congruence | reflexivity]. Qed.

(** Splitting at the line breaks and joining again gives the text back. *)
Lemma join_split_go (s : jsstring) :
  forall cur,
    join [newline] (split_go [newline] 0 cur s) = rev cur ++ s.
Proof.
  induction s as [|x s IH]; intros cur; cbn [split_go startsWith].
  - simpl. now rewrite app_nil_r.
  - rewrite startsWith_nil, andb_true_r.
    destruct (N.eqb_spec x newline) as [->|Hx].
    + cbn [length Nat.sub]. rewrite join_cons by apply split_go_nonempty.
      rewrite IH. reflexivity.
    + rewrite IH. simpl. rewrite <- app_assoc. reflexivity.
Qed.

Lemma join_split (s : jsstring) : join [newline] (split s [newline]) = s.
Proof. apply join_split_go. Qed.

Lemma join_subseq (l l' : list jsstring) :
  subseq jsstring l l' ->
  subseq N (join [newline] l) (join [newline] l').
Proof.
  induction 1 as [|x l l' H IH|x l l' H IH].
  - constructor.
  - destruct l' as [|y l'].
    + inversion H; subst. apply subseq_nil_l.
    + rewrite join_cons by discriminate.
      eapply subseq_trans; [exact IH|].
      rewrite app_assoc. apply subseq_app_l.
  - destruct l as [|y l].
    + simpl. destruct l' as [|z l']; [apply subseq_refl|].
      apply subseq_app_r.
    + destruct l' as [|z l']; [inversion H|].
      rewrite !join_cons by discriminate.
      apply subseq_app; [apply subseq_refl|].
      apply subseq_app; [apply subseq_refl | exact IH].
Qed.

Lemma loop_body_subseq (i i' : Z) (st st' : TableState) :
  loop_body i st = Normal (i', st') ->
  subseq jsstring (lines st) (lines st').
Proof.
  unfold loop_body. destruct (index_or_throw (lines st) i) as [raw| |];
    simpl; try discriminate.
  destruct (isPipeLine (trim raw)).
  - intros H. inversion H; subst. clear H.
    repeat match goal with
           | |- context [if ?b then _ else _] => destruct b
           end; simpl; apply subseq_refl.
  - destruct (inTable st && str_eqb (trim raw) []).
    + destruct (hasHeader st && negb (hasDivider st)).
      * destruct (make_divider st) as [d| |]; simpl; try discriminate.
        intros H. inversion H; subst. simpl. apply subseq_splice.
      * intros H. inversion H; subst. apply subseq_refl.
    + intros H. inversion H; subst. apply subseq_refl.
Qed.

Lemma table_loop_subseq (fuel : nat) :
  forall (i : Z) (st st' : TableState),
    table_loop fuel i st = Normal st' ->
    subseq jsstring (lines st) (lines st').
Proof.
  induction fuel as [|fuel IH]; intros i st st'; simpl;
    destruct (i <? Z.of_nat (length (lines st)))%Z; try discriminate;
    try (intros H; inversion H; subst; apply subseq_refl).
  destruct (loop_body i st) as [[i1 st1]| |] eqn:Hb; simpl; try discriminate.
  intros H. eapply subseq_trans.
  - eapply loop_body_subseq; eauto.
  - eapply IH; eauto.
Qed.

Lemma repairTables_subseq (content s : jsstring) :
  repairTables content = Normal s -> subseq N content s.
Proof.
  rewrite repairTables_unfold.
  destruct (table_loop _ 0 _) as [st| |] eqn:Hl; simpl; try discriminate.
  apply table_loop_subseq in Hl. simpl in Hl.
  unfold finish_tables.
  destruct (inTable st && hasHeader st && negb (hasDivider st)).
  - destruct (make_divider st) as [d| |]; simpl; try discriminate.
    intros H. inversion H; subst.
    rewrite <- (join_split content) at 1. apply join_subseq.
    eapply subseq_trans; [exact Hl | apply subseq_splice].
  - simpl. intros H. inversion H; subst.
    rewrite <- (join_split content) at 1. apply join_subseq. exact Hl.
Qed.

End OnlyAdds.

(** ** The code-fence pass, match by match *)

Section FencePass.

Lemma fixCodeBlocks_go_skip (pre rest : jsstring) :
  fixCodeBlocks_go (length pre) (pre ++ rest) = fixCodeBlocks_go 0 rest.
Proof.
  induction pre as [|x pre IH]; [|exact IH].
  destruct rest; reflexivity.
Qed.

Lemma fixCodeBlocks_go_cons (x : N) (s : jsstring) :
  fixCodeBlocks_go 0 (x :: s) =
  match exec_at codeBlockRegex (x :: s) with
  | Some (rest, caps) =>
      replace_callback (consumed (x :: s) rest) caps
        ++ fixCodeBlocks_go (length (consumed (x :: s) rest) - 1) s
  | None => x :: fixCodeBlocks_go 0 s
  end.
Proof. reflexivity. Qed.

Lemma fixCodeBlocks_no_fence (x : N) (s : jsstring) :
  startsWith (x :: s) fence = false ->
  fixCodeBlocks (x :: s) = x :: fixCodeBlocks s.
Proof.
  intros H. unfold fixCodeBlocks. rewrite fixCodeBlocks_go_cons.
  rewrite (codeBlockRegex_no_match _ H). reflexivity.
Qed.

Lemma startsWith_split (s p : jsstring) :
  startsWith s p = true -> s = p ++ skipn (length p) s.
Proof.
  intros H. rewrite <- (firstn_skipn (length p) s) at 1.
  now rewrite (startsWith_firstn _ _ H).
Qed.

(** What is matched at a fence, and what is left after the match. *)
Lemma matched_text_prefix (after : jsstring) :
  fence ++ after =
  matched_text (match_after_fence after)
    ++ skipn (length (matched_text (match_after_fence after))) (fence ++ after).
Proof.
  pose proof (span_line_app after) as Happ.
  unfold matched_text, match_after_fence.
  destruct (span_line after) as [l r]. simpl in Happ. subst after.
  destruct r as [|x r].
  - cbn [lang code fence_end or_empty]. rewrite !app_nil_r.
    rewrite skipn_all. now rewrite app_nil_r.
  - destruct (startsWith r fence) eqn:E;
      cbn [lang code fence_end or_empty].
    + rewrite (startsWith_split _ _ E) at 1 2.
      set (r' := skipn (length fence) r).
      replace (fence ++ l ++ x :: fence ++ r')
        with ((fence ++ l ++ [x] ++ fence) ++ r')
        by (now rewrite <- !app_assoc).
      rewrite skipn_app, skipn_all, Nat.sub_diag. reflexivity.
    + rewrite app_nil_r.
      replace (fence ++ l ++ x :: r) with ((fence ++ l ++ [x]) ++ r)
        by (now rewrite <- !app_assoc).
      rewrite skipn_app, skipn_all, Nat.sub_diag. reflexivity.
Qed.

(** One match of the pass. *)
Lemma fixCodeBlocks_at_fence (after : jsstring) :
  fixCodeBlocks (fence ++ after) =
  (fence ++ lang (match_after_fence after)
         ++ or_empty (code (match_after_fence after)) ++ fence)
  ++ fixCodeBlocks
       (skipn (length (matched_text (match_after_fence after)))
          (fence ++ after)).
Proof.
  unfold fixCodeBlocks.
  change (fence ++ after) with (backtick :: (backtick :: backtick :: after)) at 1.
  rewrite fixCodeBlocks_go_cons.
  change (backtick :: backtick :: backtick :: after) with (fence ++ after).
  pose proof (fence_replacement after) as Hrep.
  rewrite codeBlockRegex_exec in *.
  specialize (Hrep _ _ eq_refl). cbv zeta. rewrite Hrep.
  f_equal.
  set (m := match_after_fence after) in *.
  set (rest := skipn (length (matched_text m)) (fence ++ after)).
  assert (Hpre : fence ++ after = matched_text m ++ rest)
    by apply matched_text_prefix.
  rewrite Hpre at 1. rewrite consumed_app.
  assert (Htl : backtick :: backtick :: after
                = tl (matched_text m) ++ rest).
  { change (backtick :: backtick :: after) with (tl (fence ++ after)).
    rewrite Hpre. reflexivity. }
  rewrite Htl.
  replace (length (matched_text m) - 1) with (length (tl (matched_text m)))
    by (unfold matched_text; simpl; lia).
  apply fixCodeBlocks_go_skip.
Qed.

Lemma span_line_no_newline (l rest : jsstring) :
  ~ In newline l ->
  span_line (l ++ newline :: rest) = (l, newline :: rest)
  /\ span_line l = (l, []).
Proof.
  induction l as [|x l IH]; intros H; simpl.
  - auto.
  - destruct (N.eqb_spec x newline) as [->|Hx]; [exfalso; apply H; now left|].
    destruct IH as [IH1 IH2]; [intros Hin; apply H; now right|].
    rewrite IH1, IH2. auto.
Qed.

(** One step of the pass at a fence. *)
Lemma fixCodeBlocks_fence_step (info rest : jsstring) :
  ~ In newline info ->
  fixCodeBlocks (fence ++ info ++ newline :: rest) =
    fence ++ info ++ [newline] ++ fence
      ++ fixCodeBlocks (if startsWith rest fence then skipn 3 rest else rest)
  /\ fixCodeBlocks (fence ++ info) = fence ++ info ++ fence.
Proof.
  intros H. destruct (span_line_no_newline info rest H) as [H1 H2]. split.
  - rewrite fixCodeBlocks_at_fence.
    pose proof (matched_text_prefix (info ++ newline :: rest)) as Hpre.
    revert Hpre. unfold matched_text, match_after_fence. rewrite H1.
    cbn [lang code fence_end or_empty].
    destruct (startsWith rest fence) eqn:E; cbn [or_empty]; intros Hpre.
    + rewrite <- !app_assoc. do 4 f_equal.
      rewrite (startsWith_split _ _ E) at 1.
      replace (fence ++ info ++ newline :: fence ++ skipn (length fence) rest)
        with ((fence ++ info ++ [newline] ++ fence) ++ skipn (length fence) rest)
        by (now rewrite <- !app_assoc).
      rewrite skipn_app, skipn_all, Nat.sub_diag. reflexivity.
    + rewrite app_nil_r. rewrite <- !app_assoc. do 4 f_equal.
      replace (fence ++ info ++ newline :: rest)
        with ((fence ++ info ++ [newline]) ++ rest)
        by (now rewrite <- !app_assoc).
      rewrite skipn_app, skipn_all, Nat.sub_diag. reflexivity.
  - rewrite fixCodeBlocks_at_fence.
    unfold matched_text, match_after_fence. rewrite H2.
    cbn [lang code fence_end or_empty]. rewrite !app_nil_r.
    rewrite skipn_all. rewrite app_nil_r. reflexivity.
Qed.

End FencePass.

(** X2.  At three backticks followed by a line, the code-fence pass writes
    the fence, the line, its line break and a closing fence at once, and goes
    on with what follows, a fence standing right after the line break being
    taken for that closing fence: the body of a block comes after the fence
    that closes it.  At three backticks on a last line it appends a fence. *)
Theorem fixCodeBlocks_fence_line (info rest : jsstring) :
  ~ In newline info ->
  fixCodeBlocks (fence ++ info ++ newline :: rest) =
    fence ++ info ++ [newline] ++ fence
      ++ fixCodeBlocks (if startsWith rest fence then skipn 3 rest else rest)
  /\ fixCodeBlocks (fence ++ info) = fence ++ info ++ fence.
Proof. apply fixCodeBlocks_fence_step. Qed.

Section FencePassOnlyAdds.

Lemma fence_end_subseq (after : jsstring) :
  subseq N (or_empty (fence_end (match_after_fence after))) fence.
Proof.
  unfold match_after_fence. destruct (span_line after) as [l r].
  destruct r as [|x r]; simpl; [apply subseq_nil_l|].
  destruct (startsWith r fence); simpl;
    [apply subseq_refl | apply subseq_nil_l].
Qed.

Lemma fixCodeBlocks_subseq_upto (n : nat) :
  forall s, length s <= n -> subseq N s (fixCodeBlocks s).
Proof.
  induction n as [|n IH]; intros s Hn.
  - destruct s; [apply subseq_nil | simpl in Hn; lia].
  - destruct s as [|x s]; [apply subseq_nil|].
    destruct (startsWith (x :: s) fence) eqn:E.
    + rewrite (startsWith_split _ _ E) in *.
      set (after := skipn (length fence) (x :: s)) in *.
      rewrite fixCodeBlocks_at_fence.
      pose proof (matched_text_prefix after) as Hpre.
      set (m := match_after_fence after) in *.
      set (rest := skipn (length (matched_text m)) (fence ++ after)) in *.
      rewrite Hpre at 1. apply subseq_app.
      * unfold matched_text.
        repeat (apply subseq_app; [apply subseq_refl|]).
        apply fence_end_subseq.
      * apply IH.
        assert (length (fence ++ after) = length (matched_text m) + length rest)
          by (rewrite Hpre at 1; apply length_app).
        assert (3 <= length (matched_text m))
          by (unfold matched_text; rewrite length_app; simpl; lia).
        lia.
    + rewrite (fixCodeBlocks_no_fence _ _ E). apply subseq_take.
      apply IH. simpl in Hn. lia.
Qed.

Lemma fixCodeBlocks_subseq (s : jsstring) : subseq N s (fixCodeBlocks s).
Proof. apply (fixCodeBlocks_subseq_upto (length s)). lia. Qed.

End FencePassOnlyAdds.

(** X1.  [sanitizeMarkdown] only adds: the text it returns is the text it
    was given with code units inserted, so nothing of the text is lost or
    reordered, and the result is at least as long. *)
Theorem sanitizeMarkdown_only_adds (content : jsstring) :
  subseq N content (sanitizeMarkdown content)
  /\ length content <= length (sanitizeMarkdown content).
Proof.
  assert (H : subseq N content (sanitizeMarkdown content)).
  { unfold sanitizeMarkdown, sanitizeMarkdown_run.
    destruct content as [|c content]; [apply subseq_nil|].
    unfold sanitize_try. destruct (hasTableStart (c :: content)).
    - destruct (repairTables_returns (c :: content)) as [s Hs].
      rewrite Hs. simpl. eapply subseq_trans.
      + apply repairTables_subseq. exact Hs.
      + apply fixCodeBlocks_subseq.
    - simpl. apply fixCodeBlocks_subseq. }
  split; [exact H | apply subseq_length, H].
Qed.

(** ** Texts the table pass leaves alone, and a table at the end *)

Section TablePassCases.

Lemma forallb_Forall_not_pipe (l : list jsstring) :
  forallb (fun line => negb (isPipeLine (trim line))) l = true ->
  Forall (fun line => isPipeLine (trim line) = false) l.
Proof.
  intros H. rewrite forallb_forall in H. apply Forall_forall.
  intros x Hx. apply H in Hx. now apply negb_true_iff in Hx.
Qed.

Lemma forallb_Forall_not_blank (l : list jsstring) :
  forallb (fun line => negb (str_eqb (trim line) [])) l = true ->
  Forall (fun line => str_eqb (trim line) [] = false) l.
Proof.
  intros H. rewrite forallb_forall in H. apply Forall_forall.
  intros x Hx. apply H in Hx. now apply negb_true_iff in Hx.
Qed.

(** Lines outside a table are passed over. *)
Lemma table_loop_outside (pre tail : list jsstring) (fuel : nat)
    (st : TableState) :
  lines st = pre ++ tail ->
  inTable st = false ->
  Forall (fun line => isPipeLine (trim line) = false) pre ->
  table_loop (length pre + fuel) 0 st =
  table_loop fuel (Z.of_nat (length pre)) st.
Proof.
  intros Hl Hin Hpre.
  change 0%Z with (Z.of_nat (length (@nil jsstring))).
  rewrite (table_loop_inert st pre [] tail fuel); [reflexivity | exact Hl |].
  intros j line Hn. apply loop_body_outside with (raw := line).
  - rewrite Hl. apply (index_app_nth [] pre tail j line Hn).
  - exact Hin.
  - rewrite Forall_forall in Hpre. apply Hpre. eapply nth_error_In; eauto.
Qed.

(** The rows of a table whose header is at [k], after the row that follows
    the header. *)
Lemma loop_body_later_row (i k : Z) (l : list jsstring) (raw : jsstring)
    (divided : bool) :
  index l i = Some raw ->
  (k + 1 < i)%Z ->
  str_eqb (trim raw) [] = false ->
  loop_body i (mkTableState l true k true divided) =
  Normal (i, mkTableState l true k true divided).
Proof.
  intros Hraw Hk Hb. unfold loop_body, index_or_throw. simpl.
  rewrite Hraw. simpl.
  destruct (isPipeLine (trim raw)); simpl.
  - replace (i =? k)%Z with false by (symmetry; apply Z.eqb_neq; lia).
    simpl.
    replace (i =? k + 1)%Z with false by (symmetry; apply Z.eqb_neq; lia).
    reflexivity.
  - rewrite Hb. reflexivity.
Qed.

Lemma loop_body_divider (k : Z) (l : list jsstring) (raw : jsstring) :
  index l (k + 1) = Some raw ->
  dividerLike (trim raw) = true ->
  loop_body (k + 1) (mkTableState l true k true false) =
  Normal ((k + 1)%Z, mkTableState l true k true true).
Proof.
  intros Hraw Hd. unfold loop_body, index_or_throw. simpl.
  rewrite Hraw. simpl. unfold dividerLike in Hd.
  apply andb_prop in Hd as [Hp He]. rewrite Hp. simpl.
  replace (k + 1 =? k)%Z with false by (symmetry; apply Z.eqb_neq; lia).
  rewrite Z.eqb_refl, He. reflexivity.
Qed.

Lemma loop_body_blank_divided (i k : Z) (l : list jsstring) (raw : jsstring) :
  index l i = Some raw ->
  trim raw = [] ->
  loop_body i (mkTableState l true k true true) =
  Normal (i, mkTableState l false k false false).
Proof.
  intros Hraw Hb. unfold loop_body, index_or_throw. simpl.
  rewrite Hraw. simpl. rewrite Hb. reflexivity.
Qed.

End TablePassCases.

(** X3.  A text without backtick in which no line, trimmed, starts and ends
    with a pipe is returned as it is, whatever pipes and dashes it has. *)
Theorem sanitizeMarkdown_without_rows (content : jsstring) :
  includes content [backtick] = false ->
  forallb (fun line => negb (isPipeLine (trim line)))
    (split content [newline]) = true ->
  sanitizeMarkdown content = content.
Proof.
  intros Hbt Hrows. apply includes_single_false in Hbt.
  apply forallb_Forall_not_pipe in Hrows.
  unfold sanitizeMarkdown, sanitizeMarkdown_run.
  destruct content as [|c content]; [reflexivity|].
  set (text := c :: content) in *.
  unfold sanitize_try. destruct (hasTableStart text).
  - rewrite repairTables_unfold.
    set (lines0 := split text [newline]) in *.
    rewrite <- (Nat.add_0_r (length lines0)).
    rewrite (table_loop_outside lines0 [] 0 (initialTableState lines0));
      [| simpl; now rewrite app_nil_r | reflexivity | exact Hrows].
    change lines0 with (lines (initialTableState lines0)) at 1.
    rewrite table_loop_done. simpl.
    unfold lines0. rewrite join_split.
    f_equal. apply fixCodeBlocks_clean. exact Hbt.
  - simpl. f_equal. apply fixCodeBlocks_clean. exact Hbt.
Qed.

Lemma sanitizeMarkdown_without_rows_witness :
  sanitizeMarkdown (js "a | b --- c" ++ [newline] ++ js "| not closed")
  = js "a | b --- c" ++ [newline] ++ js "| not closed".
Proof.
  apply sanitizeMarkdown_without_rows; reflexivity.
Defined.

Section TableAtEnd.

Variables (pre body : list jsstring) (h : jsstring).

Hypothesis pre_outside : Forall (fun l => isPipeLine (trim l) = false) pre.
Hypothesis h_header : isPipeLine (trim h) = true.
Hypothesis body_rows : Forall (fun l => str_eqb (trim l) [] = false) body.
Hypothesis body_no_divider : dividerLike (trim (hd [] body)) = false.

(** A table that runs to the end of the text gets its divider in the step
    after the loop. *)
Lemma table_pass_at_end :
  (st <- table_loop (length (pre ++ h :: body)) 0
           (initialTableState (pre ++ h :: body)) ;;
   finish_tables st)
  = Normal (pre ++ h :: dividerFor h :: body).
Proof.
  set (lines0 := pre ++ h :: body).
  replace (length lines0) with (length pre + S (length body + 0))
    by (unfold lines0; rewrite length_app; simpl; lia).
  rewrite (table_loop_outside pre (h :: body));
    [| reflexivity | reflexivity | exact pre_outside].
  rewrite table_loop_step
    by (simpl; unfold lines0; rewrite length_app; simpl; lia).
  unfold initialTableState.
  rewrite (loop_body_header (Z.of_nat (length pre)) (-1) lines0 h);
    [| apply index_app_middle | exact h_header].
  simpl bind. simpl fst. simpl snd.
  replace (Z.of_nat (length pre) + 1)%Z with (Z.of_nat (length (pre ++ [h])))
    by (rewrite length_app; simpl; lia).
  rewrite (table_loop_inert _ body (pre ++ [h]) [] 0).
  2:{ simpl. unfold lines0. rewrite app_nil_r, <- app_assoc. reflexivity. }
  2:{ intros j line Hn. apply loop_body_row with (raw := line).
      - simpl lines. unfold lines0.
        replace (pre ++ h :: body) with ((pre ++ [h]) ++ body ++ [])
          by (rewrite app_nil_r, <- app_assoc; reflexivity).
        apply index_app_nth. exact Hn.
      - rewrite length_app. simpl. lia.
      - rewrite Forall_forall in body_rows. apply body_rows.
        eapply nth_error_In; eauto.
      - intros E. rewrite length_app in E. simpl in E.
        assert (j = 0) by lia. subst j.
        destruct body as [|row body']; [discriminate|].
        simpl in Hn. inversion Hn; subst. exact body_no_divider. }
  replace (Z.of_nat (length (pre ++ [h]) + length body))
    with (Z.of_nat (length (lines
                          (mkTableState lines0 true (Z.of_nat (length pre))
                             true false))))
    by (simpl; unfold lines0; rewrite !length_app; simpl; lia).
  rewrite table_loop_done. simpl bind.
  unfold finish_tables. simpl.
  rewrite (make_divider_at _ h) by (simpl; apply index_app_middle).
  simpl. f_equal. unfold lines0.
  replace (pre ++ h :: body) with ((pre ++ [h]) ++ body)
    by (rewrite <- app_assoc; reflexivity).
  replace (Z.of_nat (length pre) + 1)%Z with (Z.of_nat (length (pre ++ [h])))
    by (rewrite length_app; simpl; lia).
  rewrite splice_insert_app, <- app_assoc. reflexivity.
Qed.

End TableAtEnd.

(** X5.  In a text with a pipe and three dashes in a row, a header that
    comes after lines that are no table rows, and whose rows, none blank and
    the first not made of dashes and pipes only, run to the end of the text,
    gets its divider row right after it. *)
Theorem sanitizeMarkdown_table_at_end
    (content : jsstring) (pre body : list jsstring) (h : jsstring) :
  hasTableStart content = true ->
  split content [newline] = pre ++ h :: body ->
  forallb (fun l => negb (isPipeLine (trim l))) pre = true ->
  isPipeLine (trim h) = true ->
  forallb (fun l => negb (str_eqb (trim l) [])) body = true ->
  dividerLike (trim (hd [] body)) = false ->
  sanitizeMarkdown content =
  fixCodeBlocks
    (join [newline]
       (pre ++ h
            :: (pipe :: repeat_str (js " --- |") (Nat.max 1 (pipes h - 1)))
            :: body)).
Proof.
  intros Hgate Hsplit Hpre Hh Hbody Hdiv.
  pose proof (table_pass_at_end pre body h
                (forallb_Forall_not_pipe _ Hpre) Hh
                (forallb_Forall_not_blank _ Hbody) Hdiv) as Hrun.
  rewrite <- Hsplit in Hrun. rewrite <- dividerFor_cells.
  unfold sanitizeMarkdown, sanitizeMarkdown_run.
  destruct content as [|c content]; [discriminate|].
  unfold sanitize_try. rewrite Hgate, repairTables_unfold.
  destruct (table_loop _ 0 _) as [st| |]; try discriminate.
  simpl in Hrun |- *. rewrite Hrun. reflexivity.
Qed.

Lemma sanitizeMarkdown_table_at_end_witness :
  sanitizeMarkdown
    (js "| A | B |" ++ [newline] ++ js "| 1 | 2 |" ++ [newline] ++ js "|---")
  = js "| A | B |" ++ [newline] ++ js "| --- | --- |" ++ [newline]
      ++ js "| 1 | 2 |" ++ [newline] ++ js "|---".
Proof.
  rewrite (sanitizeMarkdown_table_at_end
             (js "| A | B |" ++ [newline] ++ js "| 1 | 2 |" ++ [newline]
                ++ js "|---")
             [] [js "| 1 | 2 |"; js "|---"] (js "| A | B |"));
    reflexivity.
Defined.

Section DividedTable.

Variables (pre body rest : list jsstring) (h d blank : jsstring).

Hypothesis pre_outside : Forall (fun l => isPipeLine (trim l) = false) pre.
Hypothesis h_header : isPipeLine (trim h) = true.
Hypothesis d_divider : dividerLike (trim d) = true.
Hypothesis body_rows : Forall (fun l => str_eqb (trim l) [] = false) body.
Hypothesis blank_blank : trim blank = [].
Hypothesis rest_outside : Forall (fun l => isPipeLine (trim l) = false) rest.

(** A table whose second row is made of dashes and pipes only is left as it
    is by the loop and by the step after it. *)
Lemma table_pass_divided :
  (st <- table_loop (length (pre ++ h :: d :: body ++ blank :: rest)) 0
           (initialTableState (pre ++ h :: d :: body ++ blank :: rest)) ;;
   finish_tables st)
  = Normal (pre ++ h :: d :: body ++ blank :: rest).
Proof.
  set (lines0 := pre ++ h :: d :: body ++ blank :: rest).
  assert (Hlen : length lines0 = length pre + length body + length rest + 3).
  { unfold lines0. rewrite length_app. simpl. rewrite length_app. simpl. lia. }
  replace (length lines0)
    with (length pre + S (S (length body + S (length rest + 0))))
    by lia.
  rewrite (table_loop_outside pre (h :: d :: body ++ blank :: rest));
    [| reflexivity | reflexivity | exact pre_outside].
  (* the header *)
  rewrite table_loop_step by (simpl; lia).
  unfold initialTableState.
  rewrite (loop_body_header (Z.of_nat (length pre)) (-1) lines0 h);
    [| apply index_app_middle | exact h_header].
  cbn [bind fst snd].
  (* the divider row *)
  rewrite table_loop_step by (simpl; lia).
  rewrite (loop_body_divider (Z.of_nat (length pre)) lines0 d).
  2:{ replace (Z.of_nat (length pre) + 1)%Z
        with (Z.of_nat (length (pre ++ [h])))
        by (rewrite length_app; simpl; lia).
      unfold lines0.
      replace (pre ++ h :: d :: body ++ blank :: rest)
        with ((pre ++ [h]) ++ d :: body ++ blank :: rest)
        by (rewrite <- app_assoc; reflexivity).
      apply index_app_middle. }
  2:{ exact d_divider. }
  cbn [bind fst snd].
  (* the rows *)
  replace (Z.of_nat (length pre) + 1 + 1)%Z
    with (Z.of_nat (length (pre ++ [h; d])))
    by (rewrite length_app; simpl; lia).
  rewrite (table_loop_inert _ body (pre ++ [h; d]) (blank :: rest)).
  2:{ simpl. unfold lines0. rewrite <- app_assoc. reflexivity. }
  2:{ intros j line Hn. apply loop_body_later_row with (raw := line).
      - unfold lines0.
        replace (pre ++ h :: d :: body ++ blank :: rest)
          with ((pre ++ [h; d]) ++ body ++ blank :: rest)
          by (rewrite <- app_assoc; reflexivity).
        apply index_app_nth. exact Hn.
      - rewrite length_app. simpl. lia.
      - rewrite Forall_forall in body_rows. apply body_rows.
        eapply nth_error_In; eauto. }
  (* the blank line *)
  rewrite table_loop_step by (simpl; rewrite length_app; simpl; lia).
  rewrite (loop_body_blank_divided _ (Z.of_nat (length pre)) lines0 blank).
  2:{ unfold lines0.
      replace (pre ++ h :: d :: body ++ blank :: rest)
        with (((pre ++ [h; d]) ++ body) ++ blank :: rest)
        by (rewrite <- !app_assoc; reflexivity).
      rewrite <- length_app. apply index_app_middle. }
  2:{ exact blank_blank. }
  cbn [bind fst snd].
  (* the lines after it *)
  replace (Z.of_nat (length (pre ++ [h; d]) + length body) + 1)%Z
    with (Z.of_nat (length (pre ++ h :: d :: body ++ [blank])))
    by (rewrite !length_app; simpl; rewrite length_app; simpl; lia).
  rewrite (table_loop_inert _ rest (pre ++ h :: d :: body ++ [blank]) []).
  2:{ simpl. unfold lines0. rewrite app_nil_r, <- !app_assoc. simpl.
      rewrite <- app_assoc. reflexivity. }
  2:{ intros j line Hn. apply loop_body_outside with (raw := line).
      - simpl lines. unfold lines0.
        replace (pre ++ h :: d :: body ++ blank :: rest)
          with ((pre ++ h :: d :: body ++ [blank]) ++ rest ++ [])
          by (rewrite app_nil_r, <- !app_assoc; simpl;
              rewrite <- app_assoc; reflexivity).
        apply index_app_nth. exact Hn.
      - reflexivity.
      - rewrite Forall_forall in rest_outside. apply rest_outside.
        eapply nth_error_In; eauto. }
  replace (Z.of_nat (length (pre ++ h :: d :: body ++ [blank]) + length rest))
    with (Z.of_nat (length (lines
                          (mkTableState lines0 false (Z.of_nat (length pre))
                             false false))))
    by (simpl lines; rewrite Hlen, !length_app; simpl; rewrite length_app;
        simpl; lia).
  rewrite table_loop_done. reflexivity.
Qed.

End DividedTable.

(** X4.  A text with a single table whose second row, trimmed, starts and
    ends with a pipe and holds dashes and pipes only, and which a blank line
    ends, leaves the table pass as it came, so that only the pass on code
    fences can change it; without backtick it is returned as it is. *)
Theorem sanitizeMarkdown_keeps_divided_table
    (content : jsstring) (pre body rest : list jsstring) (h d blank : jsstring) :
  split content [newline] = pre ++ h :: d :: body ++ blank :: rest ->
  forallb (fun l => negb (isPipeLine (trim l))) pre = true ->
  isPipeLine (trim h) = true ->
  dividerLike (trim d) = true ->
  forallb (fun l => negb (str_eqb (trim l) [])) body = true ->
  trim blank = [] ->
  forallb (fun l => negb (isPipeLine (trim l))) rest = true ->
  sanitizeMarkdown content = fixCodeBlocks content
  /\ (includes content [backtick] = false -> sanitizeMarkdown content = content).
Proof.
  intros Hsplit Hpre Hh Hd Hbody Hblank Hrest.
  pose proof (table_pass_divided pre body rest h d blank
                (forallb_Forall_not_pipe _ Hpre) Hh Hd
                (forallb_Forall_not_blank _ Hbody) Hblank
                (forallb_Forall_not_pipe _ Hrest)) as Hrun.
  rewrite <- Hsplit in Hrun.
  assert (Hsan : sanitizeMarkdown content = fixCodeBlocks content).
  { unfold sanitizeMarkdown, sanitizeMarkdown_run.
    destruct content as [|c content]; [reflexivity|].
    set (text := c :: content) in *.
    unfold sanitize_try. destruct (hasTableStart text); [|reflexivity].
    rewrite repairTables_unfold.
    destruct (table_loop _ 0 _) as [st| |]; try discriminate.
    simpl in Hrun |- *. rewrite Hrun. simpl. rewrite join_split. reflexivity. }
  split; [exact Hsan|].
  intros Hbt. rewrite Hsan. apply fixCodeBlocks_clean.
  apply includes_single_false. exact Hbt.
Qed.

Lemma sanitizeMarkdown_keeps_divided_table_witness :
  sanitizeMarkdown
    (js "| A | B |" ++ [newline] ++ js "|---|---|" ++ [newline]
       ++ js "| 1 | 2 |" ++ [newline] ++ [newline] ++ js "end")
  = js "| A | B |" ++ [newline] ++ js "|---|---|" ++ [newline]
      ++ js "| 1 | 2 |" ++ [newline] ++ [newline] ++ js "end".
Proof.
  apply (proj2 (sanitizeMarkdown_keeps_divided_table
                  (js "| A | B |" ++ [newline] ++ js "|---|---|" ++ [newline]
                     ++ js "| 1 | 2 |" ++ [newline] ++ [newline] ++ js "end")
                  [] [js "| 1 | 2 |"] [js "end"]
                  (js "| A | B |") (js "|---|---|") []
                  eq_refl eq_refl eq_refl eq_refl eq_refl eq_refl eq_refl)).
  reflexivity.
Defined.

Lemma fixCodeBlocks_fence_line_witness :
  fixCodeBlocks (fence ++ js "python" ++ newline :: js "print(1)")
  = fence ++ js "python" ++ [newline] ++ fence ++ js "print(1)".
Proof.
  rewrite (proj1 (fixCodeBlocks_fence_line (js "python") (js "print(1)")
                    ltac:(simpl; intuition discriminate))).
  reflexivity.
Defined.

(** ** [sendMessage]: what leaves a reader behind, and what is thrown *)

(** X6.  [sendMessage] leaves a reader in the background only on the
    streaming path, after a request answered with a status from 200 to 299
    and a body, and then it settles with the placeholder; a send that is
    rejected leaves none. *)
Theorem sendMessage_reader_only_with_placeholder
    (St : Type) (server : Server) (now chatId : Z) (message : MessageFormData)
    (options : option (StreamingOptions St)) (task : ReaderTask St) :
  snd (sendMessage server now chatId message options) = Some task ->
  fst (sendMessage server now chatId message options)
    = Normal (placeholderMessage now chatId)
  /\ options = Some (task_options task)
  /\ streaming (task_options task) = true
  /\ exists response,
       fetch server chatId message = Normal response
       /\ ok response = true
       /\ body response = Some (task_body task).
Proof.
  unfold sendMessage. destruct options as [o|]; [|discriminate].
  destruct (streaming o) eqn:Hs; simpl; [|discriminate].
  destruct (fetch server chatId message) as [response| |] eqn:Hf;
    try discriminate.
  destruct (ok response) eqn:Hok; simpl; [|discriminate].
  destruct (body response) as [b|] eqn:Hb; [|discriminate].
  simpl. intros H. inversion H; subst. simpl.
  repeat split; auto. exists response. auto.
Qed.

Lemma sendMessage_reader_only_with_placeholder_witness :
  fst (sendMessage streamingServer 1000 7 hello (Some recorder))
    = Normal (placeholderMessage 1000 7)
  /\ Some recorder = Some (task_options (mkReaderTask recorder helloBody))
  /\ streaming (task_options (mkReaderTask recorder helloBody)) = true
  /\ exists response,
       fetch streamingServer 7 hello = Normal response
       /\ ok response = true
       /\ body response = Some (task_body (mkReaderTask recorder helloBody)).
Proof.
  apply (sendMessage_reader_only_with_placeholder (list Signal)
           streamingServer 1000 7 hello (Some recorder)
           (mkReaderTask recorder helloBody)).
  reflexivity.
Defined.

(** X7.  A streaming send that is rejected after the server answered throws
    a plain [Error] whose text is made from the status alone, or says that
    the body is missing; no reader is left.  To the error helpers it is no
    axios error: it is neither a model API error nor a database error, it
    has no request id, and its message is that text, whatever the server
    put in its answer. *)
Theorem streaming_send_failure_is_plain_error
    (NumberToString : jsstring -> jsstring) (NumberIsZero : jsstring -> bool)
    (St : Type) (server : Server) (now chatId : Z) (message : MessageFormData)
    (o : StreamingOptions St) (response : Response) (e : JsError) :
  streaming o = true ->
  fetch server chatId message = Normal response ->
  fst (sendMessage server now chatId message (Some o)) = Throw e ->
  let text :=
    if ok response then js "No response body received"
    else js "Server error: " ++ decimal (status response) in
  snd (sendMessage server now chatId message (Some o)) = None
  /\ e = Error text
  /\ exists c,
       caught e = Some c
       /\ isModelApiError c = false
       /\ isDatabaseError c = false
       /\ getRequestId c = None
       /\ getErrorMessage NumberToString NumberIsZero c = Normal text.
Proof.
  intros Hs Hf. unfold sendMessage. rewrite Hs, Hf. simpl.
  destruct (ok response); simpl.
  - destruct (body response); simpl; [discriminate|].
    intros H. inversion H; subst. split; [reflexivity|].
    split; [reflexivity|]. eexists. repeat split.
  - intros H. inversion H; subst. split; [reflexivity|].
    split; [reflexivity|]. eexists. repeat split.
Qed.

Lemma streaming_send_failure_is_plain_error_witness :
  let server :=
    mkServer (fun _ _ => Throw NetworkError)
             (fun _ _ => Normal (mkResponse 502 (Some helloBody))) in
  snd (sendMessage server 1000 7 hello (Some recorder)) = None
  /\ Error (js "Server error: 502") = Error (js "Server error: 502")
  /\ exists c,
       caught (Error (js "Server error: 502")) = Some c
       /\ isModelApiError c = false
       /\ isDatabaseError c = false
       /\ getRequestId c = None
       /\ getErrorMessage (fun lit => lit) (fun _ => false) c
          = Normal (js "Server error: 502").
Proof.
  exact (streaming_send_failure_is_plain_error (fun lit => lit)
           (fun _ => false) (list Signal)
           (mkServer (fun _ _ => Throw NetworkError)
              (fun _ _ => Normal (mkResponse 502 (Some helloBody))))
           1000 7 hello recorder (mkResponse 502 (Some helloBody))
           (Error (js "Server error: 502")) eq_refl eq_refl eq_refl).
Defined.

(** ** The reader takes each read by itself *)

Section Framing.

Local Abbreviation sep := [newline; newline].

Lemma split_go_event_open (s : jsstring) :
  forall cur, ~ In newline s -> split_go sep 0 cur s = [rev cur ++ s].
Proof.
  induction s as [|x s IH]; intros cur Hn.
  - simpl. rewrite app_nil_r. reflexivity.
  - cbn [split_go].
    assert (Hx : N.eqb x newline = false).
    { apply N.eqb_neq. intros ->. apply Hn. left. reflexivity. }
    cbn [startsWith]. rewrite Hx. cbn [andb].
    rewrite IH by (intros H; apply Hn; right; exact H).
    simpl. rewrite <- app_assoc. reflexivity.
Qed.

Lemma split_go_event_closed (s : jsstring) :
  forall cur,
    ~ In newline s -> split_go sep 0 cur (s ++ sep) = [rev cur ++ s; []].
Proof.
  induction s as [|x s IH]; intros cur Hn.
  - simpl. rewrite app_nil_r. reflexivity.
  - change ((x :: s) ++ sep) with (x :: (s ++ sep)). cbn [split_go].
    assert (Hx : N.eqb x newline = false).
    { apply N.eqb_neq. intros ->. apply Hn. left. reflexivity. }
    cbn [startsWith]. rewrite Hx. cbn [andb].
    rewrite IH by (intros H; apply Hn; right; exact H).
    simpl. rewrite <- app_assoc. reflexivity.
Qed.

Lemma data_prefix_clean (p : jsstring) :
  ~ In newline p -> ~ In newline (js "data: " ++ p).
Proof.
  intros Hn H. apply in_app_or in H as [H|H]; [|exact (Hn H)].
  simpl in H. unfold newline in H.
  repeat (destruct H as [H|H]; [discriminate|]). exact H.
Qed.

Lemma payloadsOfChunk_open (p : jsstring) :
  ~ In newline p -> p <> [] -> payloadsOfChunk (js "data: " ++ p) = [p].
Proof.
  intros Hn Hp. unfold payloadsOfChunk, split.
  rewrite split_go_event_open by (apply data_prefix_clean; exact Hn).
  simpl. destruct p; [contradiction|reflexivity].
Qed.

Lemma payloadsOfChunk_closed (p : jsstring) :
  ~ In newline p -> p <> [] ->
  payloadsOfChunk (js "data: " ++ p ++ sep) = [p].
Proof.
  intros Hn Hp. unfold payloadsOfChunk, split.
  rewrite app_assoc.
  rewrite split_go_event_closed by (apply data_prefix_clean; exact Hn).
  simpl. destruct p; [contradiction|reflexivity].
Qed.

Lemma payloadsOfChunk_tail (p : jsstring) :
  ~ In newline p -> startsWith p (js "data: ") = false ->
  payloadsOfChunk (p ++ sep) = [].
Proof.
  intros Hn Hp. unfold payloadsOfChunk, split.
  rewrite split_go_event_closed by exact Hn.
  simpl. unfold payloadOfLine at 1. rewrite Hp. reflexivity.
Qed.

End Framing.

(** X9.  The reader splits the text of each read by itself and keeps nothing
    from one read to the next: of an event that arrives in two reads, the
    handler gets the part in the first read as a payload of its own, and the
    rest, which no longer starts with the field name, is dropped; the same
    event in one read gives the whole payload. *)
Theorem reader_frames_each_read (p1 p2 : jsstring) :
  ~ In newline p1 ->
  ~ In newline p2 ->
  p1 <> [] ->
  startsWith p2 (js "data: ") = false ->
  payloads [js "data: " ++ p1; p2 ++ [newline; newline]] = [p1]
  /\ payloads [js "data: " ++ (p1 ++ p2) ++ [newline; newline]] = [p1 ++ p2]
  /\ signals (mkBody [js "data: " ++ p1; p2 ++ [newline; newline]] EndOfInput)
     = [Chunk p1; Completed]
  /\ signals (mkBody [js "data: " ++ (p1 ++ p2) ++ [newline; newline]]
                EndOfInput)
     = [Chunk (p1 ++ p2); Completed].
Proof.
  intros H1 H2 Hne Hp2.
  assert (H12 : ~ In newline (p1 ++ p2)).
  { intros H. apply in_app_or in H as [H|H]; auto. }
  assert (Hne12 : p1 ++ p2 <> []).
  { destruct p1; [contradiction|discriminate]. }
  assert (Ha : payloads [js "data: " ++ p1; p2 ++ [newline; newline]] = [p1]).
  { unfold payloads. cbn [flat_map].
    rewrite (payloadsOfChunk_open p1 H1 Hne), (payloadsOfChunk_tail p2 H2 Hp2).
    reflexivity. }
  assert (Hb : payloads [js "data: " ++ (p1 ++ p2) ++ [newline; newline]]
               = [p1 ++ p2]).
  { unfold payloads. cbn [flat_map].
    rewrite (payloadsOfChunk_closed (p1 ++ p2) H12 Hne12). reflexivity. }
  split; [exact Ha|]. split; [exact Hb|].
  rewrite !signals_of_stream. cbn [chunks ending]. rewrite Ha, Hb.
  split; reflexivity.
Qed.

Lemma reader_frames_each_read_witness :
  payloads [js "data: Hel"; js "lo" ++ [newline; newline]] = [js "Hel"]
  /\ payloads [js "data: " ++ (js "Hel" ++ js "lo") ++ [newline; newline]]
     = [js "Hel" ++ js "lo"]
  /\ signals (mkBody [js "data: Hel"; js "lo" ++ [newline; newline]] EndOfInput)
     = [Chunk (js "Hel"); Completed]
  /\ signals (mkBody [js "data: " ++ (js "Hel" ++ js "lo")
                         ++ [newline; newline]] EndOfInput)
     = [Chunk (js "Hel" ++ js "lo"); Completed].
Proof.
  apply (reader_frames_each_read (js "Hel") (js "lo")).
  - simpl. unfold newline. intuition discriminate.
  - simpl. unfold newline. intuition discriminate.
  - discriminate.
  - reflexivity.
Defined.

(** X10.  Whatever the stream holds and whatever ends it, the end of the
    input or a failed read, when the reader has run with the callbacks of
    the chat page the page is no longer typing and shows no provisional
    entry, and the list of messages has gained at most one entry, made from
    the draft the completion callback closed over when the send started and
    not from what the stream brought. *)
Theorem readStream_chat_callbacks
    (NumberToString : jsstring -> jsstring) (finalMessage : jsstring)
    (dateNow now chatId : Z) (b : Body) (st : ChatState) :
  exists st',
    readStream (streamingOptions NumberToString finalMessage dateNow now chatId)
      b (Normal st) = Normal st'
    /\ isTyping st' = false
    /\ provisionalEntries st' = []
    /\ localMessages st' =
       localMessages st ++ completionEntry dateNow now chatId finalMessage.
Proof.
  destruct (readStream_callbacks_run NumberToString finalMessage dateNow now
              chatId b st) as (st' & Hr & _ & Ht & _ & Hl & _).
  exists st'. repeat split; auto.
  unfold provisionalEntries. rewrite Ht. reflexivity.
Qed.

(** ** A send, from the input to the end of the stream *)

Section Sends.

Variable NumberToString : jsstring -> jsstring.
Variable toLowerCase : jsstring -> jsstring.
Variable server : Server.
Variables (profile_url profile_model_name : jsstring) (chatId : Z).

Lemma mutate_streaming (clock : Clock) (message : MessageFormData) (p : Page)
    (response : Response) (b : Body) :
  streamingEnabled (component p) = true ->
  isOllamaApi toLowerCase profile_url = true ->
  fetch server chatId message = Normal response ->
  ok response = true ->
  body response = Some b ->
  mutate NumberToString toLowerCase server profile_url chatId clock message p
  = (mkPage
       (mkChatState true true []
          (localMessages (component p)
             ++ [optimisticMessage clock chatId (form_content message)])
          (effects (component p)))
       [] (markdownEnabled p) (invalidated p),
     Some (mkReaderTask
             (streamingOptions NumberToString (streamingMessage (component p))
                (completeDateNow clock) (completeNow clock) chatId)
             b)).
Proof.
  intros Hs Ho Hf Hok Hb. unfold mutate, mutationFn. simpl.
  rewrite Hs, Ho. simpl. unfold sendMessage. simpl.
  rewrite Hf, Hok. simpl. rewrite Hb. simpl. rewrite Hs.
  unfold setStreamingMessage, setLocalMessages, setIsTyping. simpl.
  rewrite Hs. reflexivity.
Qed.

(** Every send shows the user's message at once. *)
Lemma mutate_local (clock : Clock) (message : MessageFormData) (p : Page) :
  post server chatId message <> OutOfFuel ->
  fetch server chatId message <> OutOfFuel ->
  localMessages
    (component
       (fst (mutate NumberToString toLowerCase server profile_url chatId clock
               message p)))
  = localMessages (component p)
      ++ [optimisticMessage clock chatId (form_content message)].
Proof.
  intros Hp Hf. unfold mutate, mutationFn. simpl.
  destruct (streamingEnabled (component p)
            && isOllamaApi toLowerCase profile_url) eqn:E; simpl.
  - unfold sendMessage. simpl.
    destruct (fetch server chatId message) as [response| |]; simpl;
      [| reflexivity | contradiction].
    destruct (ok response); simpl; [|reflexivity].
    destruct (body response); simpl; [|reflexivity].
    destruct (streamingEnabled (component p)); reflexivity.
  - destruct (post server chatId message); simpl;
      [| reflexivity | contradiction].
    destruct (streamingEnabled (component p)); reflexivity.
Qed.

Lemma handleSendMessage_local (clock : Clock) (p : Page) :
  trim (input p) <> [] ->
  (forall m, post server chatId m <> OutOfFuel) ->
  (forall m, fetch server chatId m <> OutOfFuel) ->
  localMessages
    (component
       (fst (handleSendMessage NumberToString toLowerCase server profile_url
               profile_model_name chatId clock p)))
  = localMessages (component p)
      ++ [optimisticMessage clock chatId
            (messageContent toLowerCase profile_model_name
               (markdownEnabled p) (input p))].
Proof.
  intros Hne Hp Hf. unfold handleSendMessage.
  destruct (str_eqb (trim (input p)) []) eqn:E.
  - apply str_eqb_eq in E. contradiction.
  - rewrite mutate_local by auto. reflexivity.
Qed.

End Sends.

(** X11.  A streaming send on an Ollama profile, followed to the end of its
    stream: the page starts typing with an empty draft, the input cleared
    and the user's message shown; when the stream is over the draft holds
    [undefined] once for each payload, and the assistant entry the
    completion adds is made from the draft that was on the page when the
    send started.  With no draft left from before, nothing is added for the
    answer, however much was streamed. *)
Theorem streaming_send_completes_with_stale_draft
    (NumberToString toLowerCase : jsstring -> jsstring) (server : Server)
    (profile_url : jsstring) (chatId : Z) (clock : Clock)
    (message : MessageFormData) (p : Page) (response : Response) (b : Body) :
  streamingEnabled (component p) = true ->
  isOllamaApi toLowerCase profile_url = true ->
  fetch server chatId message = Normal response ->
  ok response = true ->
  body response = Some b ->
  exists p1 task st',
    mutate NumberToString toLowerCase server profile_url chatId clock message p
    = (p1, Some task)
    /\ input p1 = []
    /\ isTyping (component p1) = true
    /\ streamingMessage (component p1) = []
    /\ readStream (task_options task) (task_body task) (Normal (component p1))
       = Normal st'
    /\ streamingMessage st' = undefinedFor (payloads (chunks b))
    /\ isTyping st' = false
    /\ localMessages st' =
       localMessages (component p)
         ++ [optimisticMessage clock chatId (form_content message)]
         ++ completionEntry (completeDateNow clock) (completeNow clock) chatId
              (streamingMessage (component p))
    /\ (streamingMessage (component p) = [] ->
        localMessages st' =
        localMessages (component p)
          ++ [optimisticMessage clock chatId (form_content message)]).
Proof.
  intros Hs Ho Hf Hok Hb.
  rewrite (mutate_streaming NumberToString toLowerCase server profile_url
             chatId clock message p response b Hs Ho Hf Hok Hb).
  destruct (readStream_callbacks_run NumberToString
              (streamingMessage (component p)) (completeDateNow clock)
              (completeNow clock) chatId b
              (mkChatState true true []
                 (localMessages (component p)
                    ++ [optimisticMessage clock chatId (form_content message)])
                 (effects (component p))))
    as (st' & Hr & Hm & Ht & _ & Hl & _).
  do 2 eexists. exists st'.
  split; [reflexivity|]. simpl.
  repeat split; auto.
  - rewrite Hl. simpl. rewrite <- app_assoc. reflexivity.
  - intros Hd. rewrite Hl, Hd. simpl. apply app_nil_r.
Qed.

Lemma streaming_send_completes_with_stale_draft_witness :
  exists p1 task st',
    mutate (fun lit => lit) lowerAscii streamingServer ollamaUrl 7 clock0 hello
      (pageWith false (js "Earlier answer") (js "Hi"))
    = (p1, Some task)
    /\ input p1 = []
    /\ isTyping (component p1) = true
    /\ streamingMessage (component p1) = []
    /\ readStream (task_options task) (task_body task) (Normal (component p1))
       = Normal st'
    /\ streamingMessage st' = undefinedFor (payloads (chunks helloBody))
    /\ isTyping st' = false
    /\ localMessages st' =
       localMessages (component (pageWith false (js "Earlier answer") (js "Hi")))
         ++ [optimisticMessage clock0 7 (form_content hello)]
         ++ completionEntry (completeDateNow clock0) (completeNow clock0) 7
              (streamingMessage
                 (component (pageWith false (js "Earlier answer") (js "Hi"))))
    /\ (streamingMessage
          (component (pageWith false (js "Earlier answer") (js "Hi"))) = [] ->
        localMessages st' =
        localMessages (component (pageWith false (js "Earlier answer") (js "Hi")))
          ++ [optimisticMessage clock0 7 (form_content hello)]).
Proof.
  exact (streaming_send_completes_with_stale_draft (fun lit => lit) lowerAscii
           streamingServer ollamaUrl 7 clock0 hello
           (pageWith false (js "Earlier answer") (js "Hi"))
           (mkResponse 200 (Some helloBody)) helloBody
           eq_refl eq_refl eq_refl eq_refl eq_refl).
Defined.

(** X12.  A send that is rejected leaves the page not typing, the input as
    it was and no reader; the user's message, shown before the request was
    made, stays in the list, and on the streaming path the draft has been
    cleared. *)
Theorem failed_send_keeps_optimistic_message
    (NumberToString toLowerCase : jsstring -> jsstring) (server : Server)
    (profile_url : jsstring) (chatId : Z) (clock : Clock)
    (message : MessageFormData) (p : Page) (e : JsError) :
  fst (fst (mutationFn NumberToString toLowerCase server profile_url chatId
              clock message (setIsTyping true (component p)))) = Throw e ->
  mutate NumberToString toLowerCase server profile_url chatId clock message p
  = (mkPage
       (mkChatState false (streamingEnabled (component p))
          (if streamingEnabled (component p)
              && isOllamaApi toLowerCase profile_url
           then [] else streamingMessage (component p))
          (localMessages (component p)
             ++ [optimisticMessage clock chatId (form_content message)])
          (effects (component p)))
       (input p) (markdownEnabled p) (invalidated p),
     None).
Proof.
  unfold mutate, mutationFn. simpl.
  destruct (streamingEnabled (component p)
            && isOllamaApi toLowerCase profile_url); simpl.
  - unfold sendMessage. simpl.
    destruct (fetch server chatId message) as [response| |]; simpl;
      try discriminate.
    + destruct (ok response); simpl.
      * destruct (body response); simpl; [discriminate|]. reflexivity.
      * reflexivity.
    + reflexivity.
  - destruct (post server chatId message); simpl; try discriminate.
    reflexivity.
Qed.

Lemma failed_send_keeps_optimistic_message_witness :
  mutate (fun lit => lit) lowerAscii failingServer ollamaUrl 7 clock0 hello
    (pageWith false (js "Earlier answer") (js "Hi"))
  = (mkPage
       (mkChatState false true []
          ([persisted1] ++ [optimisticMessage clock0 7 (js "Hi")]) [])
       (js "Hi") true 0,
     None).
Proof.
  exact (failed_send_keeps_optimistic_message (fun lit => lit) lowerAscii
           failingServer ollamaUrl 7 clock0 hello
           (pageWith false (js "Earlier answer") (js "Hi"))
           NetworkError eq_refl).
Defined.

(** X13.  After a send that did not stream and was answered, the page is
    typing exactly when the streaming switch is on: with the switch on and a
    profile that is not an Ollama one, the page stays typing and the
    messages are not invalidated.  The answer itself is not put in the
    list. *)
Theorem plain_send_leaves_typing_as_switch
    (NumberToString toLowerCase : jsstring -> jsstring) (server : Server)
    (profile_url : jsstring) (chatId : Z) (clock : Clock)
    (message : MessageFormData) (p : Page) (reply : Message) :
  streamingEnabled (component p) && isOllamaApi toLowerCase profile_url
    = false ->
  post server chatId message = Normal reply ->
  mutate NumberToString toLowerCase server profile_url chatId clock message p
  = (mkPage
       (mkChatState (streamingEnabled (component p))
          (streamingEnabled (component p))
          (streamingMessage (component p))
          (localMessages (component p)
             ++ [optimisticMessage clock chatId (form_content message)])
          (effects (component p)))
       [] (markdownEnabled p)
       (if streamingEnabled (component p) then invalidated p
        else S (invalidated p)),
     None).
Proof.
  intros Hs Hp. unfold mutate, mutationFn. simpl. rewrite Hs. simpl.
  rewrite Hp. simpl.
  destruct (streamingEnabled (component p)) eqn:E;
    unfold setLocalMessages, setIsTyping; simpl; rewrite ?E; reflexivity.
Qed.

Lemma plain_send_leaves_typing_as_switch_witness :
  mutate (fun lit => lit) lowerAscii plainServer
    (js "https://api.example.com/v1/chat") 7 clock0 hello
    (pageWith false [] (js "Hi"))
  = (mkPage
       (mkChatState true true []
          ([persisted1] ++ [optimisticMessage clock0 7 (js "Hi")]) [])
       [] true 0,
     None).
Proof.
  exact (plain_send_leaves_typing_as_switch (fun lit => lit) lowerAscii
           plainServer (js "https://api.example.com/v1/chat") 7 clock0 hello
           (pageWith false [] (js "Hi")) local3 eq_refl eq_refl).
Defined.

Section SentRequest.

Variable NumberToString : jsstring -> jsstring.
Variable toLowerCase : jsstring -> jsstring.
Variables (profile_url profile_model_name : jsstring) (chatId : Z).

(** The one request of a send: two servers that answer it alike give the
    same page and the same reader. *)
Lemma mutate_asks_once (server server' : Server) (clock : Clock)
    (message : MessageFormData) (p : Page) :
  post server chatId message = post server' chatId message ->
  fetch server chatId message = fetch server' chatId message ->
  mutate NumberToString toLowerCase server profile_url chatId clock message p
  = mutate NumberToString toLowerCase server' profile_url chatId clock message
      p.
Proof.
  intros Hp Hf. unfold mutate, mutationFn, sendMessage. cbn.
  destruct (streamingEnabled (component p)
            && isOllamaApi toLowerCase profile_url); cbn.
  - rewrite Hf. reflexivity.
  - rewrite Hp. reflexivity.
Qed.

Lemma handleSendMessage_mutate (server : Server) (clock : Clock) (p : Page) :
  trim (input p) <> [] ->
  handleSendMessage NumberToString toLowerCase server profile_url
    profile_model_name chatId clock p
  = mutate NumberToString toLowerCase server profile_url chatId clock
      (mkMessageFormData user
         (messageContent toLowerCase profile_model_name (markdownEnabled p)
            (input p)))
      p.
Proof.
  intros Hne. unfold handleSendMessage.
  destruct (str_eqb (trim (input p)) []) eqn:E; [|reflexivity].
  apply str_eqb_eq in E. contradiction.
Qed.

End SentRequest.

(** X14.  A send from an input that is not blank makes one request, for the
    message whose role is [user] and whose content is the trimmed input
    followed by the formatting hint when one is added: servers that answer
    this message alike leave the same page and reader, and the answer to it
    decides the outcome, a rejection keeping the text of the input and an
    answer clearing it.  The same content is shown at once as the user's own
    message.  It starts with the trimmed input, and is the trimmed input
    when Markdown is off. *)
Theorem handleSendMessage_shows_what_is_sent
    (NumberToString toLowerCase : jsstring -> jsstring)
    (server server' : Server)
    (profile_url profile_model_name : jsstring) (chatId : Z) (clock : Clock)
    (p : Page) :
  trim (input p) <> [] ->
  let sent :=
    messageContent toLowerCase profile_model_name (markdownEnabled p)
      (input p) in
  let request := mkMessageFormData user sent in
  let send := fun s : Server =>
    handleSendMessage NumberToString toLowerCase s profile_url
      profile_model_name chatId clock p in
  (post server chatId request = post server' chatId request ->
   fetch server chatId request = fetch server' chatId request ->
   send server = send server')
  /\ (streamingEnabled (component p) && isOllamaApi toLowerCase profile_url
      = false ->
      (forall e, post server chatId request = Throw e ->
                 input (fst (send server)) = input p)
      /\ (forall reply, post server chatId request = Normal reply ->
                        input (fst (send server)) = []))
  /\ (streamingEnabled (component p) && isOllamaApi toLowerCase profile_url
      = true ->
      (forall e, fetch server chatId request = Throw e ->
                 input (fst (send server)) = input p)
      /\ (forall response b,
            fetch server chatId request = Normal response ->
            ok response = true -> body response = Some b ->
            input (fst (send server)) = []
            /\ exists task, snd (send server) = Some task
                            /\ task_body task = b))
  /\ (post server chatId request <> OutOfFuel ->
      fetch server chatId request <> OutOfFuel ->
      localMessages (component (fst (send server)))
      = localMessages (component p) ++ [optimisticMessage clock chatId sent])
  /\ startsWith sent (trim (input p)) = true
  /\ (markdownEnabled p = false -> sent = trim (input p)).
Proof.
  intros Hne sent request send.
  assert (Hsend : forall s, send s
            = mutate NumberToString toLowerCase s profile_url chatId clock
                request p).
  { intros s. unfold send.
    apply (handleSendMessage_mutate NumberToString toLowerCase profile_url
             profile_model_name chatId s clock p Hne). }
  split; [|split; [|split; [|split; [|split]]]].
  - intros Hp Hf. rewrite !Hsend. apply mutate_asks_once; assumption.
  - intros Hplain. rewrite Hsend. split.
    + intros e He. unfold mutate, mutationFn, sendMessage. cbn.
      rewrite Hplain. cbn. rewrite He. reflexivity.
    + intros reply Hr. unfold mutate, mutationFn, sendMessage. cbn.
      rewrite Hplain. cbn. rewrite Hr. cbn.
      destruct (streamingEnabled (component p)); reflexivity.
  - intros Hstream. rewrite Hsend. split.
    + intros e He. unfold mutate, mutationFn, sendMessage. cbn.
      rewrite Hstream. cbn. rewrite He. reflexivity.
    + intros response b Hr Hok Hb.
      unfold mutate, mutationFn, sendMessage. cbn.
      rewrite Hstream. cbn. rewrite Hr, Hok. cbn. rewrite Hb. cbn.
      destruct (streamingEnabled (component p)); cbn;
        (split; [reflexivity | eexists; split; reflexivity]).
  - intros Hp Hf. rewrite Hsend.
    apply (mutate_local NumberToString toLowerCase server profile_url chatId
             clock request p Hp Hf).
  - unfold sent, messageContent.
    assert (Hpre : forall a b : jsstring, startsWith (a ++ b) a = true).
    { induction a as [|x a IH]; intros b; simpl.
      - apply startsWith_nil.
      - rewrite N.eqb_refl. apply IH. }
    destruct (_ && _ && _).
    + apply Hpre.
    + rewrite <- (app_nil_r (trim (input p))) at 1. apply Hpre.
  - intros Hm. unfold sent, messageContent. rewrite Hm. reflexivity.
Qed.

Lemma handleSendMessage_shows_what_is_sent_witness :
  let p := pageWith false [] (js " Hi ") in
  let sent := messageContent lowerAscii (js "codellama") true (js " Hi ") in
  sent = js "Hi" ++ codeHint
  /\ handleSendMessage (fun lit => lit) lowerAscii plainServer
       (js "https://api.example.com/v1/chat") (js "codellama") 7 clock0 p
     = handleSendMessage (fun lit => lit) lowerAscii
         (mkServer
            (fun _ m => if str_eqb (form_content m) sent then Normal local3
                        else Throw NetworkError)
            (fun _ _ => Throw NetworkError))
         (js "https://api.example.com/v1/chat") (js "codellama") 7 clock0 p.
Proof.
  split; [reflexivity|].
  apply (proj1 (handleSendMessage_shows_what_is_sent (fun lit => lit)
                  lowerAscii plainServer
                  (mkServer
                     (fun _ m =>
                        if str_eqb (form_content m)
                             (messageContent lowerAscii (js "codellama") true
                                (js " Hi "))
                        then Normal local3 else Throw NetworkError)
                     (fun _ _ => Throw NetworkError))
                  (js "https://api.example.com/v1/chat") (js "codellama") 7
                  clock0 (pageWith false [] (js " Hi "))
                  ltac:(discriminate)));
    reflexivity.
Defined.

(** X15.  While the page is typing the input sends nothing, whatever key is
    pressed; the guard is in the input alone: [handleSendMessage] itself, on
    the same page with a text in the input, starts another send. *)
Theorem typing_guard_is_in_the_input
    (NumberToString toLowerCase : jsstring -> jsstring) (server : Server)
    (profile_url profile_model_name : jsstring) (chatId : Z)
    (ctrlKey metaKey : bool) (key : jsstring) (isPending : bool)
    (clock : Clock) (p : Page) :
  isTyping (component p) = true ->
  keyDown NumberToString toLowerCase server profile_url profile_model_name
    chatId ctrlKey metaKey key isPending clock p = (p, None)
  /\ (trim (input p) <> [] ->
      (forall m, post server chatId m <> OutOfFuel) ->
      (forall m, fetch server chatId m <> OutOfFuel) ->
      fst (handleSendMessage NumberToString toLowerCase server profile_url
             profile_model_name chatId clock p) <> p).
Proof.
  intros Ht. split.
  - unfold keyDown, handleKeyDown. rewrite Ht. simpl.
    rewrite !andb_false_r. reflexivity.
  - intros Hne Hp Hf Heq.
    pose proof (handleSendMessage_local NumberToString toLowerCase server
                  profile_url profile_model_name chatId clock p Hne Hp Hf)
      as Hl.
    rewrite Heq in Hl. apply (f_equal (@length Message)) in Hl.
    rewrite length_app in Hl. simpl in Hl. lia.
Qed.

Lemma typing_guard_is_in_the_input_witness :
  let p := pageWith true (js "Hel") (js "More") in
  keyDown (fun lit => lit) lowerAscii streamingServer ollamaUrl
    (js "llama3.2") 7 true false (js "Enter") false clock0 p = (p, None)
  /\ (trim (input p) <> [] ->
      (forall m, post streamingServer 7 m <> OutOfFuel) ->
      (forall m, fetch streamingServer 7 m <> OutOfFuel) ->
      fst (handleSendMessage (fun lit => lit) lowerAscii streamingServer
             ollamaUrl (js "llama3.2") 7 clock0 p) <> p).
Proof.
  exact (typing_guard_is_in_the_input (fun lit => lit) lowerAscii
           streamingServer ollamaUrl (js "llama3.2") 7 true false (js "Enter")
           false clock0 (pageWith true (js "Hel") (js "More")) eq_refl).
Defined.

(** ** A closed code block *)

Lemma fixCodeBlocks_clean_prefix (pre s : jsstring) :
  ~ In backtick pre -> fixCodeBlocks (pre ++ s) = pre ++ fixCodeBlocks s.
Proof.
  induction pre as [|x pre IH]; intros Hc; [reflexivity|].
  change ((x :: pre) ++ s) with (x :: (pre ++ s)).
  rewrite fixCodeBlocks_no_fence.
  - rewrite IH by (intros H; apply Hc; right; exact H). reflexivity.
  - unfold fence. cbn [startsWith].
    replace (N.eqb x backtick) with false; [reflexivity|].
    symmetry. apply N.eqb_neq. intros ->. apply Hc. left. reflexivity.
Qed.

(** X8.  A closed code block, a fence line, a body without backticks and a
    closing fence on a line of its own, does not come back as it was: the
    pass closes the block right after the fence line, the body follows
    outside, and the closing fence becomes an empty block of two fences. *)
Theorem sanitizeMarkdown_moves_body_out_of_block (info body : jsstring) :
  ~ In newline info ->
  ~ In backtick body ->
  hasTableStart (fence ++ info ++ newline :: body ++ newline :: fence)
    = false ->
  sanitizeMarkdown (fence ++ info ++ newline :: body ++ newline :: fence)
  = fence ++ info ++ [newline] ++ fence ++ body ++ [newline] ++ fence ++ fence.
Proof.
  intros Hi Hb Ht.
  unfold sanitizeMarkdown, sanitizeMarkdown_run, fence at 1.
  cbn [app]. fold fence.
  change (backtick :: backtick :: backtick :: info
            ++ newline :: body ++ newline :: fence)
    with (fence ++ info ++ newline :: body ++ newline :: fence).
  unfold sanitize_try. rewrite Ht. cbn [bind try_catch].
  rewrite (proj1 (fixCodeBlocks_fence_step info _ Hi)).
  assert (Hs : startsWith (body ++ newline :: fence) fence = false).
  { destruct body as [|x body']; [reflexivity|].
    unfold fence. cbn [app startsWith].
    replace (N.eqb x backtick) with false; [reflexivity|].
    symmetry. apply N.eqb_neq. intros ->. apply Hb. left. reflexivity. }
  rewrite Hs.
  replace (body ++ newline :: fence) with ((body ++ [newline]) ++ fence)
    by (rewrite <- app_assoc; reflexivity).
  rewrite fixCodeBlocks_clean_prefix.
  2:{ intros H. apply in_app_or in H as [H|H]; [exact (Hb H)|].
      destruct H as [H|[]]. discriminate. }
  assert (Hf : fixCodeBlocks fence = fence ++ fence)
    by exact (proj2 (fixCodeBlocks_fence_step [] [] (fun H => H))).
  rewrite Hf, <- !app_assoc. reflexivity.
Qed.

Lemma sanitizeMarkdown_moves_body_out_of_block_witness :
  sanitizeMarkdown
    (fence ++ js "python" ++ newline :: js "print(1)" ++ newline :: fence)
  = fence ++ js "python" ++ [newline] ++ fence ++ js "print(1)" ++ [newline]
      ++ fence ++ fence.
Proof.
  apply (sanitizeMarkdown_moves_body_out_of_block (js "python") (js "print(1)")).
  - simpl. unfold newline. intuition discriminate.
  - simpl. unfold backtick. intuition discriminate.
  - reflexivity.
Defined.

(** ** The error helpers *)

Section ErrorHelpers.

Variable NumberToString : jsstring -> jsstring.
Variable NumberIsZero : jsstring -> bool.

Lemma isApiErrorCode_code (error : Caught) (c : jsstring) :
  isApiErrorCode error c = true ->
  exists message r request d,
    error = AxiosError message (Some r) request
    /\ axios_data r = Some d
    /\ property (js "code") d = Some (JString c).
Proof.
  destruct error as [message [r|] request|message|]; simpl; try discriminate.
  destruct (axios_data r) as [d|] eqn:Hd; try discriminate.
  destruct (property (js "code") d) as [[| | |c'| |]|] eqn:Hc;
    try discriminate.
  intros H. apply str_eqb_eq in H. subst c'.
  exists message, r, request, d. auto.
Qed.

End ErrorHelpers.

(** X16.  An error matches at most one API error code: when it matches a
    code it is an axios error whose response body is an object with that
    string as [code], and it matches no other.  So no error is a model API
    error and a database error at once. *)
Theorem isApiErrorCode_unique (error : Caught) (c : jsstring) :
  isApiErrorCode error c = true ->
  (forall c', isApiErrorCode error c' = str_eqb c c')
  /\ isModelApiError error && isDatabaseError error = false
  /\ exists message r request d,
       error = AxiosError message (Some r) request
       /\ axios_data r = Some d
       /\ property (js "code") d = Some (JString c).
Proof.
  intros H.
  destruct (isApiErrorCode_code error c H)
    as (message & r & request & d & -> & Hd & Hc).
  assert (Hall : forall c',
             isApiErrorCode (AxiosError message (Some r) request) c'
             = str_eqb c c').
  { intros c'. simpl. rewrite Hd, Hc. reflexivity. }
  split; [exact Hall|]. split.
  - unfold isModelApiError, isDatabaseError. rewrite !Hall.
    destruct (str_eqb c (js "MODEL_API_ERROR")) eqn:E; [|reflexivity].
    apply str_eqb_eq in E. subst c. reflexivity.
  - exists message, r, request, d. auto.
Qed.

Lemma isApiErrorCode_unique_witness :
  let error :=
    AxiosError (js "Request failed with status code 502")
      (Some (mkAxiosResponse
               (Some (JObject [(js "error", JBool true);
                               (js "code", JString (js "MODEL_API_ERROR"))]))
               502 (js "Bad Gateway")))
      true in
  (forall c', isApiErrorCode error c' = str_eqb (js "MODEL_API_ERROR") c')
  /\ isModelApiError error && isDatabaseError error = false
  /\ exists message r request d,
       error = AxiosError message (Some r) request
       /\ axios_data r = Some d
       /\ property (js "code") d = Some (JString (js "MODEL_API_ERROR")).
Proof.
  exact (isApiErrorCode_unique
           (AxiosError (js "Request failed with status code 502")
              (Some (mkAxiosResponse
                       (Some (JObject
                                [(js "error", JBool true);
                                 (js "code", JString (js "MODEL_API_ERROR"))]))
                       502 (js "Bad Gateway")))
              true)
           (js "MODEL_API_ERROR") eq_refl).
Defined.

(** X17.  [getErrorMessage] throws a TypeError on an axios error whose
    response body is a text that is not empty, a number other than zero or
    [true]: the test for the [error] member applies [in] to it.  With no
    body, or an empty, zero, [false] or [null] one, the message is the
    status line. *)
Theorem getErrorMessage_throws_on_text_body
    (NumberToString : jsstring -> jsstring) (NumberIsZero : jsstring -> bool)
    (message : jsstring) (r : AxiosResponse) (request : bool) (d : JsonValue) :
  axios_data r = Some d ->
  (forall l, d <> JArray l) ->
  (forall m, d <> JObject m) ->
  getErrorMessage NumberToString NumberIsZero
    (AxiosError message (Some r) request)
  = if truthy NumberIsZero d then Throw TypeError
    else Normal (js "Request failed with status "
                   ++ decimal (axios_status r) ++ js ": "
                   ++ axios_statusText r).
Proof.
  intros Hd Ha Ho. unfold getErrorMessage, apiErrorData. rewrite Hd.
  destruct d as [|b|lit|s|l|m];
    try (destruct (Ha l); reflexivity);
    try (destruct (Ho m); reflexivity);
    destruct (truthy NumberIsZero _); reflexivity.
Qed.

Lemma getErrorMessage_throws_on_text_body_witness :
  getErrorMessage (fun lit => lit) (fun _ => false)
    (AxiosError (js "Request failed with status code 502")
       (Some (mkAxiosResponse (Some (JString (js "Bad Gateway"))) 502
                (js "Bad Gateway")))
       true)
  = Throw TypeError.
Proof.
  exact (getErrorMessage_throws_on_text_body (fun lit => lit) (fun _ => false)
           (js "Request failed with status code 502")
           (mkAxiosResponse (Some (JString (js "Bad Gateway"))) 502
              (js "Bad Gateway"))
           true (JString (js "Bad Gateway")) eq_refl
           ltac:(discriminate) ltac:(discriminate)).
Defined.

(** X18.  For an axios error whose response body is an object with an
    [error] member, whatever its value, a text as [message] and a text that
    is not empty as [request_id], the message is that text followed by the
    request id in parentheses, and [getRequestId] gives the same id; without
    a [message] member the message reads [undefined]. *)
Theorem getErrorMessage_structured
    (NumberToString : jsstring -> jsstring) (NumberIsZero : jsstring -> bool)
    (message : jsstring) (r : AxiosResponse) (request : bool)
    (members : list (jsstring * JsonValue)) (rid : jsstring) :
  axios_data r = Some (JObject members) ->
  hasKey (js "error") members = true ->
  getProperty (js "request_id") members = Some (JString rid) ->
  rid <> [] ->
  getRequestId (AxiosError message (Some r) request) = Some (JString rid)
  /\ (forall text,
        getProperty (js "message") members = Some (JString text) ->
        getErrorMessage NumberToString NumberIsZero
          (AxiosError message (Some r) request)
        = Normal (text ++ js " (Request ID: " ++ rid ++ js ")"))
  /\ (getProperty (js "message") members = None ->
      getErrorMessage NumberToString NumberIsZero
        (AxiosError message (Some r) request)
      = Normal (js "undefined" ++ js " (Request ID: " ++ rid ++ js ")")).
Proof.
  intros Hd He Hr Hne.
  assert (Ht : negb (str_eqb rid []) = true).
  { destruct rid; [contradiction|reflexivity]. }
  split; [|split].
  - simpl. rewrite Hd. exact Hr.
  - intros text Hm. unfold getErrorMessage, apiErrorData. rewrite Hd.
    cbn [truthy in_operator bind]. rewrite He. cbn [property].
    rewrite Hr, Hm. cbn [truthy]. rewrite Ht. reflexivity.
  - intros Hm. unfold getErrorMessage, apiErrorData. rewrite Hd.
    cbn [truthy in_operator bind]. rewrite He. cbn [property].
    rewrite Hr, Hm. cbn [truthy]. rewrite Ht. reflexivity.
Qed.

Lemma getErrorMessage_structured_witness :
  let members :=
    [(js "error", JBool false);
     (js "message", JString (js "Model not found"));
     (js "request_id", JString (js "r-17"))] in
  let error :=
    AxiosError (js "Request failed with status code 404")
      (Some (mkAxiosResponse (Some (JObject members)) 404 (js "Not Found")))
      true in
  getRequestId error = Some (JString (js "r-17"))
  /\ (forall text,
        getProperty (js "message") members = Some (JString text) ->
        getErrorMessage (fun lit => lit) (fun _ => false) error
        = Normal (text ++ js " (Request ID: " ++ js "r-17" ++ js ")"))
  /\ (getProperty (js "message") members = None ->
      getErrorMessage (fun lit => lit) (fun _ => false) error
      = Normal (js "undefined" ++ js " (Request ID: " ++ js "r-17" ++ js ")")).
Proof.
  exact (getErrorMessage_structured (fun lit => lit) (fun _ => false)
           (js "Request failed with status code 404")
           (mkAxiosResponse
              (Some (JObject
                       [(js "error", JBool false);
                        (js "message", JString (js "Model not found"));
                        (js "request_id", JString (js "r-17"))]))
              404 (js "Not Found"))
           true
           [(js "error", JBool false);
            (js "message", JString (js "Model not found"));
            (js "request_id", JString (js "r-17"))]
           (js "r-17") eq_refl eq_refl eq_refl ltac:(discriminate)).
Defined.

(** ** [formatDistanceToNow] and [formatDate] *)

Section Distances.

Lemma ago_is_not_just_now (a b c : jsstring) :
  a ++ b ++ c ++ js " ago" <> js "just now".
Proof.
  intros H. apply (f_equal (@rev N)) in H.
  rewrite !rev_app_distr in H. simpl in H. discriminate.
Qed.

Lemma ago_is_not_unknown (a b c : jsstring) :
  a ++ b ++ c ++ js " ago" <> js "Unknown date".
Proof.
  intros H. apply (f_equal (@rev N)) in H.
  rewrite !rev_app_distr in H. simpl in H. discriminate.
Qed.

Lemma minutes_of (d : Z) : (d / 1000 / 60 = d / 60000)%Z.
Proof. rewrite Z.div_div by lia. reflexivity. Qed.

Lemma hours_of (d : Z) : (d / 1000 / 60 / 60 = d / 3600000)%Z.
Proof. rewrite !Z.div_div by lia. reflexivity. Qed.

Lemma days_of (d : Z) : (d / 1000 / 60 / 60 / 24 = d / 86400000)%Z.
Proof. rewrite !Z.div_div by lia. reflexivity. Qed.

(** On a valid date the nested floors are single divisions. *)
Lemma formatDistanceToNow_unfold (now date : Z) :
  formatDistanceToNow now (Some date) =
  let d := (now - date)%Z in
  if (d / 86400000 >? 0)%Z then
    decimal (d / 86400000) ++ js " day"
      ++ (if (d / 86400000 >? 1)%Z then js "s" else []) ++ js " ago"
  else if (d / 3600000 >? 0)%Z then
    decimal (d / 3600000) ++ js " hour"
      ++ (if (d / 3600000 >? 1)%Z then js "s" else []) ++ js " ago"
  else if (d / 60000 >? 0)%Z then
    decimal (d / 60000) ++ js " minute"
      ++ (if (d / 60000 >? 1)%Z then js "s" else []) ++ js " ago"
  else js "just now".
Proof.
  unfold formatDistanceToNow, plural, num_sub, num_floor_div, num_gt,
    num_toString. cbv zeta.
  rewrite days_of, hours_of, minutes_of. reflexivity.
Qed.

Lemma quotient_positive (d u : Z) :
  (0 < u)%Z -> ((d / u >? 0)%Z = true <-> (u <= d)%Z).
Proof.
  intros Hu. rewrite Z.gtb_lt. split; intros H.
  - destruct (Z_lt_le_dec d u) as [Hlt|]; [|assumption].
    assert (d / u <= 0)%Z; [|lia].
    destruct (Z_lt_le_dec d 0).
    + apply Z.lt_le_incl, Z.div_lt_upper_bound; lia.
    + rewrite Z.div_small; lia.
  - apply Z.div_str_pos. lia.
Qed.

Lemma quotient_not_positive (d u : Z) :
  (0 < u)%Z -> (d < u)%Z -> (d / u >? 0)%Z = false.
Proof.
  intros Hu Hd. destruct (d / u >? 0)%Z eqn:E; [|reflexivity].
  apply quotient_positive in E; lia.
Qed.

Lemma formatDistanceToNow_shapes (now : Z) (date : Num) :
  formatDistanceToNow now date = js "just now"
  \/ exists a b c, formatDistanceToNow now date = a ++ b ++ c ++ js " ago".
Proof.
  unfold formatDistanceToNow. cbv zeta.
  repeat match goal with
         | |- context [if ?c then _ else _] =>
             lazymatch c with
             | num_gt _ 0 => destruct c; [right; do 3 eexists; reflexivity|]
             end
         end.
  left. reflexivity.
Qed.

End Distances.

(** X19.  [formatDistanceToNow] says "just now" exactly when less than a
    minute has passed or the date is invalid; a date in the future is "just
    now" too. *)
Theorem formatDistanceToNow_just_now (now : Z) (date : Num) :
  formatDistanceToNow now date = js "just now"
  <-> match date with
      | Some t => (now - t < 60000)%Z
      | None => True
      end.
Proof.
  destruct date as [date|]; [|split; [trivial | reflexivity]].
  rewrite formatDistanceToNow_unfold. cbv zeta.
  set (d := (now - date)%Z). split.
  - intros H. destruct (Z_lt_le_dec d 60000) as [|Hge]; [assumption|].
    exfalso.
    destruct (d / 86400000 >? 0)%Z;
      [exact (ago_is_not_just_now _ _ _ H)|].
    destruct (d / 3600000 >? 0)%Z;
      [exact (ago_is_not_just_now _ _ _ H)|].
    destruct (d / 60000 >? 0)%Z eqn:E;
      [exact (ago_is_not_just_now _ _ _ H)|].
    assert (Hq : (d / 60000 >? 0)%Z = true) by (apply quotient_positive; lia).
    rewrite Hq in E. discriminate.
  - intros H.
    rewrite !quotient_not_positive by lia. reflexivity.
Qed.

(** X20.  From a minute on, and as long as the elapsed milliseconds are
    below 2^53, where the arithmetic of the code is exact,
    [formatDistanceToNow] counts in the largest of day, hour and minute that
    has passed once, the count being the whole number of such units in the
    elapsed milliseconds, with a plural [s] from two on; there is no unit
    above the day. *)
Theorem formatDistanceToNow_units (now date : Z) :
  let d := (now - date)%Z in
  (d < 2 ^ 53)%Z ->
  (86400000 <= d ->
   formatDistanceToNow now (Some date) =
   decimal (d / 86400000) ++ js " day"
     ++ (if (2 * 86400000 <=? d)%Z then js "s" else []) ++ js " ago")%Z
  /\ (3600000 <= d < 86400000 ->
      formatDistanceToNow now (Some date) =
      decimal (d / 3600000) ++ js " hour"
        ++ (if (2 * 3600000 <=? d)%Z then js "s" else []) ++ js " ago")%Z
  /\ (60000 <= d < 3600000 ->
      formatDistanceToNow now (Some date) =
      decimal (d / 60000) ++ js " minute"
        ++ (if (2 * 60000 <=? d)%Z then js "s" else []) ++ js " ago")%Z.
Proof.
  intros d _.
  assert (Hplural : forall u, (0 < u)%Z ->
            (d / u >? 1)%Z = (2 * u <=? d)%Z).
  { intros u Hu.
    destruct (2 * u <=? d)%Z eqn:E.
    - apply Z.leb_le in E.
      assert (2 <= d / u)%Z by (apply Z.div_le_lower_bound; lia).
      apply Z.gtb_lt. lia.
    - apply Z.leb_gt in E.
      assert (d / u < 2)%Z by (apply Z.div_lt_upper_bound; lia).
      rewrite Z.gtb_ltb. apply Z.ltb_ge. lia. }
  rewrite formatDistanceToNow_unfold. cbv zeta. fold d.
  split; [|split]; intros H.
  - replace (d / 86400000 >? 0)%Z with true
      by (symmetry; apply quotient_positive; lia).
    rewrite Hplural by lia. reflexivity.
  - rewrite (quotient_not_positive d 86400000) by lia.
    replace (d / 3600000 >? 0)%Z with true
      by (symmetry; apply quotient_positive; lia).
    rewrite Hplural by lia. reflexivity.
  - rewrite (quotient_not_positive d 86400000) by lia.
    rewrite (quotient_not_positive d 3600000) by lia.
    replace (d / 60000 >? 0)%Z with true
      by (symmetry; apply quotient_positive; lia).
    rewrite Hplural by lia. reflexivity.
Qed.

Lemma formatDistanceToNow_units_witness :
  formatDistanceToNow 200000000 (Some 0%Z) = js "2 days ago"
  /\ formatDistanceToNow 7199999 (Some 0%Z) = js "1 hour ago"
  /\ formatDistanceToNow 35000000000 (Some 0%Z) = js "405 days ago".
Proof.
  split; [|split].
  - exact (proj1 (formatDistanceToNow_units 200000000 0 eq_refl)
             ltac:(simpl; lia)).
  - exact (proj1 (proj2 (formatDistanceToNow_units 7199999 0 eq_refl))
             ltac:(simpl; lia)).
  - exact (proj1 (formatDistanceToNow_units 35000000000 0 eq_refl)
             ltac:(simpl; lia)).
Defined.

(** X23.  [formatDate] never answers "Unknown date": its [catch] clause is
    never entered, and a text that is no date is shown as "just now". *)
Theorem formatDate_never_unknown
    (parseDate : jsstring -> Num) (now : Z) (dateString : jsstring) :
  exists text,
    formatDate parseDate now dateString = Normal text
    /\ text <> js "Unknown date"
    /\ (parseDate dateString = None -> text = js "just now").
Proof.
  unfold formatDate, try_catch. eexists. split; [reflexivity|]. split.
  - destruct (formatDistanceToNow_shapes now (parseDate dateString))
      as [H|(a & b & c & H)]; rewrite H.
    + discriminate.
    + apply ago_is_not_unknown.
  - intros H. rewrite H. reflexivity.
Qed.

(** ** Fragments that come quoted *)

Section QuotedFragments.

Lemma parse_chars_plain (s rest : jsstring) :
  forallb plainUnit s = true ->
  parse_chars 0 (s ++ 34%N :: rest) = Some (s, rest).
Proof.
  induction s as [|x s IH]; intros H; simpl.
  - reflexivity.
  - simpl in H. apply andb_prop in H as [Hx Hs].
    unfold plainUnit in Hx.
    apply andb_prop in Hx as [Hx H32]. apply andb_prop in Hx as [H34 H92].
    apply negb_true_iff in H34, H92, H32.
    rewrite H34, H92, H32, (IH Hs). reflexivity.
Qed.

Lemma parse_value_string (fuel : nat) (s : jsstring) :
  parse_value (S fuel) (34%N :: s) =
  match parse_chars 0 s with
  | Some (str, r) => Some (JString str, r)
  | None => None
  end.
Proof. reflexivity. Qed.

Lemma JSON_parse_quoted (s : jsstring) :
  forallb plainUnit s = true -> JSON_parse (quoted s) = Normal (JString s).
Proof.
  intros H. unfold JSON_parse.
  replace (2 * length (quoted s) + 4) with (S (2 * length (quoted s) + 3))
    by lia.
  unfold quoted at 2. change ([34%N] ++ s ++ [34%N]) with (34%N :: s ++ [34%N]).
  rewrite parse_value_string, (parse_chars_plain s [] H). reflexivity.
Qed.

End QuotedFragments.

Section QuotedEvents.

Variable NumberToString : jsstring -> jsstring.

Lemma handleChunk_quoted_run (s : jsstring) (st : ChatState) :
  forallb plainUnit s = true ->
  handleChunk NumberToString (Event (mkMessageEvent (quoted s))) st
  = Normal (setStreamingMessage (streamingMessage st ++ s) st).
Proof.
  intros H. unfold handleChunk. cbn [eventData data dataText].
  replace (str_eqb (quoted s) (js "[DONE]")) with false by reflexivity.
  rewrite (JSON_parse_quoted s H). reflexivity.
Qed.

Lemma handleEvents_cons (p : jsstring) (ps : list jsstring) (st st1 : ChatState) :
  handleChunk NumberToString (Event (mkMessageEvent p)) st = Normal st1 ->
  handleEvents NumberToString (p :: ps) st = handleEvents NumberToString ps st1.
Proof.
  intros H. unfold handleEvents. cbn [fold_left bind]. rewrite H. reflexivity.
Qed.

End QuotedEvents.

(** X21.  The handler given an event whose data is a text in double quotes,
    the text free of quotes, backslashes and control characters, adds the
    text without the quotes to the draft and changes nothing else; the
    sentinel in quotes is text like any other. *)
Theorem handleChunk_quoted_text
    (NumberToString : jsstring -> jsstring) (s : jsstring) (st : ChatState) :
  forallb plainUnit s = true ->
  appends s st
    (handleChunk NumberToString (Event (mkMessageEvent (quoted s))) st).
Proof.
  intros H. rewrite (handleChunk_quoted_run NumberToString s st H).
  eexists. split; [reflexivity|]. cbn. repeat split.
Qed.

Lemma handleChunk_quoted_text_witness :
  appends sentinel typing
    (handleChunk (fun lit => lit) (Event (mkMessageEvent (quoted sentinel)))
       typing).
Proof.
  exact (handleChunk_quoted_text (fun lit => lit) sentinel typing eq_refl).
Defined.

(** X22.  The handler given, one after the other, events whose data are
    quoted texts free of quotes, backslashes and control characters, and
    then an event whose data is the sentinel: the draft has gained the
    texts, in order, the page is no longer typing, one refetch has been
    requested, and the list of messages is as it was. *)
Theorem quoted_events_fill_draft
    (NumberToString : jsstring -> jsstring) (texts : list jsstring)
    (st : ChatState) :
  forallb (forallb plainUnit) texts = true ->
  exists st',
    handleEvents NumberToString (map quoted texts ++ [sentinel]) st
    = Normal st'
    /\ streamingMessage st' = streamingMessage st ++ concat texts
    /\ isTyping st' = false
    /\ localMessages st' = localMessages st
    /\ effects st' = effects st ++ [RefetchMessages].
Proof.
  revert st. induction texts as [|s texts IH]; intros st H.
  - eexists. split; [reflexivity|]. cbn. rewrite app_nil_r. repeat split.
  - cbn [forallb] in H. apply andb_prop in H as [Hs Ht].
    cbn [map app].
    rewrite (handleEvents_cons NumberToString _ _ st _
               (handleChunk_quoted_run NumberToString s st Hs)).
    destruct (IH (setStreamingMessage (streamingMessage st ++ s) st) Ht)
      as (st' & Hr & Hm & Hty & Hl & He).
    exists st'. split; [exact Hr|]. cbn in Hm, Hl, He.
    rewrite Hm, <- app_assoc. repeat split; auto.
Qed.

Lemma quoted_events_fill_draft_witness :
  exists st',
    handleEvents (fun lit => lit)
      (map quoted [js "Hel"; js "lo"] ++ [sentinel]) typing
    = Normal st'
    /\ streamingMessage st' = streamingMessage typing ++ concat [js "Hel"; js "lo"]
    /\ isTyping st' = false
    /\ localMessages st' = localMessages typing
    /\ effects st' = effects typing ++ [RefetchMessages].
Proof.
  exact (quoted_events_fill_draft (fun lit => lit) [js "Hel"; js "lo"] typing
           eq_refl).
Defined.

(** ** The shortcuts of the window *)

(** X24.  Whatever the key, a shortcut changes neither the messages, nor the
    draft, nor the typing flag, nor the text of the input; with the focus in
    an input it changes nothing at all. *)
Theorem shortcuts_keep_conversation
    (isTypingInInput : bool) (key : jsstring) (v : View) :
  let v' := handleShortcut isTypingInInput key v in
  localMessages (component (page v')) = localMessages (component (page v))
  /\ streamingMessage (component (page v'))
     = streamingMessage (component (page v))
  /\ isTyping (component (page v')) = isTyping (component (page v))
  /\ input (page v') = input (page v)
  /\ (isTypingInInput = true -> v' = v).
Proof.
  unfold handleShortcut. cbv zeta.
  destruct isTypingInInput; [repeat split; auto|].
  destruct (str_eqb key (js "h"));
    [cbn; repeat split; auto; discriminate|].
  destruct (str_eqb key (js "s"));
    [cbn; repeat split; auto; discriminate|].
  destruct (str_eqb key (js "m"));
    [cbn; repeat split; auto; discriminate|].
  destruct (str_eqb key (js "r"));
    [cbn; repeat split; auto; discriminate|].
  destruct (str_eqb key (js "Escape"));
    [|repeat split; auto; discriminate].
  destruct (showChatHistory v); cbn; repeat split; auto; discriminate.
Qed.

(** X25.  While a draft is streaming, the streaming shortcut switches what
    stands for it on the page, the draft or the dots, while the draft itself
    is kept; pressing the key again brings the page back as it was. *)
Theorem streaming_shortcut_switches_bubble (v : View) :
  isTyping (component (page v)) = true ->
  streamingMessage (component (page v)) <> [] ->
  let v' := handleShortcut false (js "s") v in
  provisionalEntries (component (page v'))
  = [if streamingEnabled (component (page v)) then TypingDots
     else DraftBubble (sanitizeMarkdown (streamingMessage (component (page v))))]
  /\ streamingMessage (component (page v'))
     = streamingMessage (component (page v))
  /\ handleShortcut false (js "s") v' = v.
Proof.
  intros Ht Hd.
  destruct v as [[[typingNow enabled draft messages log] text md inv] hist].
  cbn in Ht, Hd |- *. subst typingNow.
  destruct draft as [|x draft]; [contradiction|].
  split; [|split].
  - destruct enabled; reflexivity.
  - reflexivity.
  - unfold setStreamingEnabled. cbn. rewrite negb_involutive. reflexivity.
Qed.

Lemma streaming_shortcut_switches_bubble_witness :
  let v := mkView (pageWith true (js "Hel") []) false in
  let v' := handleShortcut false (js "s") v in
  provisionalEntries (component (page v'))
  = [if streamingEnabled (component (page v)) then TypingDots
     else DraftBubble (sanitizeMarkdown (streamingMessage (component (page v))))]
  /\ streamingMessage (component (page v'))
     = streamingMessage (component (page v))
  /\ handleShortcut false (js "s") v' = v.
Proof.
  exact (streaming_shortcut_switches_bubble
           (mkView (pageWith true (js "Hel") []) false)
           eq_refl ltac:(discriminate)).
Defined.
